(** * kalakobana: the room / session runtime of [server.js]

    A shallow embedding of the socket server of the word game: the room
    registry, the session directory, the per-room phase machine with its
    timers, letter selection and the scoring pass, followed by the
    properties of the specification that were checked against it.

    Conventions.
    - A JavaScript string is a [string] holding its UTF-8 encoding
      (well-formed strings only); identifiers, room codes and event
      payloads are strings of that kind.
    - A JavaScript [Map] is an insertion-ordered association list
      ([JsMap]); a plain object used as a dictionary is a [gmap]; a [Set]
      that is only tested, extended and cleared is a [gset].
    - Room objects live in a heap and are referred to by index: timer
      callbacks close over the room object, not over its code.
    - Numbers are integers ([Z]): scores, round counters and times in
      milliseconds. [Math.random()] is an exact rational, passed as an
      argument to the operation that calls it.
    - Time is the clock of the event loop: an input carries its arrival
      time and a timer its due time, and steps are taken in time order.
    - [String.prototype.toLowerCase] and [toUpperCase] are the engine's;
      the model is parameterised by them (class [Engine]). *)

From Stdlib Require Import ZArith QArith Qround List String Ascii Lia Sorted.
From stdpp Require Import gmap strings list fin_maps pretty.

Local Open Scope string_scope.
Local Open Scope Z_scope.

(** ** JavaScript values *)

(** Truthiness of a string-valued slot: [undefined], [null] and the empty
    string are falsy. *)
Definition truthy (v : option string) : bool :=
  match v with
  | Some s => negb (String.eqb s "")
  | None => false
  end.

(** [s.charAt(i)]: the empty string out of range. *)
Definition charAt (s : string) (i : nat) : string :=
  match String.get i s with
  | Some c => String c EmptyString
  | None => ""
  end.

(** [s.startsWith(p)]. *)
Definition startsWith (s p : string) : bool := String.prefix p s.

(** [Math.floor(r * n)] for [r = Math.random()], as an array index. A
    negative product has no index. *)
Definition randomIndex (r : Q) (n : nat) : option nat :=
  let k := Qfloor (r * inject_Z (Z.of_nat n)) in
  if k <? 0 then None else Some (Z.to_nat k).

(** The contract of [Math.random()]: a value in [0, 1). *)
Definition isRandom (r : Q) : bool :=
  Qle_bool 0 r && negb (Qle_bool 1 r).

(** *** [String.prototype.trim]

    White space and line terminators of ECMAScript, by their UTF-8
    encodings: U+0009..U+000D and U+0020 (one byte); U+00A0 (two bytes);
    U+1680, U+2000..U+200A, U+2028, U+2029, U+202F, U+205F, U+3000 and
    U+FEFF (three bytes). *)
Definition byte (a : ascii) : nat := nat_of_ascii a.

Definition ws1 (a : ascii) : bool :=
  ((9 <=? byte a) && (byte a <=? 13) || (byte a =? 32))%nat.

Definition ws2 (a b : ascii) : bool :=
  ((byte a =? 194) && (byte b =? 160))%nat.

Definition ws3 (a b c : ascii) : bool :=
  ((byte a =? 225) && (byte b =? 154) && (byte c =? 128)
   || (byte a =? 226) && (byte b =? 128)
      && ((128 <=? byte c) && (byte c <=? 138)
          || (byte c =? 168) || (byte c =? 169) || (byte c =? 175))
   || (byte a =? 226) && (byte b =? 129) && (byte c =? 159)
   || (byte a =? 227) && (byte b =? 128) && (byte c =? 128)
   || (byte a =? 239) && (byte b =? 187) && (byte c =? 191))%nat.

Fixpoint trimStart (s : list ascii) : list ascii :=
  match s with
  | a :: s1 =>
      if ws1 a then trimStart s1
      else match s1 with
           | b :: s2 =>
               if ws2 a b then trimStart s2
               else match s2 with
                    | c :: s3 => if ws3 a b c then trimStart s3 else s
                    | [] => s
                    end
           | [] => s
           end
  | [] => []
  end.

(** The same scan from the end, on the reversed bytes. *)
Fixpoint trimStartRev (s : list ascii) : list ascii :=
  match s with
  | a :: s1 =>
      if ws1 a then trimStartRev s1
      else match s1 with
           | b :: s2 =>
               if ws2 b a then trimStartRev s2
               else match s2 with
                    | c :: s3 => if ws3 c b a then trimStartRev s3 else s
                    | [] => s
                    end
           | [] => s
           end
  | [] => []
  end.

Definition trim (s : string) : string :=
  string_of_list_ascii
    (rev (trimStartRev (rev (trimStart (list_ascii_of_string s))))).

(** ** [Map]: an insertion-ordered association list *)

Module JsMap.
Section Ops.
Context {V : Type}.

Fixpoint get (k : string) (m : list (string * V)) : option V :=
  match m with
  | (k', v) :: m' => if String.eqb k k' then Some v else get k m'
  | [] => None
  end.

(** [m.set(k, v)]: an existing key keeps its position. *)
Fixpoint set (k : string) (v : V) (m : list (string * V)) : list (string * V) :=
  match m with
  | (k', v') :: m' =>
      if String.eqb k k' then (k', v) :: m' else (k', v') :: set k v m'
  | [] => [(k, v)]
  end.

Fixpoint delete (k : string) (m : list (string * V)) : list (string * V) :=
  match m with
  | (k', v') :: m' =>
      if String.eqb k k' then m' else (k', v') :: delete k m'
  | [] => []
  end.

Definition values (m : list (string * V)) : list V := map snd m.
Definition keys (m : list (string * V)) : list string := map fst m.
Definition size (m : list (string * V)) : nat := length m.

(** [m.forEach(v => ...)] where the body mutates the value it is given. *)
Definition forEach (f : V -> V) (m : list (string * V)) : list (string * V) :=
  map (fun kv => (fst kv, f (snd kv))) m.

(** Mutation of the object stored under [k], when there is one. *)
Definition update (k : string) (f : V -> V) (m : list (string * V))
  : list (string * V) :=
  map (fun kv => if String.eqb k (fst kv) then (fst kv, f (snd kv)) else kv) m.

End Ops.
End JsMap.

(** ** Data model *)

Inductive Phase := lobby | sticks | playing | stopped | results | ended.

#[global] Instance Phase_eq_dec : EqDecision Phase.
Proof. solve_decision. Defined.

(** An entry of [player.categoryScores]. [invalidatedBy] is absent until a
    toggle sets it and is removed again by [delete]. *)
Record ScoreEntry := mkScore {
  points : Z;
  isValid : bool;
  answer : string;
  invalidatedBy : option string
}.

(** A player object. [socketId] is [null] while disconnected;
    [categoryScores] is [undefined] until the first scoring pass. *)
Record Player := mkPlayer {
  id : string;
  nick : string;
  avatarSeed : string;
  isHost : bool;
  isReady : bool;
  isConnected : bool;
  socketId : option string;
  sessionId : string;
  answers : gmap string string;
  roundScore : Z;
  totalScore : Z;
  hasSubmitted : bool;
  categoryScores : option (gmap string ScoreEntry)
}.

(** [categories] is [None] when the host has set it to a falsy value. *)
Record Settings := mkSettings {
  minTime : Z;
  maxRounds : Z;
  useBonus : bool;
  categories : option (list string)
}.

(** [activeCategories] is an object whose keys are read back in insertion
    order by [Object.keys]. ([roundStartTime] is never assigned after the
    room is created and is left out.) *)
Record GameState := mkGameState {
  phase : Phase;
  currentRound : Z;
  currentLetter : string;
  usedLetters : gset string;
  activeCategories : list (string * string);
  stoppedBy : option string;
  timerEnabled : bool;
  allAnswersSubmitted : bool
}.

Record Room := mkRoom {
  code : string;
  hostId : string;
  players : list (string * Player);
  settings : Settings;
  gameState : GameState
}.

(** *** Field updates *)

Definition set_isHost (b : bool) (p : Player) : Player :=
  mkPlayer (id p) (nick p) (avatarSeed p) b (isReady p) (isConnected p)
    (socketId p) (sessionId p) (answers p) (roundScore p) (totalScore p)
    (hasSubmitted p) (categoryScores p).

Definition set_isReady (b : bool) (p : Player) : Player :=
  mkPlayer (id p) (nick p) (avatarSeed p) (isHost p) b (isConnected p)
    (socketId p) (sessionId p) (answers p) (roundScore p) (totalScore p)
    (hasSubmitted p) (categoryScores p).

Definition set_connection (c : bool) (sock : option string) (p : Player) : Player :=
  mkPlayer (id p) (nick p) (avatarSeed p) (isHost p) (isReady p) c
    sock (sessionId p) (answers p) (roundScore p) (totalScore p)
    (hasSubmitted p) (categoryScores p).

Definition set_answers (a : gmap string string) (p : Player) : Player :=
  mkPlayer (id p) (nick p) (avatarSeed p) (isHost p) (isReady p) (isConnected p)
    (socketId p) (sessionId p) a (roundScore p) (totalScore p)
    (hasSubmitted p) (categoryScores p).

Definition set_roundScore (z : Z) (p : Player) : Player :=
  mkPlayer (id p) (nick p) (avatarSeed p) (isHost p) (isReady p) (isConnected p)
    (socketId p) (sessionId p) (answers p) z (totalScore p)
    (hasSubmitted p) (categoryScores p).

Definition set_totalScore (z : Z) (p : Player) : Player :=
  mkPlayer (id p) (nick p) (avatarSeed p) (isHost p) (isReady p) (isConnected p)
    (socketId p) (sessionId p) (answers p) (roundScore p) z
    (hasSubmitted p) (categoryScores p).

Definition set_hasSubmitted (b : bool) (p : Player) : Player :=
  mkPlayer (id p) (nick p) (avatarSeed p) (isHost p) (isReady p) (isConnected p)
    (socketId p) (sessionId p) (answers p) (roundScore p) (totalScore p)
    b (categoryScores p).

Definition set_categoryScores (m : option (gmap string ScoreEntry)) (p : Player)
  : Player :=
  mkPlayer (id p) (nick p) (avatarSeed p) (isHost p) (isReady p) (isConnected p)
    (socketId p) (sessionId p) (answers p) (roundScore p) (totalScore p)
    (hasSubmitted p) m.

Definition set_invalidatedBy (v : option string) (e : ScoreEntry) : ScoreEntry :=
  mkScore (points e) (isValid e) (answer e) v.

Definition set_phase (ph : Phase) (g : GameState) : GameState :=
  mkGameState ph (currentRound g) (currentLetter g) (usedLetters g)
    (activeCategories g) (stoppedBy g) (timerEnabled g) (allAnswersSubmitted g).

Definition set_currentRound (n : Z) (g : GameState) : GameState :=
  mkGameState (phase g) n (currentLetter g) (usedLetters g)
    (activeCategories g) (stoppedBy g) (timerEnabled g) (allAnswersSubmitted g).

Definition set_currentLetter (l : string) (g : GameState) : GameState :=
  mkGameState (phase g) (currentRound g) l (usedLetters g)
    (activeCategories g) (stoppedBy g) (timerEnabled g) (allAnswersSubmitted g).

Definition set_usedLetters (u : gset string) (g : GameState) : GameState :=
  mkGameState (phase g) (currentRound g) (currentLetter g) u
    (activeCategories g) (stoppedBy g) (timerEnabled g) (allAnswersSubmitted g).

Definition set_activeCategories (c : list (string * string)) (g : GameState)
  : GameState :=
  mkGameState (phase g) (currentRound g) (currentLetter g) (usedLetters g)
    c (stoppedBy g) (timerEnabled g) (allAnswersSubmitted g).

Definition set_stoppedBy (v : option string) (g : GameState) : GameState :=
  mkGameState (phase g) (currentRound g) (currentLetter g) (usedLetters g)
    (activeCategories g) v (timerEnabled g) (allAnswersSubmitted g).

Definition set_timerEnabled (b : bool) (g : GameState) : GameState :=
  mkGameState (phase g) (currentRound g) (currentLetter g) (usedLetters g)
    (activeCategories g) (stoppedBy g) b (allAnswersSubmitted g).

Definition set_allAnswersSubmitted (b : bool) (g : GameState) : GameState :=
  mkGameState (phase g) (currentRound g) (currentLetter g) (usedLetters g)
    (activeCategories g) (stoppedBy g) (timerEnabled g) b.

Definition set_hostId (h : string) (r : Room) : Room :=
  mkRoom (code r) h (players r) (settings r) (gameState r).

Definition set_players (ps : list (string * Player)) (r : Room) : Room :=
  mkRoom (code r) (hostId r) ps (settings r) (gameState r).

Definition set_settings (st : Settings) (r : Room) : Room :=
  mkRoom (code r) (hostId r) (players r) st (gameState r).

Definition set_gameState (g : GameState) (r : Room) : Room :=
  mkRoom (code r) (hostId r) (players r) (settings r) g.

(** Mutation of [room.gameState] and of every player of the room. *)
Definition upd_gameState (f : GameState -> GameState) (r : Room) : Room :=
  set_gameState (f (gameState r)) r.

Definition forEachPlayer (f : Player -> Player) (r : Room) : Room :=
  set_players (JsMap.forEach f (players r)) r.

(** ** Constants *)

Definition GEORGIAN_ALPHABET : list string :=
  ["ა"; "ბ"; "გ"; "დ"; "ე"; "ვ"; "ზ"; "თ"; "ი"; "კ"; "ლ"; "მ"; "ნ"; "ო"; "პ";
   "ჟ"; "რ"; "ს"; "ტ"; "უ"; "ფ"; "ქ"; "ღ"; "ყ"; "შ"; "ჩ"; "ც"; "ძ"; "წ"; "ჭ";
   "ხ"; "ჯ"; "ჰ"].

Definition BONUS_CATEGORIES : list string :=
  ["ბრენდი"; "ფერი"; "ნივთი"; "მუსიკა"; "ფილმი"; "საჭმელი"; "სპორტი";
   "პროფესია"].

Definition DEFAULT_CATEGORIES : list string :=
  ["ქალაქი"; "სოფელი"; "სახელი"; "გვარი"; "ცხოველი"; "ფრინველი"; "მცენარე"].

Definition roomCodeChars : string := "ABCDEFGHJKLMNPQRSTUVWXYZ23456789".

(** The property names a plain object inherits from [Object.prototype]:
    for these, [obj[key]] is an inherited function (or the prototype
    itself) when the object has no own property of the name. *)
Definition objectPrototypeKeys : list string :=
  ["constructor"; "__defineGetter__"; "__defineSetter__"; "hasOwnProperty";
   "__lookupGetter__"; "__lookupSetter__"; "isPrototypeOf";
   "propertyIsEnumerable"; "toString"; "valueOf"; "__proto__";
   "toLocaleString"].

(** ** What the server sends *)

(** The projections of [getRoomData] and [getAllAnswers]. *)
Record PlayerView := mkPlayerView {
  pv_id : string;
  pv_nick : string;
  pv_avatarSeed : string;
  pv_isHost : bool;
  pv_isReady : bool;
  pv_isConnected : bool;
  pv_roundScore : Z;
  pv_totalScore : Z
}.

Record PublicState := mkPublicState {
  ps_phase : Phase;
  ps_currentRound : Z;
  ps_currentLetter : string;
  ps_activeCategories : list (string * string);
  ps_stoppedBy : option string;
  ps_timerEnabled : bool
}.

Record RoomData := mkRoomData {
  rd_code : string;
  rd_hostId : string;
  rd_players : list PlayerView;
  rd_settings : Settings;
  rd_gameState : PublicState
}.

Record ResultRow := mkResultRow {
  rr_id : string;
  rr_nick : string;
  rr_avatarSeed : string;
  rr_isHost : bool;
  rr_answers : gmap string string;
  rr_categoryScores : option (gmap string ScoreEntry);
  rr_roundScore : Z;
  rr_totalScore : Z
}.

Record Standing := mkStanding {
  st_rank : Z;
  st_id : string;
  st_nick : string;
  st_avatarSeed : string;
  st_totalScore : Z
}.

Inductive Msg :=
| SessionRestoredFail
| SessionRestored (playerId roomCode : string) (roomData : RoomData)
    (pid pnick pavatar : string) (pIsHost : bool)
| RoomCreated (roomCode playerId : string) (roomData : RoomData)
| RoomJoined (roomCode playerId : string) (roomData : RoomData)
| RoomError (message : string)
| GameError (message : string)
| PlayerJoined (pid pnick pavatar : string)
| RoomUpdate (roomData : RoomData)
| PlayerReadyChanged (playerId : string) (ready : bool)
| SettingsChanged (s : Settings)
| GameStarted (roomData : RoomData)
| PhaseSticks
| SticksDrawing (duration : Z)
| SticksResult (letter : string)
| RoundStart (round maxR : Z) (letter : string)
    (cats : list (string * string)) (minT : Z)
| StopEnabled
| PlayerIsTyping (playerId category : string)
| PlayerSubmitted (playerId : string)
| AllSubmitted
| RoundStopped (by_ : string) (countdown : Z)
| RoundResults (rows : list ResultRow) (cats : list (string * string))
    (letter : string) (round maxR : Z) (isLastRound : bool)
| AnswerToggled (targetPlayerId category : string)
    (scores : gmap string ScoreEntry) (rs ts : Z)
| GameEnded (standings : list Standing)
| GameReset (roomData : RoomData)
| HostChanged (newHostId : string)
| PlayerLeft (playerId pnick : string) (kicked : bool)
| RoomLeft
| PlayerKicked
| PlayerDisconnected (playerId pnick : string)
| PlayerReconnected (playerId pnick : string)
| ChatMessageOut (playerId pnick pavatar message : string) (timestamp : Z).

(** The addressee of an emission: [socket.emit] and [io.to(socketId)]
    reach one connection, [io.to(room)] every member of a socket.io room,
    [socket.to(room)] every member but the sender. The room name is the
    value of the expression at the time of the call, which is [null] when
    a connection's [currentRoomCode] has been cleared. *)
Inductive Target :=
| ToSocket (sid : string)
| ToRoom (room : option string)
| ToRoomExcept (room : option string) (sid : string).

Definition Emit : Type := Target * Msg.

(** ** Server state *)

(** The variables a connection handler closes over. The closure outlives
    the transport: [alive] is cleared on [disconnect], the two variables
    keep their last values for the timers that still read them. *)
Record Conn := mkConn {
  currentPlayerId : option string;
  currentRoomCode : option string;
  alive : bool
}.

Record Session := mkSession {
  s_roomCode : string;
  s_playerId : string
}.

(** A pending [setTimeout] callback. Phase timers hold the room object
    ([room], a heap index); the draw and cooldown callbacks also read the
    arming connection's [currentRoomCode] when they run; the reconnect
    callback holds the player id, the room code and the player object, of
    which it reads the nick. *)
Inductive Callback :=
| DrawAnimationCb (sid : string) (room : nat) (letter : string)
| LetterRevealCb (room : nat)
| MinTimeCb (room : nat)
| StopCountdownCb (room : nat)
| CooldownCb (sid : string) (room : nat)
| ReconnectCb (playerId roomCode pnick : string).

Record Timer := mkTimer {
  due : Z;
  callback : Callback
}.

(** An entry of [disconnectedPlayers]; [playerData] is never read. *)
Record Pending := mkPending {
  p_roomCode : string;
  p_timeout : nat
}.

Record Server := mkServer {
  heap : list Room;
  rooms : list (string * nat);
  playerSessions : gmap string Session;
  disconnectedPlayers : gmap string Pending;
  conns : gmap string Conn;
  timers : gmap nat Timer;
  nextTimer : nat;
  now : Z
}.

Definition initial : Server :=
  mkServer [] [] ∅ ∅ ∅ ∅ 0%nat 0.

Definition set_heap (h : list Room) (s : Server) : Server :=
  mkServer h (rooms s) (playerSessions s) (disconnectedPlayers s) (conns s)
    (timers s) (nextTimer s) (now s).

Definition set_rooms (r : list (string * nat)) (s : Server) : Server :=
  mkServer (heap s) r (playerSessions s) (disconnectedPlayers s) (conns s)
    (timers s) (nextTimer s) (now s).

Definition set_playerSessions (m : gmap string Session) (s : Server) : Server :=
  mkServer (heap s) (rooms s) m (disconnectedPlayers s) (conns s)
    (timers s) (nextTimer s) (now s).

Definition set_disconnectedPlayers (m : gmap string Pending) (s : Server)
  : Server :=
  mkServer (heap s) (rooms s) (playerSessions s) m (conns s)
    (timers s) (nextTimer s) (now s).

Definition set_conns (m : gmap string Conn) (s : Server) : Server :=
  mkServer (heap s) (rooms s) (playerSessions s) (disconnectedPlayers s) m
    (timers s) (nextTimer s) (now s).

Definition set_timers (m : gmap nat Timer) (n : nat) (s : Server) : Server :=
  mkServer (heap s) (rooms s) (playerSessions s) (disconnectedPlayers s)
    (conns s) m n (now s).

Definition set_now (t : Z) (s : Server) : Server :=
  mkServer (heap s) (rooms s) (playerSessions s) (disconnectedPlayers s)
    (conns s) (timers s) (nextTimer s) t.

(** [rooms.get(code)]: the room object and its heap index. *)
Definition getRoom (c : string) (s : Server) : option (nat * Room) :=
  match JsMap.get c (rooms s) with
  | Some ref =>
      match heap s !! ref with
      | Some room => Some (ref, room)
      | None => None
      end
  | None => None
  end.

(** In-place mutation of the room object at [ref]. *)
Definition putRoom (ref : nat) (room : Room) (s : Server) : Server :=
  set_heap (<[ref := room]> (heap s)) s.

(** Mutation of the player object stored under [pid] in [room.players]. *)
Definition updPlayer (pid : string) (f : Player -> Player) (room : Room) : Room :=
  set_players (JsMap.update pid f (players room)) room.

(** The delay Node gives a timer: below 1 ms or above 2^31 - 1 it is 1. *)
Definition timerDelay (d : Z) : Z :=
  if (d <? 1) || (2147483647 <? d) then 1 else d.

(** [setTimeout(cb, d)]: the new handle and the state holding the timer. *)
Definition setTimeout (cb : Callback) (d : Z) (s : Server) : nat * Server :=
  (nextTimer s,
   set_timers (<[nextTimer s := mkTimer (now s + timerDelay d) cb]> (timers s))
     (S (nextTimer s)) s).

Definition clearTimeout (h : nat) (s : Server) : Server :=
  set_timers (delete h (timers s)) (nextTimer s) s.

Definition setConn (sid : string) (c : Conn) (s : Server) : Server :=
  set_conns (<[sid := c]> (conns s)) s.

(** What a handler run gives: the new state and the emissions in order;
    an uncaught exception (the process ends); a run that leaves what the
    model represents; or no run at all (the input cannot occur in the
    state). *)
Inductive Result :=
| Ok (s : Server) (out : list Emit)
| Throws (err : string)
| Outside (why : string)
| Disabled.

(** ** The program *)

(** [String.prototype.toLowerCase] and [String.prototype.toUpperCase], as
    the JavaScript engine running the server provides them. *)
Class Engine := {
  toLowerCase : string -> string;
  toUpperCase : string -> string
}.

Section Model.
Context {engine : Engine}.

(** *** Room registry *)

(** [generateRoomCode]: five characters, the [i]-th chosen by the [i]-th
    call of [Math.random()]. *)
Definition randomChar (r : Q) : string :=
  match randomIndex r (String.length roomCodeChars) with
  | Some k => charAt roomCodeChars k
  | None => ""
  end.

Definition generateRoomCode (rnd : nat -> Q) : string :=
  fold_left (fun code i => code +:+ randomChar (rnd i)) (seq 0 5) "".

(** [generatePlayerId], from the string [uuidv4()] returned. *)
Definition generatePlayerId (uuid : string) : string :=
  "player_" +:+ String.substring 0 8 uuid.

Definition newPlayer (pid pnick avatar : string) (host : bool)
    (sock session : string) : Player :=
  mkPlayer pid pnick avatar host host true (Some sock) session ∅ 0 0 false None.

(** [createRoom]: one code is generated and the room is stored under it. *)
Definition createRoom (rnd : nat -> Q) (hostId_ pnick avatar sock session : string)
    (s : Server) : nat * Room * Server :=
  let roomCode := generateRoomCode rnd in
  let room :=
    mkRoom roomCode hostId_
      (JsMap.set hostId_ (newPlayer hostId_ pnick avatar true sock session) [])
      (mkSettings 15 5 false (Some DEFAULT_CATEGORIES))
      (mkGameState lobby 0 "" ∅ [] None false false) in
  let ref := length (heap s) in
  (ref, room,
   set_rooms (JsMap.set roomCode ref (rooms s))
     (set_heap (heap s ++ [room])%list s)).

Definition playerView (p : Player) : PlayerView :=
  mkPlayerView (id p) (nick p) (avatarSeed p) (isHost p) (isReady p)
    (isConnected p) (roundScore p) (totalScore p).

Definition getRoomData (room : Room) : RoomData :=
  let g := gameState room in
  mkRoomData (code room) (hostId room)
    (map playerView (JsMap.values (players room)))
    (settings room)
    (mkPublicState (phase g) (currentRound g) (currentLetter g)
       (activeCategories g) (stoppedBy g) (timerEnabled g)).

Definition allPlayersReady (room : Room) : bool :=
  forallb (fun p => negb (isConnected p && negb (isReady p)))
    (JsMap.values (players room))
  && (1 <=? JsMap.size (players room))%nat.

(** *** Round engine *)

(** [selectRandomLetter]: the letter, and the game state with [usedLetters]
    cleared when no letter was left. [None] when the index is outside the
    array, which [Math.random()] in [0, 1) never gives. *)
Definition availableLetters (g : GameState) : list string :=
  filter (fun l => l ∉ usedLetters g) GEORGIAN_ALPHABET.

Definition selectRandomLetter (r : Q) (g : GameState)
  : option (string * GameState) :=
  let available := availableLetters g in
  if (length available =? 0)%nat then
    match randomIndex r (length GEORGIAN_ALPHABET) with
    | Some i =>
        match GEORGIAN_ALPHABET !! i with
        | Some l => Some (l, set_usedLetters ∅ g)
        | None => None
        end
    | None => None
    end
  else
    match randomIndex r (length available) with
    | Some i =>
        match available !! i with
        | Some l => Some (l, g)
        | None => None
        end
    | None => None
    end.

(** The state part of the [sticks:draw] handler: select, record as the
    current letter, add to the used set. *)
Definition drawLetter (r : Q) (g : GameState) : option (string * GameState) :=
  match selectRandomLetter r g with
  | Some (letter, g1) =>
      Some (letter,
            set_usedLetters ({[letter]} ∪ usedLetters g1)
              (set_currentLetter letter g1))
  | None => None
  end.

(** [setupCategories]: keys [cat_0], [cat_1], ... in list order, then
    [bonus] when enabled. *)
Definition categoryKeys (l : list string) : list (string * string) :=
  imap (fun i catName => ("cat_" +:+ pretty i, catName)) l.

Definition setupCategories (r : Q) (room : Room)
  : option (list (string * string)) :=
  let categoryList := default DEFAULT_CATEGORIES (categories (settings room)) in
  let cats := categoryKeys categoryList in
  if useBonus (settings room) then
    match randomIndex r (length BONUS_CATEGORIES) with
    | Some i =>
        match BONUS_CATEGORIES !! i with
        | Some randomBonus => Some (cats ++ [("bonus", randomBonus)])%list
        | None => None
        end
    | None => None
    end
  else Some cats.

(** [player.answers[cat] || ''] and its normal form
    [.trim().toLowerCase()]. *)
Definition answerOf (p : Player) (cat : string) : string :=
  default "" (answers p !! cat).

Definition normalized (p : Player) (cat : string) : string :=
  toLowerCase (trim (answerOf p cat)).

(** The inner loop of [calculateScores] for one player and one category.
    [all] is the array [players]; of the other players only [id] and
    [answers] are read, which the pass does not write. *)
Definition duplicatePenalty (all : list Player) (player : Player)
    (cat answer_ : string) (start : Z) : Z :=
  fold_left
    (fun pts otherPlayer =>
       if negb (String.eqb (id otherPlayer) (id player))
       then if String.eqb (normalized otherPlayer cat) answer_ then 10 else pts
       else pts)
    all start.

Definition scoreAnswer (all : list Player) (letter : string) (player : Player)
    (cat : string) : ScoreEntry :=
  let answer_ := normalized player cat in
  if (0 <? String.length answer_)%nat
     && startsWith answer_ (toLowerCase letter)
  then mkScore (duplicatePenalty all player cat answer_ 20) true
         (answerOf player cat) None
  else mkScore 0 false (answerOf player cat) None.

Definition scoreCategories (all : list Player) (letter : string)
    (player : Player) (cats : list string)
  : gmap string ScoreEntry * Z :=
  fold_left
    (fun acc cat =>
       let e := scoreAnswer all letter player cat in
       (<[cat := e]> (fst acc), snd acc + points e))
    cats (∅, 0).

Definition scorePlayer (all : list Player) (letter : string)
    (cats : list string) (player : Player) : Player :=
  let res := scoreCategories all letter player cats in
  set_totalScore (totalScore player + snd res)
    (set_roundScore (snd res)
       (set_categoryScores (Some (fst res)) player)).

Definition calculateScores (room : Room) : Room :=
  let all := JsMap.values (players room) in
  let cats := map fst (activeCategories (gameState room)) in
  forEachPlayer (scorePlayer all (currentLetter (gameState room)) cats) room.

Definition resultRow (p : Player) : ResultRow :=
  mkResultRow (id p) (nick p) (avatarSeed p) (isHost p) (answers p)
    (categoryScores p) (roundScore p) (totalScore p).

Definition getAllAnswers (room : Room) : list ResultRow :=
  map resultRow (JsMap.values (players room)).

(** [Array.prototype.sort] with [(a, b) => b.totalScore - a.totalScore]:
    a stable sort, highest total first. *)
Fixpoint insertByTotal (p : Player) (l : list Player) : list Player :=
  match l with
  | q :: l' =>
      if totalScore q - totalScore p <=? 0 then p :: l
      else q :: insertByTotal p l'
  | [] => [p]
  end.

Definition sortByTotal (l : list Player) : list Player :=
  fold_right insertByTotal [] l.

Definition standingsOf (room : Room) : list Standing :=
  imap (fun idx p =>
          mkStanding (Z.of_nat idx + 1) (id p) (nick p) (avatarSeed p)
            (totalScore p))
    (sortByTotal (JsMap.values (players room))).

(** *** Connection handlers

    Each handler takes the id of the socket it was registered on and the
    closure variables of that connection. Socket.io room membership
    ([socket.join], [socket.leave]) is not part of the state: an emission
    records the addressee expression. *)

(** The guard [if (!currentRoomCode || !currentPlayerId) return]. *)
Definition bound (c : Conn) : option (string * string) :=
  match currentRoomCode c, currentPlayerId c with
  | Some rc, Some pid =>
      if truthy (Some rc) && truthy (Some pid) then Some (rc, pid) else None
  | _, _ => None
  end.

(** The repair scan of [session:restore], in the order of the [rooms] map. *)
Fixpoint scanRooms (h : list Room) (sessionId_ playerId : string)
    (l : list (string * nat)) : option (string * nat * Room * Player) :=
  match l with
  | (roomCode, ref) :: l' =>
      match h !! ref with
      | Some r =>
          match JsMap.get playerId (players r) with
          | Some p =>
              if String.eqb (sessionId p) sessionId_
              then Some (roomCode, ref, r, p)
              else scanRooms h sessionId_ playerId l'
          | None => scanRooms h sessionId_ playerId l'
          end
      | None => scanRooms h sessionId_ playerId l'
      end
  | [] => None
  end.

Definition restoreFound (sid playerId : string) (se : Session) (ref : nat)
    (room : Room) (player : Player) (s1 : Server) : Result :=
  let disconnected := disconnectedPlayers s1 !! playerId in
  let s2 :=
    match disconnected with
    | Some d =>
        set_disconnectedPlayers (delete playerId (disconnectedPlayers s1))
          (clearTimeout (p_timeout d) s1)
    | None => s1
    end in
  let room' := updPlayer playerId (set_connection true (Some sid)) room in
  let s3 :=
    setConn sid (mkConn (Some playerId) (Some (s_roomCode se)) true)
      (putRoom ref room' s2) in
  Ok s3
    ([(ToSocket sid,
       SessionRestored playerId (s_roomCode se) (getRoomData room')
         (id player) (nick player) (avatarSeed player) (isHost player))]
     ++ match disconnected with
        | Some _ => [(ToRoomExcept (Some (s_roomCode se)) sid,
                      PlayerReconnected playerId (nick player))]
        | None => []
        end
     ++ [(ToRoom (Some (s_roomCode se)), RoomUpdate (getRoomData room'))])%list.

Definition onSessionRestore (sid : string) (sessionId_ playerId : string)
    (s : Server) : Result :=
  let session := playerSessions s !! sessionId_ in
  let direct :=
    match session with
    | Some se =>
        match getRoom (s_roomCode se) s with
        | Some (ref, room) =>
            match JsMap.get playerId (players room) with
            | Some p => Some (se, ref, room, p)
            | None => None
            end
        | None => None
        end
    | None => None
    end in
  match direct with
  | Some (se, ref, room, p) => restoreFound sid playerId se ref room p s
  | None =>
      match scanRooms (heap s) sessionId_ playerId (rooms s) with
      | Some (roomCode, ref, r, p) =>
          let se := mkSession roomCode playerId in
          restoreFound sid playerId se ref r p
            (set_playerSessions (<[sessionId_ := se]> (playerSessions s)) s)
      | None =>
          let s1 :=
            match session with
            | Some _ => set_playerSessions (delete sessionId_ (playerSessions s)) s
            | None => s
            end in
          Ok s1 [(ToSocket sid, SessionRestoredFail)]
      end
  end.

Definition onRoomCreate (sid : string) (pnick avatar sessionId_ : string)
    (rnd : nat -> Q) (uuid : string) (s : Server) : Result :=
  let playerId := generatePlayerId uuid in
  let '(ref, room, s1) := createRoom rnd playerId pnick avatar sid sessionId_ s in
  let s2 :=
    set_playerSessions
      (<[sessionId_ := mkSession (code room) playerId]> (playerSessions s1)) s1 in
  Ok (setConn sid (mkConn (Some playerId) (Some (code room)) true) s2)
    [(ToSocket sid, RoomCreated (code room) playerId (getRoomData room))].

Definition onRoomJoin (sid : string) (roomCode pnick avatar sessionId_ : string)
    (uuid : string) (s : Server) : Result :=
  match getRoom (toUpperCase roomCode) s with
  | None => Ok s [(ToSocket sid, RoomError "ოთახი ვერ მოიძებნა")]
  | Some (ref, room) =>
      if negb (bool_decide (phase (gameState room) = lobby))
      then Ok s [(ToSocket sid, RoomError "თამაში უკვე დაწყებულია")]
      else if (8 <=? JsMap.size (players room))%nat
      then Ok s [(ToSocket sid, RoomError "ოთახი სავსეა (მაქს. 8 მოთამაშე)")]
      else
        let playerId := generatePlayerId uuid in
        let room' :=
          set_players
            (JsMap.set playerId
               (newPlayer playerId pnick avatar false sid sessionId_)
               (players room)) room in
        let s1 := putRoom ref room' s in
        let s2 :=
          set_playerSessions
            (<[sessionId_ := mkSession (code room) playerId]> (playerSessions s1))
            s1 in
        Ok (setConn sid
              (mkConn (Some playerId) (Some (toUpperCase roomCode)) true) s2)
          [(ToSocket sid, RoomJoined (code room) playerId (getRoomData room'));
           (ToRoomExcept (Some (code room)) sid,
            PlayerJoined playerId pnick avatar);
           (ToRoom (Some (code room)), RoomUpdate (getRoomData room'))]
  end.

Definition onPlayerReady (sid : string) (c : Conn) (ready : bool) (s : Server)
  : Result :=
  match bound c with
  | None => Ok s []
  | Some (rc, pid) =>
      match getRoom rc s with
      | None => Ok s []
      | Some (ref, room) =>
          match JsMap.get pid (players room) with
          | None => Ok s []
          | Some _ =>
              let room' := updPlayer pid (set_isReady ready) room in
              Ok (putRoom ref room' s)
                [(ToRoom (Some rc), RoomUpdate (getRoomData room'));
                 (ToRoom (Some rc), PlayerReadyChanged pid ready)]
          end
      end
  end.

(** The body of [settings:update]: the fields the client sent. *)
Record SettingsPatch := mkPatch {
  patch_minTime : option Z;
  patch_maxRounds : option Z;
  patch_useBonus : option bool;
  patch_categories : option (option (list string))
}.

Definition mergeSettings (old : Settings) (p : SettingsPatch) : Settings :=
  mkSettings (default (minTime old) (patch_minTime p))
    (default (maxRounds old) (patch_maxRounds p))
    (default (useBonus old) (patch_useBonus p))
    (default (categories old) (patch_categories p)).

Definition onSettingsUpdate (sid : string) (c : Conn) (p : SettingsPatch)
    (s : Server) : Result :=
  match bound c with
  | None => Ok s []
  | Some (rc, pid) =>
      match getRoom rc s with
      | None => Ok s []
      | Some (ref, room) =>
          if negb (String.eqb (hostId room) pid) then Ok s []
          else
            let room' := set_settings (mergeSettings (settings room) p) room in
            Ok (putRoom ref room' s)
              [(ToRoom (Some rc), RoomUpdate (getRoomData room'));
               (ToRoom (Some rc), SettingsChanged (settings room'))]
      end
  end.

(** The reset of every player on [game:start]. *)
Definition resetScores (p : Player) : Player :=
  set_answers ∅ (set_roundScore 0 (set_totalScore 0 p)).

Definition onGameStart (sid : string) (c : Conn) (s : Server) : Result :=
  match bound c with
  | None => Ok s []
  | Some (rc, pid) =>
      match getRoom rc s with
      | None => Ok s []
      | Some (ref, room) =>
          if negb (String.eqb (hostId room) pid) then Ok s []
          else if negb (allPlayersReady room)
          then Ok s [(ToSocket sid, GameError "ყველა მოთამაშე მზად არ არის")]
          else
            let room' :=
              forEachPlayer resetScores
                (upd_gameState
                   (fun g =>
                      set_usedLetters ∅ (set_currentRound 0 (set_phase sticks g)))
                   room) in
            Ok (putRoom ref room' s)
              [(ToRoom (Some rc), GameStarted (getRoomData room'));
               (ToRoom (Some rc), PhaseSticks)]
      end
  end.

(** [sticks:draw]. [None] from [drawLetter] is an index outside the array:
    no run of the program. *)
Definition onSticksDraw (sid : string) (c : Conn) (r : Q) (s : Server) : Result :=
  match bound c with
  | None => Ok s []
  | Some (rc, pid) =>
      match getRoom rc s with
      | None => Ok s []
      | Some (ref, room) =>
          if negb (String.eqb (hostId room) pid) then Ok s []
          else
            match drawLetter r (gameState room) with
            | None => Disabled
            | Some (letter, g') =>
                let s1 := putRoom ref (set_gameState g' room) s in
                let '(_, s2) := setTimeout (DrawAnimationCb sid ref letter) 2000 s1 in
                Ok s2 [(ToRoom (Some rc), SticksDrawing 2000)]
            end
      end
  end.

Definition onPlayerTyping (sid : string) (c : Conn) (category : string)
    (s : Server) : Result :=
  match bound c with
  | None => Ok s []
  | Some (rc, pid) =>
      Ok s [(ToRoomExcept (Some rc) sid, PlayerIsTyping pid category)]
  end.

Definition allSubmitted (room : Room) : bool :=
  forallb (fun p => negb (isConnected p && negb (hasSubmitted p)))
    (JsMap.values (players room)).

Definition onAnswersSubmit (sid : string) (c : Conn)
    (answers_ : gmap string string) (s : Server) : Result :=
  match bound c with
  | None => Ok s []
  | Some (rc, pid) =>
      match getRoom rc s with
      | None => Ok s []
      | Some (ref, room) =>
          match JsMap.get pid (players room) with
          | None => Ok s []
          | Some _ =>
              let room1 :=
                updPlayer pid
                  (fun p => set_hasSubmitted true (set_answers answers_ p)) room in
              if allSubmitted room1 then
                Ok (putRoom ref
                      (upd_gameState (set_allAnswersSubmitted true) room1) s)
                  [(ToRoom (Some rc), PlayerSubmitted pid);
                   (ToRoom (Some rc), AllSubmitted)]
              else
                Ok (putRoom ref room1 s)
                  [(ToRoom (Some rc), PlayerSubmitted pid)]
          end
      end
  end.

(** [round:stop]. The player is looked up without a check: when the
    connection's player is no longer in the room, reading [player.nick]
    throws. *)
Definition onRoundStop (sid : string) (c : Conn) (s : Server) : Result :=
  match bound c with
  | None => Ok s []
  | Some (rc, pid) =>
      match getRoom rc s with
      | None => Ok s []
      | Some (ref, room) =>
          if negb (bool_decide (phase (gameState room) = playing)) then Ok s []
          else if negb (timerEnabled (gameState room))
          then Ok s [(ToSocket sid, GameError "დაელოდეთ ტაიმერს")]
          else
            match JsMap.get pid (players room) with
            | None => Throws "TypeError: Cannot read properties of undefined"
            | Some player =>
                let room' :=
                  upd_gameState
                    (fun g => set_stoppedBy (Some (nick player))
                                (set_phase stopped g)) room in
                let s1 := putRoom ref room' s in
                let '(_, s2) := setTimeout (StopCountdownCb ref) 5000 s1 in
                Ok s2 [(ToRoom (Some rc), RoundStopped (nick player) 5)]
            end
      end
  end.

(** [startRound], run by the letter-reveal timer. *)
Definition resetRound (p : Player) : Player :=
  set_roundScore 0 (set_hasSubmitted false (set_answers ∅ p)).

Definition startRound (r : Q) (ref : nat) (room : Room) (s : Server) : Result :=
  let room1 :=
    forEachPlayer resetRound
      (upd_gameState
         (fun g =>
            set_allAnswersSubmitted false
              (set_stoppedBy None
                 (set_timerEnabled false
                    (set_phase playing
                       (set_currentRound (currentRound g + 1) g)))))
         room) in
  match setupCategories r room1 with
  | None => Disabled
  | Some cats =>
      let room2 := upd_gameState (set_activeCategories cats) room1 in
      let s1 := putRoom ref room2 s in
      let '(_, s2) :=
        setTimeout (MinTimeCb ref) (minTime (settings room2) * 1000) s1 in
      Ok s2
        [(ToRoom (Some (code room2)),
          RoundStart (currentRound (gameState room2)) (maxRounds (settings room2))
            (currentLetter (gameState room2)) cats (minTime (settings room2)))]
  end.

(** [endRound], run by the stop countdown. *)
Definition endRound (ref : nat) (room : Room) (s : Server) : Result :=
  let room' := calculateScores (upd_gameState (set_phase results) room) in
  let g := gameState room' in
  Ok (putRoom ref room' s)
    [(ToRoom (Some (code room')),
      RoundResults (getAllAnswers room') (activeCategories g) (currentLetter g)
        (currentRound g) (maxRounds (settings room'))
        (maxRounds (settings room') <=? currentRound g))].

(** The toggle of [answer:invalidate] on the target player, for the entry
    [score] recorded under [category]. (For a [category] that names a
    property of [Object.prototype] the source finds an inherited value
    instead of an entry, subtracts its undefined [points] and leaves NaN
    in both scores; scores are integers here and that run is [Outside].) *)
Definition toggleEntry (by_ : string) (category : string) (score : ScoreEntry)
    (scores : gmap string ScoreEntry) (target : Player) : Player :=
  if truthy (invalidatedBy score) then
    set_totalScore (totalScore target + points score)
      (set_roundScore (roundScore target + points score)
         (set_categoryScores
            (Some (<[category := set_invalidatedBy None score]> scores)) target))
  else
    set_totalScore (totalScore target - points score)
      (set_roundScore (roundScore target - points score)
         (set_categoryScores
            (Some (<[category := set_invalidatedBy (Some by_) score]> scores))
            target)).

Definition onAnswerInvalidate (sid : string) (c : Conn)
    (targetPlayerId category : string) (s : Server) : Result :=
  match bound c with
  | None => Ok s []
  | Some (rc, pid) =>
      match getRoom rc s with
      | None => Ok s []
      | Some (ref, room) =>
          match JsMap.get targetPlayerId (players room) with
          | None => Ok s []
          | Some targetPlayer =>
              match categoryScores targetPlayer with
              | None => Ok s []
              | Some scores =>
                  match scores !! category with
                  | None =>
                      if bool_decide (category ∈ objectPrototypeKeys)
                      then Outside "the looked-up value is inherited from Object.prototype: the scores become NaN"
                      else Ok s []
                  | Some score =>
                      let target' :=
                        toggleEntry pid category score scores targetPlayer in
                      let room' :=
                        updPlayer targetPlayerId (fun _ => target') room in
                      Ok (putRoom ref room' s)
                        [(ToRoom (Some rc),
                          AnswerToggled targetPlayerId category
                            (default ∅ (categoryScores target'))
                            (roundScore target') (totalScore target'))]
                  end
              end
          end
      end
  end.

(** The reset shared by [game:returnToLobby] and the end-game cooldown. *)
Definition resetToLobby (room : Room) : Room :=
  forEachPlayer
    (fun p =>
       set_answers ∅
         (set_roundScore 0 (set_totalScore 0 (set_isReady (isHost p) p))))
    (upd_gameState
       (fun g => set_usedLetters ∅ (set_currentRound 0 (set_phase lobby g)))
       room).

Definition onGameNextRound (sid : string) (c : Conn) (s : Server) : Result :=
  match bound c with
  | None => Ok s []
  | Some (rc, pid) =>
      match getRoom rc s with
      | None => Ok s []
      | Some (ref, room) =>
          if negb (String.eqb (hostId room) pid) then Ok s []
          else if maxRounds (settings room) <=? currentRound (gameState room)
          then
            let room' := upd_gameState (set_phase ended) room in
            let s1 := putRoom ref room' s in
            let '(_, s2) := setTimeout (CooldownCb sid ref) 10000 s1 in
            Ok s2 [(ToRoom (Some rc), GameEnded (standingsOf room'))]
          else
            Ok (putRoom ref (upd_gameState (set_phase sticks) room) s)
              [(ToRoom (Some rc), PhaseSticks)]
      end
  end.

Definition onGameReturnToLobby (sid : string) (c : Conn) (s : Server) : Result :=
  match bound c with
  | None => Ok s []
  | Some (rc, pid) =>
      match getRoom rc s with
      | None => Ok s []
      | Some (ref, room) =>
          if negb (String.eqb (hostId room) pid) then Ok s []
          else
            let room' := resetToLobby room in
            Ok (putRoom ref room' s)
              [(ToRoom (Some rc), GameReset (getRoomData room'))]
      end
  end.

(** Host succession after a removal: the first player in map order. *)
Definition promoteFirst (removed : string) (room : Room)
  : Room * list Msg :=
  if String.eqb (hostId room) removed then
    match players room with
    | (k, newHost) :: rest =>
        (set_hostId (id newHost)
           (set_players ((k, set_isHost true newHost) :: rest) room),
         [HostChanged (id newHost)])
    | [] => (room, [])
    end
  else (room, []).

Definition onRoomLeave (sid : string) (c : Conn) (s : Server) : Result :=
  match bound c with
  | None => Ok s []
  | Some (rc, pid) =>
      match getRoom rc s with
      | None => Ok s []
      | Some (ref, room) =>
          let player := JsMap.get pid (players room) in
          let playerNick :=
            match player with Some p => nick p | None => "Unknown" end in
          let s1 :=
            match player with
            | Some p =>
                if truthy (Some (sessionId p))
                then set_playerSessions
                       (delete (sessionId p) (playerSessions s)) s
                else s
            | None => s
            end in
          let room1 := set_players (JsMap.delete pid (players room)) room in
          let '(room2, hostMsgs) := promoteFirst pid room1 in
          let s2 := putRoom ref room2 s1 in
          let s3 :=
            if (JsMap.size (players room2) =? 0)%nat
            then set_rooms (JsMap.delete rc (rooms s2)) s2
            else s2 in
          Ok (setConn sid (mkConn None None true) s3)
            (map (fun m => (ToRoom (Some rc), m)) hostMsgs
             ++ (if (JsMap.size (players room2) =? 0)%nat then []
                 else [(ToRoom (Some rc), RoomUpdate (getRoomData room2));
                       (ToRoom (Some rc), PlayerLeft pid playerNick false)])
             ++ [(ToSocket sid, RoomLeft)])%list
      end
  end.

Definition onPlayerKick (sid : string) (c : Conn) (targetPlayerId : string)
    (s : Server) : Result :=
  match bound c with
  | None => Ok s []
  | Some (rc, pid) =>
      match getRoom rc s with
      | None => Ok s []
      | Some (ref, room) =>
          if negb (String.eqb (hostId room) pid) then Ok s []
          else if String.eqb targetPlayerId pid then Ok s []
          else
            match JsMap.get targetPlayerId (players room) with
            | None => Ok s []
            | Some targetPlayer =>
                let s1 :=
                  if truthy (Some (sessionId targetPlayer))
                  then set_playerSessions
                         (delete (sessionId targetPlayer) (playerSessions s)) s
                  else s in
                let room' :=
                  set_players (JsMap.delete targetPlayerId (players room)) room in
                Ok (putRoom ref room' s1)
                  ((if truthy (socketId targetPlayer)
                    then match socketId targetPlayer with
                         | Some t => [(ToSocket t, PlayerKicked)]
                         | None => []
                         end
                    else [])
                   ++ [(ToRoom (Some rc), RoomUpdate (getRoomData room'));
                       (ToRoom (Some rc),
                        PlayerLeft targetPlayerId (nick targetPlayer) true)])%list
            end
      end
  end.

(** The relay of [chat:message]. The cap [substring(0, 200)] counts bytes
    of the encoding here and UTF-16 code units in the source. *)
Definition onChatMessage (sid : string) (c : Conn) (message : string)
    (s : Server) : Result :=
  match bound c with
  | None => Ok s []
  | Some (rc, pid) =>
      match getRoom rc s with
      | None => Ok s []
      | Some (ref, room) =>
          match JsMap.get pid (players room) with
          | None => Ok s []
          | Some player =>
              Ok s [(ToRoom (Some rc),
                     ChatMessageOut pid (nick player) (avatarSeed player)
                       (String.substring 0 200 message) (now s))]
          end
      end
  end.

(** *** Disconnection and the reconnect window *)

Definition handlePlayerDisconnect (sid playerId roomCode : string) (s : Server)
  : Server * list Emit :=
  match getRoom roomCode s with
  | None => (s, [])
  | Some (ref, room) =>
      match JsMap.get playerId (players room) with
      | None => (s, [])
      | Some player =>
          if negb (bool_decide (socketId player = Some sid)) then (s, [])
          else
            let room' := updPlayer playerId (set_connection false None) room in
            let s1 := putRoom ref room' s in
            let s2 :=
              match disconnectedPlayers s1 !! playerId with
              | Some existingDisconnect =>
                  clearTimeout (p_timeout existingDisconnect) s1
              | None => s1
              end in
            let '(timeout, s3) :=
              setTimeout (ReconnectCb playerId roomCode (nick player)) 120000 s2 in
            (set_disconnectedPlayers
               (<[playerId := mkPending roomCode timeout]> (disconnectedPlayers s3))
               s3,
             [(ToRoom (Some roomCode), PlayerDisconnected playerId (nick player));
              (ToRoom (Some roomCode), RoomUpdate (getRoomData room'))])
      end
  end.

Definition onDisconnect (sid : string) (c : Conn) (s : Server) : Result :=
  let '(s1, out) :=
    match bound c with
    | Some (rc, pid) => handlePlayerDisconnect sid pid rc s
    | None => (s, [])
    end in
  Ok (setConn sid (mkConn (currentPlayerId c) (currentRoomCode c) false) s1) out.

(** The callback armed by [handlePlayerDisconnect]. *)
Definition reconnectExpired (playerId roomCode pnick : string) (s : Server)
  : Result :=
  match getRoom roomCode s with
  | None => Ok s []
  | Some (ref, currentRoom) =>
      match JsMap.get playerId (players currentRoom) with
      | None => Ok s []
      | Some currentPlayer =>
          if isConnected currentPlayer then Ok s []
          else
            let room1 :=
              set_players (JsMap.delete playerId (players currentRoom))
                currentRoom in
            let s1 :=
              set_disconnectedPlayers (delete playerId (disconnectedPlayers s)) s in
            let s2 :=
              if truthy (Some (sessionId currentPlayer))
              then set_playerSessions
                     (delete (sessionId currentPlayer) (playerSessions s1)) s1
              else s1 in
            let '(room2, hostMsgs) := promoteFirst playerId room1 in
            let s3 := putRoom ref room2 s2 in
            if (JsMap.size (players room2) =? 0)%nat
            then Ok (set_rooms (JsMap.delete roomCode (rooms s3)) s3)
                   (map (fun m => (ToRoom (Some roomCode), m)) hostMsgs)
            else Ok s3
                   (map (fun m => (ToRoom (Some roomCode), m)) hostMsgs
                    ++ [(ToRoom (Some roomCode), RoomUpdate (getRoomData room2));
                        (ToRoom (Some roomCode),
                         PlayerLeft playerId pnick false)])%list
      end
  end.

(** *** Timer callbacks *)

(** The room name [currentRoomCode] evaluates to in the closure of [sid]. *)
Definition roomCodeOf (sid : string) (s : Server) : option string :=
  match conns s !! sid with
  | Some c => currentRoomCode c
  | None => None
  end.

Definition runCallback (cb : Callback) (r : Q) (s : Server) : Result :=
  match cb with
  | DrawAnimationCb sid ref letter =>
      let '(_, s1) := setTimeout (LetterRevealCb ref) 1500 s in
      Ok s1 [(ToRoom (roomCodeOf sid s), SticksResult letter)]
  | LetterRevealCb ref =>
      match heap s !! ref with
      | Some room => startRound r ref room s
      | None => Ok s []
      end
  | MinTimeCb ref =>
      match heap s !! ref with
      | Some room =>
          Ok (putRoom ref (upd_gameState (set_timerEnabled true) room) s)
            [(ToRoom (Some (code room)), StopEnabled)]
      | None => Ok s []
      end
  | StopCountdownCb ref =>
      match heap s !! ref with
      | Some room => endRound ref room s
      | None => Ok s []
      end
  | CooldownCb sid ref =>
      match heap s !! ref with
      | Some room =>
          let room' := resetToLobby room in
          Ok (putRoom ref room' s)
            [(ToRoom (roomCodeOf sid s), GameReset (getRoomData room'))]
      | None => Ok s []
      end
  | ReconnectCb playerId roomCode pnick =>
      reconnectExpired playerId roomCode pnick s
  end.

(** *** Inputs and the transition function

    An event carries its payload with the types the client sends: strings,
    booleans, integers, and for [answers:submit] an object from category
    keys to strings. *)

Inductive Event :=
| SessionRestore (sessionId_ playerId : string)
| RoomCreate (pnick avatar sessionId_ : string) (rnd : nat -> Q) (uuid : string)
| RoomJoin (roomCode pnick avatar sessionId_ : string) (uuid : string)
| PlayerReady (ready : bool)
| SettingsUpdate (patch : SettingsPatch)
| GameStart
| SticksDraw (r : Q)
| PlayerTyping (category : string)
| AnswersSubmit (answers_ : gmap string string)
| RoundStop
| AnswerInvalidate (targetPlayerId category : string)
| GameNextRound
| GameReturnToLobby
| RoomLeave
| PlayerKick (targetPlayerId : string)
| ChatMessage (message : string)
| Disconnect.

Definition handle (sid : string) (c : Conn) (e : Event) (s : Server) : Result :=
  match e with
  | SessionRestore sessionId_ playerId => onSessionRestore sid sessionId_ playerId s
  | RoomCreate pnick avatar sessionId_ rnd uuid =>
      if forallb (fun i => isRandom (rnd i)) (seq 0 5)
      then onRoomCreate sid pnick avatar sessionId_ rnd uuid s
      else Disabled
  | RoomJoin roomCode pnick avatar sessionId_ uuid =>
      onRoomJoin sid roomCode pnick avatar sessionId_ uuid s
  | PlayerReady ready => onPlayerReady sid c ready s
  | SettingsUpdate patch => onSettingsUpdate sid c patch s
  | GameStart => onGameStart sid c s
  | SticksDraw r => if isRandom r then onSticksDraw sid c r s else Disabled
  | PlayerTyping category => onPlayerTyping sid c category s
  | AnswersSubmit answers_ => onAnswersSubmit sid c answers_ s
  | RoundStop => onRoundStop sid c s
  | AnswerInvalidate targetPlayerId category =>
      onAnswerInvalidate sid c targetPlayerId category s
  | GameNextRound => onGameNextRound sid c s
  | GameReturnToLobby => onGameReturnToLobby sid c s
  | RoomLeave => onRoomLeave sid c s
  | PlayerKick targetPlayerId => onPlayerKick sid c targetPlayerId s
  | ChatMessage message => onChatMessage sid c message s
  | Disconnect => onDisconnect sid c s
  end.

(** A step of the event loop: a new connection or an event of a live
    connection arriving at time [t], or the timer with handle [h] running
    ([r] is what [Math.random()] returns if the callback calls it).
    Inputs arrive in time order and a timer runs no earlier than the
    timers due before it. *)
Inductive Label :=
| Connect (t : Z) (sid : string)
| Recv (t : Z) (sid : string) (e : Event)
| Fire (h : nat) (r : Q).

Definition timely (t : Z) (s : Server) : bool :=
  (now s <=? t)
  && bool_decide (map_Forall (fun _ tm => t <= due tm) (timers s)).

Definition step (s : Server) (l : Label) : Result :=
  match l with
  | Connect t sid =>
      if timely t s then
        match conns s !! sid with
        | None => Ok (setConn sid (mkConn None None true) (set_now t s)) []
        | Some _ => Disabled
        end
      else Disabled
  | Recv t sid e =>
      if timely t s then
        match conns s !! sid with
        | Some c => if alive c then handle sid c e (set_now t s) else Disabled
        | None => Disabled
        end
      else Disabled
  | Fire h r =>
      match timers s !! h with
      | Some tm =>
          if timely (due tm) s && isRandom r
          then runCallback (callback tm) r (set_now (due tm) (clearTimeout h s))
          else Disabled
      | None => Disabled
      end
  end.

(** A run from a state: the final state and all emissions, when every
    step is a step of the program that returns. *)
Fixpoint run (s : Server) (ls : list Label) : option (Server * list Emit) :=
  match ls with
  | [] => Some (s, [])
  | l :: ls' =>
      match step s l with
      | Ok s' out =>
          match run s' ls' with
          | Some (s'', out') => Some (s'', (out ++ out')%list)
          | None => None
          end
      | _ => None
      end
  end.

Inductive reachable : Server -> Prop :=
| reachable_initial : reachable initial
| reachable_step s l s' out :
    reachable s -> step s l = Ok s' out -> reachable s'.

End Model.

(** ** A concrete engine for closed examples

    [toLowerCase] and [toUpperCase] restricted to the ASCII letters; every
    other byte is kept. On strings made of ASCII characters and Georgian
    Mkhedruli letters (which have no lower-case mapping of their own) the
    two agree with the engine's functions. *)

Definition lowerByte (a : ascii) : ascii :=
  if ((65 <=? byte a) && (byte a <=? 90))%nat
  then ascii_of_nat (byte a + 32) else a.

Definition upperByte (a : ascii) : ascii :=
  if ((97 <=? byte a) && (byte a <=? 122))%nat
  then ascii_of_nat (byte a - 32) else a.

Definition lowerBasic (s : string) : string :=
  string_of_list_ascii (map lowerByte (list_ascii_of_string s)).

Definition upperBasic (s : string) : string :=
  string_of_list_ascii (map upperByte (list_ascii_of_string s)).

Definition basicEngine : Engine :=
  {| toLowerCase := lowerBasic; toUpperCase := upperBasic |}.

(** The phase and the current letter of the room registered under a code,
    and the projections of a player of that room. *)
Definition roomAt (c : string) (s : Server) : option Room :=
  match getRoom c s with
  | Some (_, room) => Some room
  | None => None
  end.

Definition phaseAt (c : string) (s : Server) : option Phase :=
  match roomAt c s with
  | Some room => Some (phase (gameState room))
  | None => None
  end.

Definition playerAt (c pid : string) (s : Server) : option Player :=
  match roomAt c s with
  | Some room => JsMap.get pid (players room)
  | None => None
  end.

(** The state a run of the concrete engine ends in. *)
Definition after (ls : list Label) : option Server :=
  match run (engine := basicEngine) initial ls with
  | Some (s, _) => Some s
  | None => None
  end.

(** [Math.random()] returning 0 at every call. *)
Definition zeros : nat -> Q := fun _ => 0%Q.

(** Sum of a list of integers. *)
Definition Zsum (l : list Z) : Z := foldr Z.add 0 l.

(** ** Vocabulary of the properties *)

Section Vocabulary.
Context {engine : Engine}.

(** Another player of the room holds the same normalized answer. *)
Definition duplicated (all : list Player) (P : Player) (c : string) : Prop :=
  exists Q, Q ∈ all /\ id Q <> id P /\ normalized Q c = normalized P c.

(** The normalized answer is non-empty and starts with the lowercased
    letter. *)
Definition accepted (letter : string) (P : Player) (c : string) : Prop :=
  normalized P c <> "" /\ startsWith (normalized P c) (toLowerCase letter) = true.

End Vocabulary.

(** Scenario S2: three players answer [cat_0] with the same word for the
    letter [ბ]. *)
Definition bakuPlayer (pid : string) : Player :=
  mkPlayer pid pid "seed" false true true (Some pid) pid
    {[ "cat_0" := " ბაქო" ]} 0 5 true None.

Definition bakuRoom : Room :=
  mkRoom "AAAAA" "p1"
    [("p1", bakuPlayer "p1"); ("p2", bakuPlayer "p2"); ("p3", bakuPlayer "p3")]
    (mkSettings 0 1 false (Some ["ქალაქი"]))
    (mkGameState results 1 "ბ" {["ბ"]} [("cat_0", "ქალაქი")] (Some "p1") true true).

(** ** Sample runs of the concrete engine *)

(** Scenario S1: two players, one round, one category, no minimum time;
    the letter drawn is [ა]. The run ends in the results phase. *)
Definition quickSettings : SettingsPatch :=
  mkPatch (Some 0) (Some 1) None (Some (Some ["ქალაქი"])).

Definition toPlaying : list Label :=
  [Connect 0 "s1";
   Recv 1 "s1" (RoomCreate "Ana" "seed1" "tok1" zeros "11112222-aaaa");
   Connect 2 "s2";
   Recv 3 "s2" (RoomJoin "aaaaa" "Beka" "seed2" "tok2" "33334444-bbbb");
   Recv 4 "s2" (PlayerReady true);
   Recv 5 "s1" (SettingsUpdate quickSettings);
   Recv 6 "s1" GameStart;
   Recv 7 "s1" (SticksDraw 0);
   Fire 0 0;
   Fire 1 0].

Definition toResults : list Label :=
  (toPlaying ++
   [Fire 2 0;
    Recv 4000 "s1" (AnswersSubmit {[ "cat_0" := "ამერიკა" ]});
    Recv 4100 "s2" (AnswersSubmit {[ "cat_0" := "ამსტერდამი" ]});
    Recv 5000 "s1" RoundStop;
    Fire 3 0])%list.

(** The state a run ends in ([initial] when the run is not one of the
    program). *)
Definition stateAfter (ls : list Label) : Server := default initial (after ls).

(** The closure variables of a connection. *)
Definition connOf (sid : string) (s : Server) : Conn :=
  default (mkConn None None false) (conns s !! sid).

Definition ana : string := "player_11112222".
Definition beka : string := "player_33334444".


(** The alphabet as a set. *)
Definition alphabetSet : gset string := list_to_set GEORGIAN_ALPHABET.

(** The conditions a game event is subject to in its handler. Events that
    are not listed always run ([true]). *)
Definition hostRoom (c : Conn) (s : Server) : option Room :=
  match bound c with
  | Some (rc, pid) =>
      match getRoom rc s with
      | Some (_, room) =>
          if String.eqb (hostId room) pid then Some room else None
      | None => None
      end
  | None => None
  end.




(** *** Further runs *)

(** S1 played to the end: the host ends the game after the last round,
    which arms the 10 s cooldown (timer 4, due at 21000). *)
Definition toEnded : list Label :=
  (toResults ++ [Recv 11000 "s1" GameNextRound])%list.

(** The host returns to the lobby by hand, Beka gets ready again. *)
Definition backInLobby : list Label :=
  (toEnded ++
   [Recv 12000 "s1" GameReturnToLobby;
    Recv 12500 "s2" (PlayerReady true)])%list.

(** A new game is started and its first round is running when the
    cooldown of the previous game becomes due. *)
Definition secondGame : list Label :=
  (backInLobby ++
   [Recv 13000 "s1" GameStart;
    Recv 13100 "s1" (SticksDraw 0);
    Fire 5 0;
    Fire 6 0;
    Fire 7 0;
    Recv 17000 "s1" (AnswersSubmit {[ "cat_0" := "ანანასი" ]})])%list.

(** A round with the default minimum time of 15 s is abandoned by the
    host and a new round is started; the first round's min-time timer
    (timer 2, due at 18503) is still pending. *)
Definition abandonedRound : list Label :=
  [Connect 0 "s1";
   Recv 1 "s1" (RoomCreate "Ana" "seed1" "tok1" zeros "11112222-aaaa");
   Recv 2 "s1" GameStart;
   Recv 3 "s1" (SticksDraw 0);
   Fire 0 0;
   Fire 1 0;
   Recv 4000 "s1" GameReturnToLobby;
   Recv 4100 "s1" GameStart;
   Recv 4200 "s1" (SticksDraw 0);
   Fire 3 0;
   Fire 4 0].

(** Two rooms created with the same values of [Math.random()]. *)
Definition collision : list Label :=
  [Connect 0 "s1";
   Recv 1 "s1" (RoomCreate "Ana" "seed1" "tok1" zeros "11112222-aaaa");
   Connect 2 "s2";
   Recv 3 "s2" (RoomCreate "Beka" "seed2" "tok2" zeros "33334444-bbbb")].

(** Beka joins Ana's room and loses the connection. *)
Definition bekaDisconnected : list Label :=
  [Connect 0 "s1";
   Recv 1 "s1" (RoomCreate "Ana" "seed1" "tok1" zeros "11112222-aaaa");
   Connect 2 "s2";
   Recv 3 "s2" (RoomJoin "aaaaa" "Beka" "seed2" "tok2" "33334444-bbbb");
   Recv 10 "s2" Disconnect].

(** Beka's session is restored on a second socket while the first is
    still open; the second socket then drops. *)
Definition bekaTwoSockets : list Label :=
  [Connect 0 "s1";
   Recv 1 "s1" (RoomCreate "Ana" "seed1" "tok1" zeros "11112222-aaaa");
   Connect 2 "s2";
   Recv 3 "s2" (RoomJoin "aaaaa" "Beka" "seed2" "tok2" "33334444-bbbb");
   Connect 4 "s3";
   Recv 5 "s3" (SessionRestore "tok2" beka);
   Recv 10 "s3" Disconnect].

Definition timerEnabledAt (c : string) (s : Server) : option bool :=
  match roomAt c s with
  | Some room => Some (timerEnabled (gameState room))
  | None => None
  end.

Definition letterAt (c : string) (s : Server) : option string :=
  match roomAt c s with
  | Some room => Some (currentLetter (gameState room))
  | None => None
  end.

(** The phases in which a round is being played or reviewed. *)
Definition inPlay (ph : Phase) : bool :=
  match ph with
  | playing | stopped | results => true
  | lobby | sticks | ended => false
  end.

Definition letterSet (room : Room) : Prop :=
  currentLetter (gameState room) <> "".

(** The room whose round a pending callback is about to start or end. *)
Definition roundCallbackRoom (cb : Callback) : option nat :=
  match cb with
  | DrawAnimationCb _ ref _ | LetterRevealCb ref | StopCountdownCb ref => Some ref
  | MinTimeCb _ | CooldownCb _ _ | ReconnectCb _ _ _ => None
  end.

(** The invariant behind the current letter: a room object in play has
    its letter, and so has every room for which a draw animation, a
    letter reveal or a stop countdown is pending. *)
Definition letterInvOn (h : list Room) (t : gmap nat Timer) : Prop :=
  (forall ref room, h !! ref = Some room ->
     inPlay (phase (gameState room)) = true -> letterSet room) /\
  (forall k tm ref, t !! k = Some tm ->
     roundCallbackRoom (callback tm) = Some ref ->
     exists room, h !! ref = Some room /\ letterSet room).

Definition letterInv (s : Server) : Prop := letterInvOn (heap s) (timers s).

(** The player a pending reconnect callback is for. *)
Definition reconnectPlayer (cb : Callback) : option string :=
  match cb with
  | ReconnectCb playerId _ _ => Some playerId
  | _ => None
  end.

(** The bookkeeping of the reconnect window: timer handles are below the
    next handle, and a pending reconnect timer is the one recorded in the
    [disconnectedPlayers] entry of its player. *)
Definition pendingInvOn (t : gmap nat Timer) (n : nat)
    (d : gmap string Pending) : Prop :=
  (forall h tm, t !! h = Some tm -> (h < n)%nat) /\
  (forall h tm pid, t !! h = Some tm ->
     reconnectPlayer (callback tm) = Some pid ->
     exists e, d !! pid = Some e /\ p_timeout e = h).

Definition pendingInv (s : Server) : Prop :=
  pendingInvOn (timers s) (nextTimer s) (disconnectedPlayers s).


(** ** The public room listing

    The handler of [GET /api/rooms]: one entry for every registered room
    that is in the lobby and has fewer than 8 players, in the order of the
    [rooms] map. The host is the first player flagged [isHost]. *)
Record PublicRoom := mkPublicRoom {
  pr_code : string;
  pr_hostName : string;
  pr_hostAvatar : string;
  pr_playerCount : nat;
  pr_maxPlayers : nat;
  pr_rounds : Z;
  pr_hasBonus : bool
}.

Definition isListed (room : Room) : bool :=
  bool_decide (phase (gameState room) = lobby)
  && (JsMap.size (players room) <? 8)%nat.

Definition publicRoom (room : Room) : PublicRoom :=
  let host := find isHost (JsMap.values (players room)) in
  mkPublicRoom (code room)
    (match host with Some h => nick h | None => "Unknown" end)
    (match host with Some h => avatarSeed h | None => "Guest" end)
    (JsMap.size (players room)) 8
    (maxRounds (settings room)) (useBonus (settings room)).

Definition listPublicRooms (s : Server) : list PublicRoom :=
  omap (fun kv =>
          match heap s !! snd kv with
          | Some room => if isListed room then Some (publicRoom room) else None
          | None => None
          end)
    (rooms s).

(** ** Well-formed registries

    The shape every reachable state has. For every room object: each
    player is stored under its own id, the seat keys are distinct, there
    are at most 8 seats, the host id names a seat unless the room is
    empty, the used letters are letters of the alphabet, and the current
    letter is empty or a letter of the alphabet. For the registry: the
    codes are distinct, and the room object registered under a code exists,
    carries that code and has at least one player. *)
Definition playersOK (host : string) (ps : list (string * Player)) : Prop :=
  Forall (fun kv => id (snd kv) = fst kv) ps /\
  NoDup (JsMap.keys ps) /\
  (length ps <= 8)%nat /\
  (ps <> [] -> host ∈ JsMap.keys ps).

Definition lettersOK (g : GameState) : Prop :=
  usedLetters g ⊆ alphabetSet /\
  (currentLetter g = "" \/ currentLetter g ∈ GEORGIAN_ALPHABET).

Definition roomOK (room : Room) : Prop :=
  playersOK (hostId room) (players room) /\ lettersOK (gameState room).

Definition wfOn (h : list Room) (rs : list (string * nat)) : Prop :=
  (forall ref room, h !! ref = Some room -> roomOK room) /\
  NoDup (JsMap.keys rs) /\
  (forall c ref, JsMap.get c rs = Some ref ->
     exists room, h !! ref = Some room /\ code room = c /\ players room <> []).

Definition wellFormed (s : Server) : Prop := wfOn (heap s) (rooms s).

(** ** Further sample runs *)

(** Ana has created room AAAAA and Beka has joined it. *)
Definition twoInLobby : list Label :=
  [Connect 0 "s1";
   Recv 1 "s1" (RoomCreate "Ana" "seed1" "tok1" zeros "11112222-aaaa");
   Connect 2 "s2";
   Recv 3 "s2" (RoomJoin "aaaaa" "Beka" "seed2" "tok2" "33334444-bbbb")].

(** Beka's session has been restored on a second socket while the first
    is still open. *)
Definition bekaRestored : list Label :=
  (twoInLobby ++
   [Connect 4 "s3";
    Recv 5 "s3" (SessionRestore "tok2" beka)])%list.

(** S1 with the round running and stopping enabled, when the host kicks
    Beka. *)
Definition kickedInRound : list Label :=
  (toPlaying ++
   [Fire 2 0;
    Recv 4000 "s1" (PlayerKick beka)])%list.

(** * Properties *)

(** ** The scoring pass *)

Section ScoringProperties.
Context {engine : Engine}.

Lemma duplicatePenalty_fold all P c a start :
  duplicatePenalty all P c a start =
  if existsb (fun Q => negb (String.eqb (id Q) (id P))
                       && String.eqb (normalized Q c) a) all
  then 10 else start.
Proof.
  revert start. induction all as [|Q all IH]; intros start; simpl; [done|].
  unfold duplicatePenalty in *. simpl. rewrite IH.
  destruct (String.eqb (id Q) (id P)); simpl; [done|].
  destruct (String.eqb (normalized Q c) a); simpl; [|done].
  by destruct (existsb _ all).
Qed.

Lemma duplicated_existsb all P c :
  duplicated all P c <->
  existsb (fun Q => negb (String.eqb (id Q) (id P))
                    && String.eqb (normalized Q c) (normalized P c)) all = true.
Proof.
  rewrite existsb_exists. split.
  - intros (Q & Hin & Hid & Heq). exists Q. split; [by apply list_elem_of_In|].
    apply andb_true_iff. split.
    + apply negb_true_iff. by apply String.eqb_neq.
    + by apply String.eqb_eq.
  - intros (Q & Hin & H). apply andb_true_iff in H as [H1 H2].
    exists Q. split; [by apply list_elem_of_In|]. split.
    + apply negb_true_iff in H1. by apply String.eqb_neq.
    + by apply String.eqb_eq.
Qed.

Lemma length_pos_nonempty (a : string) :
  (0 <? String.length a)%nat = true <-> a <> "".
Proof. destruct a; simpl; split; done. Qed.

(** The entry the pass records for one answer. *)
Lemma scoreAnswer_rule all letter P c :
  let e := scoreAnswer all letter P c in
  answer e = answerOf P c /\ invalidatedBy e = None /\
  (~ accepted letter P c -> points e = 0 /\ isValid e = false) /\
  (accepted letter P c ->
     isValid e = true /\
     (duplicated all P c -> points e = 10) /\
     (~ duplicated all P c -> points e = 20)).
Proof.
  unfold scoreAnswer, accepted. cbn zeta.
  destruct (0 <? String.length (normalized P c))%nat eqn:Hlen; simpl.
  - apply length_pos_nonempty in Hlen.
    destruct (startsWith (normalized P c) (toLowerCase letter)) eqn:Hst; simpl.
    + split; [done|]. split; [done|]. split.
      * intros Hn. by destruct Hn.
      * intros _. split; [done|]. rewrite duplicatePenalty_fold. split.
        -- intros Hd. apply duplicated_existsb in Hd. by rewrite Hd.
        -- intros Hd. destruct (existsb _ all) eqn:He; [|done].
           destruct Hd. by apply duplicated_existsb.
    + split; [done|]. split; [done|]. split; [done|]. by intros [_ ?].
  - assert (normalized P c = "") as Hempty.
    { destruct (normalized P c); [done|discriminate]. }
    split; [done|]. split; [done|]. split; [done|]. by intros [? _].
Qed.

Lemma scoreCategories_acc all letter P cats (m : gmap string ScoreEntry) z :
  let res := fold_left
    (fun acc cat =>
       let e := scoreAnswer all letter P cat in
       (<[cat := e]> (fst acc), snd acc + points e))
    cats (m, z) in
  (forall c, fst res !! c =
             if bool_decide (c ∈ cats) then Some (scoreAnswer all letter P c)
             else m !! c) /\
  snd res = z + Zsum (map (fun c => points (scoreAnswer all letter P c)) cats).
Proof.
  revert m z. induction cats as [|cat cats IH]; intros m z; cbn zeta.
  - cbn [fold_left fst snd map]. split; [|unfold Zsum; cbn; lia].
    intros c. case_bool_decide as Hc; [|done]. by apply elem_of_nil in Hc.
  - cbn [fold_left fst snd map].
    destruct (IH (<[cat := scoreAnswer all letter P cat]> m)
                 (z + points (scoreAnswer all letter P cat))) as [IH1 IH2].
    cbn zeta in IH1, IH2. split.
    + intros c. rewrite IH1.
      destruct (decide (c ∈ cats)) as [Hin|Hnin].
      * rewrite !bool_decide_eq_true_2; [done| |done].
        apply elem_of_cons. by right.
      * rewrite (bool_decide_eq_false_2 _ Hnin).
        destruct (decide (c = cat)) as [->|Hne].
        -- rewrite lookup_insert_eq.
           rewrite bool_decide_eq_true_2; [done|]. apply elem_of_cons. by left.
        -- rewrite lookup_insert_ne; [|done].
           rewrite bool_decide_eq_false_2; [done|].
           intros [?|?]%elem_of_cons; done.
    + rewrite IH2. unfold Zsum. cbn [foldr]. lia.
Qed.

Lemma scoreCategories_spec all letter P cats :
  (forall c, c ∈ cats ->
     fst (scoreCategories all letter P cats) !! c
     = Some (scoreAnswer all letter P c)) /\
  snd (scoreCategories all letter P cats)
  = Zsum (map (fun c => points (scoreAnswer all letter P c)) cats).
Proof.
  destruct (scoreCategories_acc all letter P cats ∅ 0) as [H1 H2].
  cbn zeta in H1, H2. split.
  - intros c Hc. unfold scoreCategories. rewrite H1.
    by rewrite bool_decide_eq_true_2.
  - unfold scoreCategories. rewrite H2. lia.
Qed.

(** C1. The scoring pass run when a round ends: the player stored at any
    position of [room.players] keeps its key and gets, for every category
    key [c], an entry whose points are 0 (not valid) when the normalized
    answer is empty or does not start with the lowercased current letter,
    and otherwise 20 (valid), reduced to 10 exactly when another player
    holds the same normalized answer; the round score is the sum of the
    points over the category keys and the total grows by the round score. *)
Theorem calculateScores_points (room : Room) (i : nat) (k : string) (P : Player) :
  players room !! i = Some (k, P) ->
  let all := JsMap.values (players room) in
  let letter := currentLetter (gameState room) in
  let cats := map fst (activeCategories (gameState room)) in
  exists P' scores,
    players (calculateScores room) !! i = Some (k, P') /\
    id P' = id P /\ answers P' = answers P /\
    categoryScores P' = Some scores /\
    (forall c, c ∈ cats ->
       exists e, scores !! c = Some e /\
         answer e = answerOf P c /\
         (~ accepted letter P c -> points e = 0 /\ isValid e = false) /\
         (accepted letter P c ->
            isValid e = true /\
            (duplicated all P c -> points e = 10) /\
            (~ duplicated all P c -> points e = 20))) /\
    roundScore P' =
      Zsum (map (fun c => match scores !! c with
                          | Some e => points e
                          | None => 0
                          end) cats) /\
    totalScore P' = totalScore P + roundScore P'.
Proof.
  intros Hi all letter cats.
  destruct (scoreCategories_spec all letter P cats) as [Hm Hs].
  exists (scorePlayer all letter cats P), (fst (scoreCategories all letter P cats)).
  split.
  { unfold calculateScores, forEachPlayer, JsMap.forEach. simpl.
    rewrite list_lookup_fmap. fold all letter cats. by rewrite Hi. }
  split; [done|]. split; [done|]. split; [done|]. split.
  { intros c Hc. exists (scoreAnswer all letter P c). split; [by apply Hm|].
    destruct (scoreAnswer_rule all letter P c) as (Ha & _ & Hn & Hy).
    cbn zeta in Ha, Hn, Hy. split; [exact Ha|]. split; [exact Hn|exact Hy]. }
  split; [|done].
  simpl. rewrite Hs. f_equal. apply map_ext_in. intros c Hc.
  rewrite Hm; [done|]. by apply list_elem_of_In.
Qed.

End ScoringProperties.

Lemma calculateScores_points_witness :
  players bakuRoom !! 0%nat = Some ("p1", bakuPlayer "p1") /\
  exists P',
    players (calculateScores (engine := basicEngine) bakuRoom) !! 0%nat
    = Some ("p1", P') /\
    roundScore P' = 10 /\ totalScore P' = 15.
Proof.
  split; [reflexivity|].
  destruct (calculateScores_points (engine := basicEngine) bakuRoom 0 "p1"
              (bakuPlayer "p1") eq_refl)
    as (P' & scores & Hlook & _).
  exists P'. split; [exact Hlook|].
  vm_compute in Hlook. injection Hlook as <-. split; reflexivity.
Defined.


(** ** The room map and the heap *)

Lemma JsMap_get_update {V} k (f : V -> V) (m : list (string * V)) :
  JsMap.get k (JsMap.update k f m) = f <$> JsMap.get k m.
Proof.
  induction m as [|[k' v] m IH]; [done|]. simpl.
  destruct (String.eqb k k') eqn:E; simpl; rewrite E; [done|]. exact IH.
Qed.

Lemma JsMap_get_update_ne {V} k k' (f : V -> V) (m : list (string * V)) :
  k <> k' -> JsMap.get k' (JsMap.update k f m) = JsMap.get k' m.
Proof.
  intros Hne. induction m as [|[k0 v] m IH]; [done|]. simpl.
  destruct (String.eqb k k0) eqn:E; simpl.
  - apply String.eqb_eq in E. subst k0.
    destruct (String.eqb k' k) eqn:E'; [|exact IH].
    apply String.eqb_eq in E'. congruence.
  - destruct (String.eqb k' k0); [done|exact IH].
Qed.

Lemma getRoom_heap c s ref room :
  getRoom c s = Some (ref, room) ->
  JsMap.get c (rooms s) = Some ref /\ heap s !! ref = Some room.
Proof.
  unfold getRoom. destruct (JsMap.get c (rooms s)) as [r|]; [|done].
  destruct (heap s !! r) as [rm|] eqn:E; [|done].
  intros [= <- <-]. done.
Qed.

Lemma getRoom_putRoom c s ref room room' :
  getRoom c s = Some (ref, room) ->
  getRoom c (putRoom ref room' s) = Some (ref, room').
Proof.
  intros [Hc Hh]%getRoom_heap. unfold getRoom, putRoom. simpl. rewrite Hc.
  rewrite list_lookup_insert_eq; [done|]. by eapply lookup_lt_Some.
Qed.

Section HandlerProperties.
Context {engine : Engine}.

Lemma bound_truthy c rc pid :
  bound c = Some (rc, pid) ->
  currentRoomCode c = Some rc /\ currentPlayerId c = Some pid /\
  truthy (Some pid) = true.
Proof.
  unfold bound. destruct (currentRoomCode c) as [rc'|]; [|done].
  destruct (currentPlayerId c) as [pid'|]; [|done].
  destruct (truthy (Some rc')); [|done]. simpl negb.
  destruct (truthy (Some pid')) eqn:E; [|done].
  simpl. intros [= <- <-]. done.
Qed.




(** C9. A [round:stop] from a bound connection while the room is playing
    and the min-time timer has not yet enabled stopping is answered with
    [game:error] carrying the message, sent to that connection alone, and
    the server state (the room's phase included) is the one before. *)
Theorem round_stop_before_timer s sid c rc pid ref room :
  bound c = Some (rc, pid) ->
  getRoom rc s = Some (ref, room) ->
  phase (gameState room) = playing ->
  timerEnabled (gameState room) = false ->
  handle sid c RoundStop s = Ok s [(ToSocket sid, GameError "დაელოდეთ ტაიმერს")]
  /\ phaseAt rc s = Some playing.
Proof.
  intros Hb Hr Hp Ht. split.
  - simpl. unfold onRoundStop. rewrite Hb, Hr, Hp, Ht. done.
  - unfold phaseAt, roomAt. by rewrite Hr, Hp.
Qed.

(** C10. [answers:submit] from a bound player is taken in whatever phase
    the room is in: the player's answers become the submitted map and
    [hasSubmitted] becomes true, while the player's recorded category
    scores, round score and total score, the room's phase and every other
    player stay as they were. *)
Theorem answers_submit_any_phase s sid c rc pid ref room P submitted :
  bound c = Some (rc, pid) ->
  getRoom rc s = Some (ref, room) ->
  JsMap.get pid (players room) = Some P ->
  exists s' out room' P',
    handle sid c (AnswersSubmit submitted) s = Ok s' out /\
    getRoom rc s' = Some (ref, room') /\
    JsMap.get pid (players room') = Some P' /\
    answers P' = submitted /\ hasSubmitted P' = true /\
    categoryScores P' = categoryScores P /\
    roundScore P' = roundScore P /\ totalScore P' = totalScore P /\
    phase (gameState room') = phase (gameState room) /\
    (forall q, q <> pid ->
       JsMap.get q (players room') = JsMap.get q (players room)).
Proof.
  intros Hb Hr Hp. simpl. unfold onAnswersSubmit. rewrite Hb, Hr, Hp.
  set (room1 := updPlayer pid _ room).
  assert (JsMap.get pid (players room1)
          = Some (set_hasSubmitted true (set_answers submitted P))) as Hp1.
  { unfold room1, updPlayer. simpl. by rewrite JsMap_get_update, Hp. }
  assert (forall q, q <> pid ->
            JsMap.get q (players room1) = JsMap.get q (players room)) as Hq.
  { intros q Hne. unfold room1, updPlayer. simpl.
    apply JsMap_get_update_ne. congruence. }
  destruct (allSubmitted room1).
  - eexists _, _, _, _. split; [reflexivity|].
    split; [by eapply getRoom_putRoom|]. simpl. split; [exact Hp1|].
    repeat split; try done.
  - eexists _, _, _, _. split; [reflexivity|].
    split; [by eapply getRoom_putRoom|]. split; [exact Hp1|].
    repeat split; try done.
Qed.

End HandlerProperties.


(** Scenario S4: the host stops right after the round has started, with
    the min-time timer still pending. *)
Lemma round_stop_before_timer_witness :
  handle (engine := basicEngine) "s1" (connOf "s1" (stateAfter toPlaying))
    RoundStop (stateAfter toPlaying)
  = Ok (stateAfter toPlaying) [(ToSocket "s1", GameError "დაელოდეთ ტაიმერს")]
  /\ phaseAt "AAAAA" (stateAfter toPlaying) = Some playing.
Proof.
  eapply (round_stop_before_timer (engine := basicEngine))
    with (pid := ana) (ref := 0%nat); vm_compute; reflexivity.
Defined.

(** A submission that arrives in the results phase of S1. *)
Lemma answers_submit_any_phase_witness :
  phaseAt "AAAAA" (stateAfter toResults) = Some results /\
  exists s' out P',
    handle (engine := basicEngine) "s1" (connOf "s1" (stateAfter toResults))
      (AnswersSubmit {[ "cat_0" := "ანანასი" ]}) (stateAfter toResults)
    = Ok s' out /\
    playerAt "AAAAA" ana s' = Some P' /\
    answers P' = {[ "cat_0" := "ანანასი" ]} /\ totalScore P' = 20.
Proof.
  split; [vm_compute; reflexivity|].
  edestruct (answers_submit_any_phase (engine := basicEngine))
    with (s := stateAfter toResults) (sid := "s1")
         (c := connOf "s1" (stateAfter toResults)) (rc := "AAAAA") (pid := ana)
         (ref := 0%nat) (submitted := {[ "cat_0" := "ანანასი" ]} : gmap string string)
    as (s' & out & room' & P' & H1 & H2 & H3 & H4 & _ & _ & _ & H8 & _);
    [vm_compute; reflexivity ..|].
  exists s', out, P'. split; [exact H1|].
  split; [unfold playerAt, roomAt; rewrite H2; exact H3|].
  split; [exact H4|]. rewrite H8. vm_compute. reflexivity.
Defined.

(** ** Letter selection *)

Lemma isRandom_range r : isRandom r = true -> (0 <= r)%Q /\ (r < 1)%Q.
Proof.
  unfold isRandom. intros [H1 H2]%andb_true_iff. split.
  - by apply Qle_bool_iff.
  - apply negb_true_iff in H2. apply Qnot_le_lt. intros Hle.
    apply Qle_bool_iff in Hle. congruence.
Qed.


Lemma randomIndex_lt r n :
  isRandom r = true -> (0 < n)%nat ->
  exists i, randomIndex r n = Some i /\ (i < n)%nat.
Proof.
  intros [H0 H1]%isRandom_range Hn.
  set (x := (r * inject_Z (Z.of_nat n))%Q).
  assert (0 <= x)%Q as Hx0.
  { unfold x. apply Qmult_le_0_compat; [done|].
    change 0%Q with (inject_Z 0). rewrite <- Zle_Qle. lia. }
  assert (x < inject_Z (Z.of_nat n))%Q as Hxn.
  { unfold x. rewrite <- (Qmult_1_l (inject_Z (Z.of_nat n))) at 2.
    apply Qmult_lt_compat_r; [|done].
    change 0%Q with (inject_Z 0). rewrite <- Zlt_Qlt. lia. }
  assert (0 <= Qfloor x) as Hf0.
  { change 0 with (Qfloor (inject_Z 0)) at 1. by apply Qfloor_resp_le. }
  assert (Qfloor x < Z.of_nat n) as Hfn.
  { rewrite Zlt_Qlt. eapply Qle_lt_trans; [apply Qfloor_le|exact Hxn]. }
  exists (Z.to_nat (Qfloor x)). split; [|lia].
  unfold randomIndex. fold x.
  destruct (Qfloor x <? 0) eqn:E; [apply Z.ltb_lt in E; lia|done].
Qed.

Lemma alphabet_NoDup : NoDup GEORGIAN_ALPHABET.
Proof. apply (bool_decide_unpack _). vm_compute. reflexivity. Qed.

Lemma alphabet_size : size alphabetSet = 33%nat.
Proof.
  unfold alphabetSet. rewrite size_list_to_set by apply alphabet_NoDup. done.
Qed.

Lemma available_spec g l :
  l ∈ availableLetters g <-> l ∈ GEORGIAN_ALPHABET /\ l ∉ usedLetters g.
Proof. unfold availableLetters. rewrite list_elem_of_filter. tauto. Qed.








(** ** Guards of the game events *)

Section GuardProperties.
Context {engine : Engine}.

Lemma hostRoom_None c s rc pid ref room :
  hostRoom c s = None -> bound c = Some (rc, pid) ->
  getRoom rc s = Some (ref, room) -> String.eqb (hostId room) pid = false.
Proof.
  unfold hostRoom. intros H Hb Hr. rewrite Hb, Hr in H.
  by destruct (String.eqb (hostId room) pid).
Qed.





End GuardProperties.



(** ** The registry, the timers and the reconnect window on sample runs *)

(** [createRoom] stores the room under the one code it generated, whether
    or not that code is registered. *)
Lemma createRoom_stores {engine : Engine} rnd hostId_ pnick avatar sock session s :
  let '(ref, room, s') := createRoom rnd hostId_ pnick avatar sock session s in
  code room = generateRoomCode rnd /\ ref = length (heap s) /\
  rooms s' = JsMap.set (generateRoomCode rnd) ref (rooms s).
Proof. done. Qed.

(** C4. Two [room:create] events whose [Math.random()] values agree give
    the same code; the second room replaces the first in the registry.
    Both room objects carry the code, Ana's session and connection still
    name it, and the room found under it is Beka's, where Ana is not a
    player. *)
Theorem createRoom_collision :
  rooms (stateAfter collision) = [("AAAAA", 1%nat)] /\
  map code (heap (stateAfter collision)) = ["AAAAA"; "AAAAA"] /\
  (hostId <$> roomAt "AAAAA" (stateAfter collision)) = Some beka /\
  playerAt "AAAAA" ana (stateAfter collision) = None /\
  playerSessions (stateAfter collision) !! "tok1" = Some (mkSession "AAAAA" ana) /\
  connOf "s1" (stateAfter collision) = mkConn (Some ana) (Some "AAAAA") true.
Proof. repeat split; vm_compute; reflexivity. Qed.

(** C5. The end-game cooldown armed at 11000 (due at 21000) runs on a
    room that has left the ended phase: after the host's return to the
    lobby it clears Beka's ready flag, and when a new game has been
    started in the meantime it throws the running round back to the
    lobby. The min-time timer of an abandoned round (due at 18503)
    enables stopping in the round started after it, whose own timer is
    due at 22700, and a [round:stop] at 18600 is then accepted. *)
Theorem stale_timers_act :
  phaseAt "AAAAA" (stateAfter backInLobby) = Some lobby /\
  (isReady <$> playerAt "AAAAA" beka (stateAfter backInLobby)) = Some true /\
  (isReady <$> playerAt "AAAAA" beka (stateAfter (backInLobby ++ [Fire 4 0])))
  = Some false /\
  phaseAt "AAAAA" (stateAfter secondGame) = Some playing /\
  phaseAt "AAAAA" (stateAfter (secondGame ++ [Fire 4 0])) = Some lobby /\
  timerEnabledAt "AAAAA" (stateAfter abandonedRound) = Some false /\
  timers (stateAfter abandonedRound) !! 5%nat = Some (mkTimer 22700 (MinTimeCb 0)) /\
  timerEnabledAt "AAAAA" (stateAfter (abandonedRound ++ [Fire 2 0])) = Some true /\
  now (stateAfter (abandonedRound ++ [Fire 2 0])) = 18503 /\
  phaseAt "AAAAA"
    (stateAfter (abandonedRound ++ [Fire 2 0; Recv 18600 "s1" RoundStop]))
  = Some stopped.
Proof. repeat split; vm_compute; reflexivity. Qed.

(** C6. After Beka's disconnect there is one pending entry and one timer
    for the player. [session:restore] removes both. [player:kick] by the
    host removes the player but leaves the entry and the timer, and so
    does [room:leave] sent on Beka's older socket; when the timer runs
    later it finds no player and the entry stays for good. *)
Theorem kick_and_leave_keep_pending :
  disconnectedPlayers (stateAfter bekaDisconnected) !! beka
  = Some (mkPending "AAAAA" 0) /\
  timers (stateAfter bekaDisconnected) !! 0%nat
  = Some (mkTimer 120010 (ReconnectCb beka "AAAAA" "Beka")) /\
  (let s := stateAfter (bekaDisconnected ++
                        [Connect 15 "s3"; Recv 20 "s3" (SessionRestore "tok2" beka)]) in
   (isConnected <$> playerAt "AAAAA" beka s) = Some true /\
   disconnectedPlayers s !! beka = None /\ timers s !! 0%nat = None) /\
  (let s := stateAfter (bekaDisconnected ++ [Recv 20 "s1" (PlayerKick beka)]) in
   playerAt "AAAAA" beka s = None /\
   disconnectedPlayers s !! beka = Some (mkPending "AAAAA" 0) /\
   timers s !! 0%nat = Some (mkTimer 120010 (ReconnectCb beka "AAAAA" "Beka"))) /\
  (let s := stateAfter (bekaDisconnected ++
                        [Recv 20 "s1" (PlayerKick beka); Fire 0 0]) in
   disconnectedPlayers s !! beka = Some (mkPending "AAAAA" 0)) /\
  (let s := stateAfter (bekaTwoSockets ++ [Recv 20 "s2" RoomLeave]) in
   playerAt "AAAAA" beka s = None /\
   disconnectedPlayers s !! beka = Some (mkPending "AAAAA" 0) /\
   timers s !! 0%nat = Some (mkTimer 120010 (ReconnectCb beka "AAAAA" "Beka"))).
Proof. repeat split; vm_compute; reflexivity. Qed.

(** ** The current letter *)

Lemma letterInvOn_insert h t ref room room' :
  letterInvOn h t -> h !! ref = Some room ->
  (letterSet room -> letterSet room') ->
  (inPlay (phase (gameState room')) = true -> letterSet room') ->
  letterInvOn (<[ref := room']> h) t.
Proof.
  intros [Hh Ht] Href Hkeep Hplay. split.
  - intros r rm Hr Hin. destruct (decide (r = ref)) as [->|Hne].
    + rewrite list_lookup_insert_eq in Hr by (by eapply lookup_lt_Some).
      injection Hr as <-. by apply Hplay.
    + rewrite list_lookup_insert_ne in Hr by done. by eapply Hh.
  - intros k tm r Hk Hcb. destruct (Ht k tm r Hk Hcb) as (rm & Hr & Hset).
    destruct (decide (r = ref)) as [->|Hne].
    + exists room'. rewrite list_lookup_insert_eq by (by eapply lookup_lt_Some).
      split; [done|]. apply Hkeep. congruence.
    + exists rm. by rewrite list_lookup_insert_ne.
Qed.

Lemma letterInvOn_arm h t k tm :
  letterInvOn h t ->
  (forall ref, roundCallbackRoom (callback tm) = Some ref ->
     exists room, h !! ref = Some room /\ letterSet room) ->
  letterInvOn h (<[k := tm]> t).
Proof.
  intros [Hh Ht] Hnew. split; [done|].
  intros k' tm' r Hk Hcb. destruct (decide (k = k')) as [->|Hne].
  - rewrite lookup_insert_eq in Hk. injection Hk as <-. by apply Hnew.
  - rewrite lookup_insert_ne in Hk by done. by eapply Ht.
Qed.

Lemma letterInvOn_clear h t k :
  letterInvOn h t -> letterInvOn h (delete k t).
Proof.
  intros [Hh Ht]. split; [done|].
  intros k' tm r Hk Hcb. destruct (decide (k = k')) as [->|Hne].
  - by rewrite lookup_delete_eq in Hk.
  - rewrite lookup_delete_ne in Hk by done. by eapply Ht.
Qed.

Lemma letterInvOn_alloc h t room :
  letterInvOn h t -> inPlay (phase (gameState room)) = false ->
  letterInvOn (h ++ [room]) t.
Proof.
  intros [Hh Ht] Hlobby. split.
  - intros r rm Hr Hin. apply lookup_app_Some in Hr as [Hr|[_ Hr]].
    + by eapply Hh.
    + destruct (r - length h)%nat; simpl in Hr; [|done].
      injection Hr as <-. congruence.
  - intros k tm r Hk Hcb. destruct (Ht k tm r Hk Hcb) as (rm & Hr & Hset).
    exists rm. split; [|done]. by apply lookup_app_l_Some.
Qed.

Lemma alphabet_nonempty l : l ∈ GEORGIAN_ALPHABET -> l <> "".
Proof.
  intros Hin ->. revert Hin. apply (bool_decide_unpack _). vm_compute. reflexivity.
Qed.

Section LetterInvariant.
Context {engine : Engine}.

Lemma drawLetter_letter r g l g' :
  drawLetter r g = Some (l, g') ->
  currentLetter g' = l /\ l <> "" /\ phase g' = phase g.
Proof.
  unfold drawLetter, selectRandomLetter.
  destruct (length (availableLetters g) =? 0)%nat.
  - destruct (randomIndex r (length GEORGIAN_ALPHABET)) as [i|]; [|done].
    destruct (GEORGIAN_ALPHABET !! i) as [l0|] eqn:E; [|done].
    intros [= <- <-]. repeat split.
    apply alphabet_nonempty. by eapply list_elem_of_lookup_2.
  - destruct (randomIndex r (length (availableLetters g))) as [i|]; [|done].
    destruct (availableLetters g !! i) as [l0|] eqn:E; [|done].
    intros [= <- <-]. repeat split.
    apply alphabet_nonempty. apply list_elem_of_lookup_2 in E.
    unfold availableLetters in E. by apply list_elem_of_filter in E as [_ ?].
Qed.

Lemma scanRooms_heap h sessionId_ playerId l roomCode ref r p :
  scanRooms h sessionId_ playerId l = Some (roomCode, ref, r, p) ->
  h !! ref = Some r.
Proof.
  induction l as [|[rc n] l IH]; simpl; [done|].
  destruct (h !! n) as [r0|] eqn:E; [|exact IH].
  destruct (JsMap.get playerId (players r0)) as [p0|]; [|exact IH].
  destruct (String.eqb (sessionId p0) sessionId_); [|exact IH].
  intros [= <- <- <- <-]. done.
Qed.

(** Case analysis on a handler run that returned. *)
Ltac handler_cases H :=
  repeat match type of H with
         | context [match ?x with _ => _ end] =>
             let E := fresh "E" in destruct x eqn:E; try discriminate H
         | context [if ?x then _ else _] =>
             let E := fresh "E" in destruct x eqn:E; try discriminate H
         end;
  simplify_eq.

Ltac facts :=
  repeat match goal with
         | E : getRoom _ _ = Some (_, _) |- _ =>
             apply getRoom_heap in E as [? ?]
         | E : scanRooms _ _ _ _ = Some _ |- _ => apply scanRooms_heap in E
         | E : setTimeout _ _ _ = (_, _) |- _ =>
             unfold setTimeout in E; simplify_eq
         | E : createRoom _ _ _ _ _ _ _ = (_, _) |- _ =>
             unfold createRoom in E; simplify_eq
         | E : promoteFirst _ _ = (_, _) |- _ =>
             unfold promoteFirst in E; handler_cases E
         | E : handlePlayerDisconnect _ _ _ _ = (_, _) |- _ =>
             unfold handlePlayerDisconnect in E; handler_cases E
         | E : drawLetter _ _ = Some _ |- _ =>
             apply drawLetter_letter in E as (? & ? & ?)
         | E : match _ with _ => _ end = _ |- _ => handler_cases E
         | E : negb _ = false |- _ => apply negb_false_iff in E
         | E : bool_decide _ = true |- _ => apply bool_decide_eq_true in E
         end.

Ltac inv_step :=
  first
    [ assumption
    | apply letterInvOn_clear
    | apply letterInvOn_alloc; [| reflexivity ]
    | apply letterInvOn_arm;
        [| simpl; intros ? ?; try discriminate; simplify_eq;
           try (eexists; split;
                [apply list_lookup_insert_eq; eapply lookup_lt_Some; eassumption|]) ]
    | eapply letterInvOn_insert;
        [ | eassumption | simpl; try done | simpl; try done ] ].

Ltac inv_goal :=
  unfold letterInv, setConn, putRoom, clearTimeout in *;
  repeat match goal with
         | |- context [match ?x with _ => _ end] => destruct x eqn:?
         end;
  simpl; repeat inv_step.

Ltac letter_tac Hplay :=
  unfold letterSet in *; simpl in *; intros;
  first [ done | congruence
        | (eapply Hplay; [eassumption |]; simpl;
           first [ done
                 | match goal with
                   | Hp : phase _ = _ |- _ => rewrite Hp; reflexivity
                   end ]) ].

Lemma handle_letterInv sid c e s s' out :
  letterInv s -> handle sid c e s = Ok s' out -> letterInv s'.
Proof.
  intros Hinv H. pose proof Hinv as [Hplay Htm].
  destruct e; simpl in H.
  - unfold onSessionRestore, restoreFound in H. handler_cases H; facts; inv_goal; try letter_tac Hplay.
  - unfold onRoomCreate in H. handler_cases H; facts; inv_goal; try letter_tac Hplay.
  - unfold onRoomJoin in H. handler_cases H; facts; inv_goal; try letter_tac Hplay.
  - unfold onPlayerReady in H. handler_cases H; facts; inv_goal; try letter_tac Hplay.
  - unfold onSettingsUpdate in H. handler_cases H; facts; inv_goal; try letter_tac Hplay.
  - unfold onGameStart in H. handler_cases H; facts; inv_goal; try letter_tac Hplay.
  - unfold onSticksDraw in H. handler_cases H; facts; inv_goal; try letter_tac Hplay.
  - unfold onPlayerTyping in H. handler_cases H; facts; inv_goal; try letter_tac Hplay.
  - unfold onAnswersSubmit in H. handler_cases H; facts; inv_goal; try letter_tac Hplay.
  - unfold onRoundStop in H. handler_cases H; facts; inv_goal; try letter_tac Hplay.
  - unfold onAnswerInvalidate in H. handler_cases H; facts; inv_goal; try letter_tac Hplay.
  - unfold onGameNextRound in H. handler_cases H; facts; inv_goal; try letter_tac Hplay.
  - unfold onGameReturnToLobby in H. handler_cases H; facts; inv_goal; try letter_tac Hplay.
  - unfold onRoomLeave in H. handler_cases H; facts; inv_goal; try letter_tac Hplay.
  - unfold onPlayerKick in H. handler_cases H; facts; inv_goal; try letter_tac Hplay.
  - unfold onChatMessage in H. handler_cases H; facts; inv_goal; try letter_tac Hplay.
  - unfold onDisconnect in H. handler_cases H; facts; inv_goal; try letter_tac Hplay.
Qed.

Lemma fire_letterInv h r tm s s' out :
  letterInv s -> timers s !! h = Some tm ->
  runCallback (callback tm) r (set_now (due tm) (clearTimeout h s)) = Ok s' out ->
  letterInv s'.
Proof.
  intros Hinv Hh H. pose proof Hinv as [Hplay Htm].
  pose proof (fun ref => Htm h tm ref Hh) as Hcb.
  destruct (callback tm) eqn:Ecb; simpl in H, Hcb.
  - destruct (Hcb _ eq_refl) as (rm & Hrm & Hset).
    handler_cases H; facts; inv_goal; try letter_tac Hplay.
    all: eauto.
  - destruct (Hcb _ eq_refl) as (rm & Hrm & Hset).
    unfold startRound in H. handler_cases H; facts; inv_goal; try letter_tac Hplay.
  - handler_cases H; facts; inv_goal; try letter_tac Hplay.
  - destruct (Hcb _ eq_refl) as (rm & Hrm & Hset).
    unfold endRound in H. handler_cases H; facts; inv_goal; try letter_tac Hplay.
  - handler_cases H; facts; inv_goal; try letter_tac Hplay.
  - unfold reconnectExpired in H.
    handler_cases H; facts; inv_goal; try letter_tac Hplay.
Qed.

Lemma step_letterInv s l s' out :
  letterInv s -> step s l = Ok s' out -> letterInv s'.
Proof.
  intros Hinv H. destruct l as [t sid|t sid e|h r]; simpl in H.
  - handler_cases H. exact Hinv.
  - destruct (timely t s); [|done].
    destruct (conns s !! sid) as [c|]; [|done].
    destruct (alive c); [|done].
    by apply (handle_letterInv sid c e (set_now t s) s' out).
  - destruct (timers s !! h) as [tm|] eqn:Hh; [|done].
    destruct (timely (due tm) s && isRandom r); [|done].
    by eapply fire_letterInv.
Qed.

Lemma reachable_letterInv s : reachable s -> letterInv s.
Proof.
  induction 1 as [|s l s' out _ IH Hstep].
  - split.
    + intros ref room Hr. by destruct ref.
    + intros k tm ref Hk. simpl in Hk. by rewrite lookup_empty in Hk.
  - by eapply step_letterInv.
Qed.

Lemma run_reachable s ls s' out :
  reachable s -> run s ls = Some (s', out) -> reachable s'.
Proof.
  revert s out. induction ls as [|l ls IH]; intros s out Hs; simpl.
  - by intros [= <- <-].
  - destruct (step s l) as [s1 out1| | |] eqn:Hstep; [|done..].
    destruct (run s1 ls) as [[s2 out2]|] eqn:Hrun; [|done].
    intros [= <- <-]. eapply IH; [|exact Hrun].
    by eapply reachable_step.
Qed.

(** C8 (amended). In every reachable state, a room whose phase is
    playing, stopped or results has a current letter. (The letter is
    assigned when the host draws, while the phase is still sticks, and
    nothing clears it afterwards.) *)
Theorem current_letter_in_play s c room :
  reachable s -> roomAt c s = Some room ->
  phase (gameState room) = playing \/ phase (gameState room) = stopped
  \/ phase (gameState room) = results ->
  currentLetter (gameState room) <> "".
Proof.
  intros Hreach Hroom Hphase.
  destruct (reachable_letterInv s Hreach) as [Hplay _].
  unfold roomAt in Hroom.
  destruct (getRoom c s) as [[ref rm]|] eqn:E; [|done].
  injection Hroom as ->. apply getRoom_heap in E as [_ Hh].
  apply (Hplay ref room Hh). by destruct Hphase as [-> | [-> | ->]].
Qed.

End LetterInvariant.

Lemma stateAfter_reachable ls : reachable (engine := basicEngine) (stateAfter ls).
Proof.
  unfold stateAfter, after.
  destruct (run initial ls) as [[s out]|] eqn:E; simpl.
  - eapply run_reachable; [apply reachable_initial|exact E].
  - apply reachable_initial.
Qed.

(** The results phase of S1: the letter is the one drawn. *)
Lemma current_letter_in_play_witness :
  exists room,
    roomAt "AAAAA" (stateAfter toResults) = Some room /\
    phase (gameState room) = results /\
    currentLetter (gameState room) <> "".
Proof.
  destruct (roomAt "AAAAA" (stateAfter toResults)) as [room|] eqn:E;
    [|vm_compute in E; discriminate].
  assert (phase (gameState room) = results) as Hphase.
  { assert (phaseAt "AAAAA" (stateAfter toResults) = Some results) as H
      by (vm_compute; reflexivity).
    unfold phaseAt in H. rewrite E in H. by injection H. }
  exists room. split; [reflexivity|]. split; [exact Hphase|].
  apply (current_letter_in_play (engine := basicEngine)
           (stateAfter toResults) "AAAAA" room
           (stateAfter_reachable toResults) E).
  right. right. exact Hphase.
Defined.

(** C8, as stated, fails in the direction "set only in play": the letter
    is set while the room is still in sticks (right after the draw, and
    through the animation), in ended, and back in the lobby after the
    game. *)
Lemma letter_set_outside_play :
  phaseAt "AAAAA" (stateAfter (firstn 8 toPlaying)) = Some sticks /\
  letterAt "AAAAA" (stateAfter (firstn 8 toPlaying)) = Some "ა" /\
  phaseAt "AAAAA" (stateAfter toEnded) = Some ended /\
  letterAt "AAAAA" (stateAfter toEnded) = Some "ა" /\
  phaseAt "AAAAA" (stateAfter backInLobby) = Some lobby /\
  letterAt "AAAAA" (stateAfter backInLobby) = Some "ა".
Proof. repeat split; vm_compute; reflexivity. Qed.

(** ** The reconnect window *)

Section ReconnectProperties.
Context {engine : Engine}.

(** X1. The reconnect-grace callback does nothing when the room is no
    longer registered, the player is no longer in it, or the player is
    connected again. *)
Theorem reconnect_callback_stale playerId roomCode pnick s :
  (getRoom roomCode s = None \/
   exists ref room,
     getRoom roomCode s = Some (ref, room) /\
     (JsMap.get playerId (players room) = None \/
      exists p, JsMap.get playerId (players room) = Some p /\
                isConnected p = true)) ->
  runCallback (ReconnectCb playerId roomCode pnick) 0 s = Ok s [].
Proof.
  simpl. unfold reconnectExpired.
  intros [-> | (ref & room & -> & [-> | (p & -> & ->)])]; done.
Qed.

(** X2. A successful [session:restore] leaves no pending entry for the
    player and no timer under the handle the entry held. *)
Theorem session_restore_cancels sid sessionId_ playerId s s' out :
  onSessionRestore sid sessionId_ playerId s = Ok s' out ->
  out <> [(ToSocket sid, SessionRestoredFail)] ->
  disconnectedPlayers s' !! playerId = None /\
  (forall d, disconnectedPlayers s !! playerId = Some d ->
             timers s' !! p_timeout d = None).
Proof.
  intros H Hok.
  assert (forall se ref room p s1,
            disconnectedPlayers s1 = disconnectedPlayers s ->
            timers s1 = timers s ->
            restoreFound sid playerId se ref room p s1 = Ok s' out ->
            disconnectedPlayers s' !! playerId = None /\
            (forall d, disconnectedPlayers s !! playerId = Some d ->
                       timers s' !! p_timeout d = None)) as Hfound.
  { intros se ref room p s1 Hd Ht Hr. unfold restoreFound in Hr.
    rewrite Hd in Hr.
    destruct (disconnectedPlayers s !! playerId) as [d|] eqn:E;
      injection Hr as <- _; simpl.
    - split; [apply lookup_delete_eq|].
      intros d' [= <-]. apply lookup_delete_eq.
    - rewrite Hd. split; [exact E|]. by intros d'. }
  unfold onSessionRestore in H.
  destruct (playerSessions s !! sessionId_) as [se|] eqn:Es.
  - destruct (getRoom (s_roomCode se) s) as [[ref room]|] eqn:Er.
    + destruct (JsMap.get playerId (players room)) as [p|] eqn:Ep.
      * by eapply (Hfound se ref room p s).
      * destruct (scanRooms _ _ _ _) as [[[[rc ref'] r'] p']|].
        -- by eapply Hfound; [| |exact H].
        -- by injection H as <- <-.
    + destruct (scanRooms _ _ _ _) as [[[[rc ref'] r'] p']|].
      * by eapply Hfound; [| |exact H].
      * by injection H as <- <-.
  - destruct (scanRooms _ _ _ _) as [[[[rc ref'] r'] p']|].
    + by eapply Hfound; [| |exact H].
    + by injection H as <- <-.
Qed.

End ReconnectProperties.

Lemma reconnect_callback_stale_witness :
  runCallback (engine := basicEngine) (ReconnectCb beka "AAAAA" "Beka") 0
    (stateAfter (bekaDisconnected ++ [Recv 20 "s1" (PlayerKick beka)]))
  = Ok (stateAfter (bekaDisconnected ++ [Recv 20 "s1" (PlayerKick beka)])) [].
Proof.
  apply (reconnect_callback_stale (engine := basicEngine)).
  right. eexists 0%nat, _. split; [vm_compute; reflexivity|].
  left. vm_compute. reflexivity.
Defined.

Lemma session_restore_cancels_witness :
  exists s' out,
    onSessionRestore "s3" "tok2" beka
      (stateAfter (bekaDisconnected ++ [Connect 15 "s3"])) = Ok s' out /\
    disconnectedPlayers s' !! beka = None /\
    timers s' !! 0%nat = None.
Proof.
  destruct (onSessionRestore "s3" "tok2" beka
              (stateAfter (bekaDisconnected ++ [Connect 15 "s3"])))
    as [s' out| | |] eqn:E; try (vm_compute in E; discriminate).
  exists s', out. split; [reflexivity|].
  destruct (session_restore_cancels _ _ _ _ _ _ E)
    as [H1 H2].
  - vm_compute in E. injection E as _ <-. discriminate.
  - split; [exact H1|].
    apply (H2 (mkPending "AAAAA" 0)). vm_compute. reflexivity.
Defined.

(** ** One reconnect timer per player *)

Lemma pendingInvOn_arm t n d due_ cb :
  pendingInvOn t n d -> reconnectPlayer cb = None ->
  pendingInvOn (<[n := mkTimer due_ cb]> t) (S n) d.
Proof.
  intros [Hlt Hrec] Hcb. split.
  - intros h tm Hh. destruct (decide (n = h)) as [->|Hne]; [lia|].
    rewrite lookup_insert_ne in Hh by done. apply Hlt in Hh. lia.
  - intros h tm pid Hh Hp. destruct (decide (n = h)) as [->|Hne].
    + rewrite lookup_insert_eq in Hh. injection Hh as <-. simpl in Hp. congruence.
    + rewrite lookup_insert_ne in Hh by done. by eapply Hrec.
Qed.

Lemma pendingInvOn_clear t n d h :
  pendingInvOn t n d -> pendingInvOn (delete h t) n d.
Proof.
  intros [Hlt Hrec]. split.
  - intros h' tm Hh. apply lookup_delete_Some in Hh as [_ Hh]. by eapply Hlt.
  - intros h' tm pid Hh Hp. apply lookup_delete_Some in Hh as [_ Hh].
    by eapply Hrec.
Qed.

(** Removing a player's entry together with the timer it records. *)
Lemma pendingInvOn_forget t n d pid e :
  pendingInvOn t n d -> d !! pid = Some e ->
  pendingInvOn (delete (p_timeout e) t) n (delete pid d).
Proof.
  intros [Hlt Hrec] He. split.
  - intros h' tm Hh. apply lookup_delete_Some in Hh as [_ Hh]. by eapply Hlt.
  - intros h' tm pid' Hh Hp. apply lookup_delete_Some in Hh as [Hne Hh].
    destruct (Hrec h' tm pid' Hh Hp) as (e' & He' & Ht).
    destruct (decide (pid = pid')) as [->|Hpid].
    + congruence.
    + exists e'. by rewrite lookup_delete_ne.
Qed.

(** The timer [h] of player [pid] has run and the entry is dropped. *)
Lemma pendingInvOn_expire t n d h tm pid :
  pendingInvOn t n d -> t !! h = Some tm ->
  reconnectPlayer (callback tm) = Some pid ->
  pendingInvOn (delete h t) n (delete pid d).
Proof.
  intros Hinv Hh Hp. pose proof Hinv as [_ Hrec].
  destruct (Hrec h tm pid Hh Hp) as (e & He & <-).
  by apply pendingInvOn_forget.
Qed.

(** A disconnect: the timer recorded for the player, if any, is cleared,
    a new one is armed under the next handle and recorded. *)
Lemma pendingInvOn_disconnect t n d pid rc pnick due_ :
  pendingInvOn t n d ->
  let t0 := match d !! pid with
            | Some e => delete (p_timeout e) t
            | None => t
            end in
  pendingInvOn (<[n := mkTimer due_ (ReconnectCb pid rc pnick)]> t0) (S n)
    (<[pid := mkPending rc n]> d).
Proof.
  intros [Hlt Hrec] t0.
  assert (forall h tm, t0 !! h = Some tm -> t !! h = Some tm) as Hsub.
  { intros h tm. unfold t0. destruct (d !! pid); [|done].
    by intros [_ ?]%lookup_delete_Some. }
  split.
  - intros h tm Hh. destruct (decide (n = h)) as [->|Hne]; [lia|].
    rewrite lookup_insert_ne in Hh by done. apply Hsub, Hlt in Hh. lia.
  - intros h tm pid' Hh Hp. destruct (decide (n = h)) as [->|Hne].
    + rewrite lookup_insert_eq in Hh. injection Hh as <-. simpl in Hp.
      injection Hp as <-. exists (mkPending rc h). by rewrite lookup_insert_eq.
    + rewrite lookup_insert_ne in Hh by done.
      destruct (Hrec h tm pid' (Hsub _ _ Hh) Hp) as (e & He & Ht).
      destruct (decide (pid = pid')) as [<-|Hpid].
      * unfold t0 in Hh. rewrite He in Hh.
        apply lookup_delete_Some in Hh as [Hx _]. congruence.
      * exists e. by rewrite lookup_insert_ne.
Qed.

Section PendingInvariant.
Context {engine : Engine}.

Ltac pend_cases H :=
  repeat match type of H with
         | context [match ?x with _ => _ end] =>
             let E := fresh "E" in destruct x eqn:E; try discriminate H
         | context [if ?x then _ else _] =>
             let E := fresh "E" in destruct x eqn:E; try discriminate H
         end;
  simplify_eq.

Ltac pend_facts :=
  repeat match goal with
         | E : setTimeout _ _ _ = (_, _) |- _ =>
             unfold setTimeout in E; simplify_eq
         | E : createRoom _ _ _ _ _ _ _ = (_, _) |- _ =>
             unfold createRoom in E; simplify_eq
         | E : promoteFirst _ _ = (_, _) |- _ =>
             unfold promoteFirst in E; pend_cases E
         end.

Ltac pend_goal :=
  unfold pendingInv, setConn, putRoom, clearTimeout in *; simpl;
  first [ assumption
        | apply pendingInvOn_arm; [assumption | reflexivity] ].

Lemma restoreFound_pending sid playerId se ref room p s s' out :
  pendingInv s -> restoreFound sid playerId se ref room p s = Ok s' out ->
  pendingInv s'.
Proof.
  intros Hinv H. unfold restoreFound in H.
  destruct (disconnectedPlayers s !! playerId) as [e|] eqn:E;
    injection H as <- _; unfold pendingInv; simpl.
  - by apply pendingInvOn_forget.
  - exact Hinv.
Qed.

Lemma handlePlayerDisconnect_pending sid playerId roomCode s s' out :
  pendingInv s -> handlePlayerDisconnect sid playerId roomCode s = (s', out) ->
  pendingInv s'.
Proof.
  intros Hinv H. unfold handlePlayerDisconnect in H.
  destruct (getRoom roomCode s) as [[ref room]|]; [|by injection H as <- _].
  destruct (JsMap.get playerId (players room)) as [player|];
    [|by injection H as <- _].
  destruct (negb (bool_decide (socketId player = Some sid)));
    [by injection H as <- _|].
  pose proof (pendingInvOn_disconnect (timers s) (nextTimer s)
                (disconnectedPlayers s) playerId roomCode (nick player)
                (now s + timerDelay 120000) Hinv) as Hd.
  cbn zeta in Hd. simpl in H.
  destruct (disconnectedPlayers s !! playerId) as [e|] eqn:E;
    injection H as <- _; exact Hd.
Qed.

Lemma handle_pendingInv sid c e s s' out :
  pendingInv s -> handle sid c e s = Ok s' out -> pendingInv s'.
Proof.
  intros Hinv H. destruct e; simpl in H.
  - unfold onSessionRestore in H.
    destruct (match playerSessions s !! sessionId_ with
              | Some se => _ | None => None end) as [[[[se ref] room] p]|].
    + by eapply restoreFound_pending.
    + destruct (scanRooms _ _ _ _) as [[[[rc ref] r] p]|].
      * eapply restoreFound_pending; [|exact H]. exact Hinv.
      * pend_cases H; exact Hinv.
  - unfold onRoomCreate in H. pend_cases H; pend_facts; pend_goal.
  - unfold onRoomJoin in H. pend_cases H; pend_facts; pend_goal.
  - unfold onPlayerReady in H. pend_cases H; pend_facts; pend_goal.
  - unfold onSettingsUpdate in H. pend_cases H; pend_facts; pend_goal.
  - unfold onGameStart in H. pend_cases H; pend_facts; pend_goal.
  - unfold onSticksDraw in H. pend_cases H; pend_facts; pend_goal.
  - unfold onPlayerTyping in H. pend_cases H; pend_facts; pend_goal.
  - unfold onAnswersSubmit in H. pend_cases H; pend_facts; pend_goal.
  - unfold onRoundStop in H. pend_cases H; pend_facts; pend_goal.
  - unfold onAnswerInvalidate in H. pend_cases H; pend_facts; pend_goal.
  - unfold onGameNextRound in H. pend_cases H; pend_facts; pend_goal.
  - unfold onGameReturnToLobby in H. pend_cases H; pend_facts; pend_goal.
  - unfold onRoomLeave in H. pend_cases H; pend_facts; pend_goal.
  - unfold onPlayerKick in H. pend_cases H; pend_facts; pend_goal.
  - unfold onChatMessage in H. pend_cases H; pend_facts; pend_goal.
  - unfold onDisconnect in H.
    destruct (bound c) as [[rc pid]|].
    + destruct (handlePlayerDisconnect sid pid rc s) as [s1 out1] eqn:E.
      injection H as <- _. apply handlePlayerDisconnect_pending in E; [|done].
      exact E.
    + injection H as <- _. exact Hinv.
Qed.

Lemma fire_pendingInv h r tm s s' out :
  pendingInv s -> timers s !! h = Some tm ->
  runCallback (callback tm) r (set_now (due tm) (clearTimeout h s)) = Ok s' out ->
  pendingInv s'.
Proof.
  intros Hinv Hh H.
  assert (pendingInv (set_now (due tm) (clearTimeout h s))) as Hc
    by (by apply pendingInvOn_clear).
  destruct (callback tm) eqn:Ecb; simpl in H.
  - pend_cases H; pend_facts; pend_goal.
  - unfold startRound in H. pend_cases H; pend_facts; pend_goal.
  - pend_cases H; pend_facts; pend_goal.
  - unfold endRound in H. pend_cases H; pend_facts; pend_goal.
  - pend_cases H; pend_facts; pend_goal.
  - assert (pendingInvOn (delete h (timers s)) (nextTimer s)
              (delete playerId (disconnectedPlayers s))) as He.
    { eapply pendingInvOn_expire; [exact Hinv|exact Hh|by rewrite Ecb]. }
    unfold reconnectExpired in H.
    pend_cases H; pend_facts; unfold pendingInv; simpl; assumption.
Qed.

Lemma step_pendingInv s l s' out :
  pendingInv s -> step s l = Ok s' out -> pendingInv s'.
Proof.
  intros Hinv H. destruct l as [t sid|t sid e|h r]; simpl in H.
  - pend_cases H. exact Hinv.
  - destruct (timely t s); [|done].
    destruct (conns s !! sid) as [c|]; [|done].
    destruct (alive c); [|done].
    by apply (handle_pendingInv sid c e (set_now t s) s' out).
  - destruct (timers s !! h) as [tm|] eqn:Hh; [|done].
    destruct (timely (due tm) s && isRandom r); [|done].
    by eapply fire_pendingInv.
Qed.

Lemma reachable_pendingInv s : reachable s -> pendingInv s.
Proof.
  induction 1 as [|s l s' out _ IH Hstep].
  - split; intros h tm; simpl; by rewrite lookup_empty.
  - by eapply step_pendingInv.
Qed.

(** X3. In every reachable state a player has at most one pending
    reconnect timer, and it is the one recorded under the player's id in
    [disconnectedPlayers]. *)
Theorem one_reconnect_timer_per_player s h1 h2 pid rc1 rc2 n1 n2 due1 due2 :
  reachable s ->
  timers s !! h1 = Some (mkTimer due1 (ReconnectCb pid rc1 n1)) ->
  timers s !! h2 = Some (mkTimer due2 (ReconnectCb pid rc2 n2)) ->
  h1 = h2 /\
  exists e, disconnectedPlayers s !! pid = Some e /\ p_timeout e = h1.
Proof.
  intros Hreach H1 H2.
  destruct (reachable_pendingInv s Hreach) as [_ Hrec].
  destruct (Hrec h1 _ pid H1 eq_refl) as (e1 & He1 & Ht1).
  destruct (Hrec h2 _ pid H2 eq_refl) as (e2 & He2 & Ht2).
  split; [congruence|]. by exists e1.
Qed.

End PendingInvariant.

(** After Beka's disconnect the one reconnect timer is the recorded one. *)
Lemma one_reconnect_timer_per_player_witness :
  exists e,
    disconnectedPlayers (stateAfter bekaDisconnected) !! beka = Some e /\
    p_timeout e = 0%nat.
Proof.
  destruct (one_reconnect_timer_per_player (engine := basicEngine)
              (stateAfter bekaDisconnected) 0%nat 0%nat beka "AAAAA" "AAAAA"
              "Beka" "Beka" 120010 120010 (stateAfter_reachable bekaDisconnected))
    as [_ H]; [vm_compute; reflexivity ..|].
  exact H.
Defined.

(** * Further properties of the code *)

(** ** Room codes *)

Lemma randomChar_spec r :
  isRandom r = true ->
  exists a, randomChar r = String a EmptyString /\
            a ∈ list_ascii_of_string roomCodeChars.
Proof.
  intros Hr. unfold randomChar.
  destruct (randomIndex_lt r (String.length roomCodeChars) Hr) as (k & -> & Hk).
  { unfold roomCodeChars. simpl. lia. }
  unfold charAt.
  assert (forall (s : string) (n : nat), (n < String.length s)%nat ->
            exists a, String.get n s = Some a /\ a ∈ list_ascii_of_string s) as Hget.
  { induction s as [|a s IH]; intros n Hn; simpl in *; [lia|].
    destruct n as [|n].
    - exists a. split; [done|]. apply elem_of_cons. by left.
    - destruct (IH n ltac:(lia)) as (b & Hb & Hin).
      exists b. split; [done|]. apply elem_of_cons. by right. }
  destruct (Hget roomCodeChars k Hk) as (a & -> & Hin). by exists a.
Qed.

(** X4. With [Math.random()] in [0, 1) a generated room code has exactly
    five characters, each one of the 32 characters of the code alphabet
    (so none of the glyphs 0, O, 1 and I). *)
Theorem generateRoomCode_format rnd :
  (forall i, (i < 5)%nat -> isRandom (rnd i) = true) ->
  String.length (generateRoomCode rnd) = 5%nat /\
  Forall (fun a => a ∈ list_ascii_of_string roomCodeChars
                   /\ a ∉ list_ascii_of_string "0O1I")
    (list_ascii_of_string (generateRoomCode rnd)).
Proof.
  intros Hr. unfold generateRoomCode. simpl.
  destruct (randomChar_spec (rnd 0%nat) (Hr 0%nat ltac:(lia))) as (a0 & -> & H0).
  destruct (randomChar_spec (rnd 1%nat) (Hr 1%nat ltac:(lia))) as (a1 & -> & H1).
  destruct (randomChar_spec (rnd 2%nat) (Hr 2%nat ltac:(lia))) as (a2 & -> & H2).
  destruct (randomChar_spec (rnd 3%nat) (Hr 3%nat ltac:(lia))) as (a3 & -> & H3).
  destruct (randomChar_spec (rnd 4%nat) (Hr 4%nat ltac:(lia))) as (a4 & -> & H4).
  simpl. split; [done|].
  assert (forall a, a ∈ list_ascii_of_string roomCodeChars ->
            a ∉ list_ascii_of_string "0O1I") as Hno.
  { intros a Ha Hb. revert Ha. apply Forall_forall with (x := a) (l := list_ascii_of_string "0O1I"); [|done].
    apply (bool_decide_unpack _). vm_compute. reflexivity. }
  repeat (apply Forall_cons; split; [split; [assumption | by apply Hno] |]).
  apply Forall_nil. done.
Qed.

Lemma generateRoomCode_format_witness :
  String.length (generateRoomCode zeros) = 5%nat /\
  Forall (fun a => a ∈ list_ascii_of_string roomCodeChars
                   /\ a ∉ list_ascii_of_string "0O1I")
    (list_ascii_of_string (generateRoomCode zeros)).
Proof. apply generateRoomCode_format. intros i _. reflexivity. Defined.

(** ** Category assembly *)

Lemma categoryKeys_fst_from (l : list string) (n : nat) :
  map fst (imap (fun i catName => ("cat_" +:+ pretty (n + i)%nat, catName)) l)
  = map (fun i => "cat_" +:+ pretty i) (seq n (length l)).
Proof.
  revert n. induction l as [|x l IH]; intros n; [done|].
  simpl. rewrite Nat.add_0_r. f_equal.
  rewrite <- (IH (S n)). f_equal. apply imap_ext. intros i y _. simpl.
  by rewrite Nat.add_succ_r.
Qed.

Lemma categoryKeys_fst (l : list string) :
  map fst (categoryKeys l)
  = map (fun i => "cat_" +:+ pretty i) (seq 0 (length l)).
Proof. apply (categoryKeys_fst_from l 0). Qed.

Lemma imap_pair_snd {A B} (f : nat -> A) (l : list B) :
  map snd (imap (fun i y => (f i, y)) l) = l.
Proof.
  revert f. induction l as [|x l IH]; intros f; [done|]. simpl. f_equal.
  apply (IH (fun i => f (S i))).
Qed.

Lemma categoryKeys_snd (l : list string) : map snd (categoryKeys l) = l.
Proof. apply imap_pair_snd. Qed.

Lemma catKey_NoDup (n : nat) :
  NoDup (map (fun i => "cat_" +:+ pretty i) (seq 0 n)).
Proof.
  assert (Inj (=) (=) (fun i : nat => "cat_" +:+ pretty i)) as Hinj.
  { intros i j Hij. simpl in Hij. injection Hij as Hij.
    exact (inj pretty _ _ Hij). }
  exact (NoDup_fmap_2 _ _ (NoDup_seq 0 n)).
Qed.

Lemma catKey_not_bonus (n : nat) :
  "bonus" ∉ map (fun i => "cat_" +:+ pretty i) (seq 0 n).
Proof.
  intros Hin. apply list_elem_of_fmap in Hin as (i & Hi & _). discriminate.
Qed.

(** X5. With [Math.random()] in [0, 1), [setupCategories] returns the
    configured category names (the seven defaults when the setting is
    falsy) in order under the keys [cat_0], [cat_1], ...; when the bonus
    is enabled one more entry follows under the key [bonus], whose name
    is one of the eight bonus categories. The keys are pairwise distinct. *)
Theorem setupCategories_keys r room :
  isRandom r = true ->
  let names := default DEFAULT_CATEGORIES (categories (settings room)) in
  exists cats,
    setupCategories r room = Some cats /\
    NoDup (map fst cats) /\
    if useBonus (settings room) then
      exists b, b ∈ BONUS_CATEGORIES /\
        map fst cats
        = (map (fun i => "cat_" +:+ pretty i) (seq 0 (length names))
           ++ ["bonus"])%list /\
        map snd cats = (names ++ [b])%list
    else
      map fst cats = map (fun i => "cat_" +:+ pretty i) (seq 0 (length names)) /\
      map snd cats = names.
Proof.
  intros Hr names. unfold setupCategories. fold names.
  destruct (useBonus (settings room)).
  - destruct (randomIndex_lt r (length BONUS_CATEGORIES) Hr) as (i & -> & Hi).
    { simpl. lia. }
    destruct (lookup_lt_is_Some_2 _ _ Hi) as [b Hb]. rewrite Hb.
    eexists. split; [reflexivity|].
    rewrite !map_app, categoryKeys_fst, categoryKeys_snd. simpl. split.
    + apply NoDup_app. split; [apply catKey_NoDup|]. split.
      * intros x Hx Hb'. apply list_elem_of_singleton in Hb'. subst x.
        by apply catKey_not_bonus in Hx.
      * apply NoDup_singleton.
    + exists b. split; [by eapply list_elem_of_lookup_2|]. done.
  - eexists. split; [reflexivity|].
    rewrite categoryKeys_fst, categoryKeys_snd.
    split; [apply catKey_NoDup|done].
Qed.

Lemma setupCategories_keys_witness :
  exists cats,
    setupCategories 0 bakuRoom = Some cats /\
    NoDup (map fst cats) /\ map fst cats = ["cat_0"] /\ map snd cats = ["ქალაქი"].
Proof.
  destruct (setupCategories_keys 0 bakuRoom eq_refl)
    as (cats & H1 & H2 & H3).
  exists cats. split; [exact H1|]. split; [exact H2|]. exact H3.
Defined.

(** ** More on the scoring pass *)

Section ScoringBounds.
Context {engine : Engine}.

Lemma scoreAnswer_values all letter P c :
  let e := scoreAnswer all letter P c in
  invalidatedBy e = None /\
  (points e = 0 /\ isValid e = false \/
   (points e = 10 \/ points e = 20) /\ isValid e = true).
Proof.
  unfold scoreAnswer. cbn zeta.
  destruct ((0 <? String.length (normalized P c))%nat
            && startsWith (normalized P c) (toLowerCase letter)); simpl.
  - split; [done|]. right. split; [|done].
    rewrite duplicatePenalty_fold. destruct (existsb _ all); auto.
  - split; [done|]. by left.
Qed.

Lemma scoreCategories_lookup all letter P cats c :
  fst (scoreCategories all letter P cats) !! c
  = if bool_decide (c ∈ cats) then Some (scoreAnswer all letter P c) else None.
Proof.
  destruct (scoreCategories_acc all letter P cats ∅ 0) as [H _].
  cbn zeta in H. unfold scoreCategories. rewrite H.
  by case_bool_decide.
Qed.

Lemma scoreCategories_sum_bounds all letter P cats :
  0 <= snd (scoreCategories all letter P cats)
    <= 20 * Z.of_nat (length cats).
Proof.
  destruct (scoreCategories_spec all letter P cats) as [_ ->].
  induction cats as [|c cats IH]; unfold Zsum in *; simpl; [lia|].
  destruct (scoreAnswer_values all letter P c) as (_ & [[-> _]|[[->| ->] _]]);
    lia.
Qed.

(** X6. The scoring pass rebuilds [categoryScores] of every player: the
    new map holds exactly the active category keys, every entry is either
    0 points and not valid or 10 or 20 points and valid, and none is
    marked invalidated (marks of an earlier pass are gone). The round
    score lies between 0 and 20 times the number of categories, the total
    does not decrease, and the pass changes neither the game state, the
    settings, the host nor the seat order. *)
Theorem calculateScores_bounds (room : Room) (i : nat) (k : string) (P : Player) :
  players room !! i = Some (k, P) ->
  let cats := map fst (activeCategories (gameState room)) in
  exists P' scores,
    players (calculateScores room) !! i = Some (k, P') /\
    categoryScores P' = Some scores /\
    (forall c, is_Some (scores !! c) <-> c ∈ cats) /\
    (forall c e, scores !! c = Some e ->
       invalidatedBy e = None /\
       (points e = 0 /\ isValid e = false \/
        (points e = 10 \/ points e = 20) /\ isValid e = true)) /\
    0 <= roundScore P' <= 20 * Z.of_nat (length cats) /\
    totalScore P <= totalScore P' /\
    gameState (calculateScores room) = gameState room /\
    settings (calculateScores room) = settings room /\
    hostId (calculateScores room) = hostId room /\
    map fst (players (calculateScores room)) = map fst (players room).
Proof.
  intros Hi cats.
  set (all := JsMap.values (players room)).
  set (letter := currentLetter (gameState room)).
  exists (scorePlayer all letter cats P), (fst (scoreCategories all letter P cats)).
  pose proof (scoreCategories_sum_bounds all letter P cats) as Hb.
  split.
  { unfold calculateScores, forEachPlayer, JsMap.forEach. simpl.
    rewrite list_lookup_fmap. fold all letter cats. by rewrite Hi. }
  split; [done|]. split.
  { intros c. rewrite scoreCategories_lookup. case_bool_decide as Hc; split.
    - by intros _.
    - intros _. by eexists.
    - by intros [? ?].
    - intros ?. contradiction. }
  split.
  { intros c e. rewrite scoreCategories_lookup. case_bool_decide; [|done].
    intros [= <-]. apply scoreAnswer_values. }
  split; [exact Hb|]. split; [simpl; lia|].
  split; [done|]. split; [done|]. split; [done|].
  unfold calculateScores, forEachPlayer, JsMap.forEach. simpl.
  rewrite map_map. done.
Qed.

(** X7. Two players of the room with different ids whose normalized
    answers for an active category are equal, non-empty and start with
    the lowercased letter both get 10 points for it. *)
Theorem calculateScores_duplicates (room : Room) (i j : nat) (ki kj c : string)
    (P Q : Player) :
  players room !! i = Some (ki, P) ->
  players room !! j = Some (kj, Q) ->
  id P <> id Q ->
  c ∈ map fst (activeCategories (gameState room)) ->
  normalized P c = normalized Q c ->
  accepted (currentLetter (gameState room)) P c ->
  exists P' Q' sp sq ep eq_,
    players (calculateScores room) !! i = Some (ki, P') /\
    players (calculateScores room) !! j = Some (kj, Q') /\
    categoryScores P' = Some sp /\ sp !! c = Some ep /\ points ep = 10 /\
    categoryScores Q' = Some sq /\ sq !! c = Some eq_ /\ points eq_ = 10.
Proof.
  intros Hi Hj Hid Hc Hn Hacc.
  set (all := JsMap.values (players room)).
  set (letter := currentLetter (gameState room)).
  set (cats := map fst (activeCategories (gameState room))).
  assert (P ∈ all) as HP.
  { apply list_elem_of_fmap. exists (ki, P). split; [done|].
    by eapply list_elem_of_lookup_2. }
  assert (Q ∈ all) as HQ.
  { apply list_elem_of_fmap. exists (kj, Q). split; [done|].
    by eapply list_elem_of_lookup_2. }
  assert (accepted letter Q c) as HaccQ.
  { destruct Hacc as [H1 H2]. split; by rewrite <- Hn. }
  exists (scorePlayer all letter cats P), (scorePlayer all letter cats Q),
    (fst (scoreCategories all letter P cats)),
    (fst (scoreCategories all letter Q cats)),
    (scoreAnswer all letter P c), (scoreAnswer all letter Q c).
  assert (forall n kk R, players room !! n = Some (kk, R) ->
            players (calculateScores room) !! n
            = Some (kk, scorePlayer all letter cats R)) as Hlook.
  { intros n kk R Hn'. unfold calculateScores, forEachPlayer, JsMap.forEach.
    simpl. rewrite list_lookup_fmap. fold all letter cats. by rewrite Hn'. }
  split; [by apply Hlook|]. split; [by apply Hlook|].
  split; [done|]. split.
  { rewrite scoreCategories_lookup. by rewrite bool_decide_eq_true_2. }
  split.
  { destruct (scoreAnswer_rule all letter P c) as (_ & _ & _ & Hy).
    destruct (Hy Hacc) as (_ & Hd & _). apply Hd.
    exists Q. split; [done|]. split; [congruence|]. done. }
  split; [done|]. split.
  { rewrite scoreCategories_lookup. by rewrite bool_decide_eq_true_2. }
  destruct (scoreAnswer_rule all letter Q c) as (_ & _ & _ & Hy).
  destruct (Hy HaccQ) as (_ & Hd & _). apply Hd.
  exists P. split; [done|]. split; [done|]. done.
Qed.

End ScoringBounds.

Lemma calculateScores_bounds_witness :
  exists P' scores,
    players (calculateScores (engine := basicEngine) bakuRoom) !! 1%nat
    = Some ("p2", P') /\
    categoryScores P' = Some scores /\
    0 <= roundScore P' <= 20 /\ 5 <= totalScore P'.
Proof.
  destruct (calculateScores_bounds (engine := basicEngine) bakuRoom 1 "p2"
              (bakuPlayer "p2") eq_refl)
    as (P' & scores & H1 & H2 & _ & _ & H5 & H6 & _).
  exists P', scores. split; [exact H1|]. split; [exact H2|].
  split; [exact H5|exact H6].
Defined.

Lemma calculateScores_duplicates_witness :
  exists P' Q' sp sq ep eq_,
    players (calculateScores (engine := basicEngine) bakuRoom) !! 0%nat
    = Some ("p1", P') /\
    players (calculateScores (engine := basicEngine) bakuRoom) !! 2%nat
    = Some ("p3", Q') /\
    categoryScores P' = Some sp /\ sp !! "cat_0" = Some ep /\ points ep = 10 /\
    categoryScores Q' = Some sq /\ sq !! "cat_0" = Some eq_ /\ points eq_ = 10.
Proof.
  apply (calculateScores_duplicates (engine := basicEngine) bakuRoom 0 2
           "p1" "p3" "cat_0" (bakuPlayer "p1") (bakuPlayer "p3")).
  - reflexivity.
  - reflexivity.
  - discriminate.
  - apply elem_of_cons. by left.
  - reflexivity.
  - split; [discriminate|reflexivity].
Defined.

(** ** Final standings *)

Lemma insertByTotal_perm p l : insertByTotal p l ≡ₚ p :: l.
Proof.
  induction l as [|q l IH]; simpl; [done|].
  destruct (totalScore q - totalScore p <=? 0); [done|].
  rewrite IH. apply Permutation_swap.
Qed.

Lemma insertByTotal_sorted p l :
  StronglySorted (fun a b => totalScore b <= totalScore a) l ->
  StronglySorted (fun a b => totalScore b <= totalScore a) (insertByTotal p l).
Proof.
  induction 1 as [|q l Hs IH Hq]; simpl.
  - repeat constructor.
  - destruct (totalScore q - totalScore p <=? 0) eqn:E.
    + apply Z.leb_le in E. constructor; [by constructor|].
      constructor; [lia|]. eapply Forall_impl; [exact Hq|]. simpl. lia.
    + apply Z.leb_gt in E. constructor; [exact IH|].
      rewrite insertByTotal_perm. constructor; [lia|exact Hq].
Qed.

Lemma insertByTotal_stable t p l :
  filter (fun a => totalScore a = t) (insertByTotal p l)
  = filter (fun a => totalScore a = t) (p :: l).
Proof.
  induction l as [|q l IH]; simpl; [done|].
  destruct (totalScore q - totalScore p <=? 0) eqn:E; [done|].
  apply Z.leb_gt in E. rewrite filter_cons, IH, !filter_cons.
  repeat case_decide; try done; lia.
Qed.

Lemma imap_standing_fields (f : nat -> Z) (l : list Player) :
  map (fun st => (st_id st, st_nick st, st_avatarSeed st, st_totalScore st))
    (imap (fun idx p => mkStanding (f idx) (id p) (nick p) (avatarSeed p)
                          (totalScore p)) l)
  = map (fun p => (id p, nick p, avatarSeed p, totalScore p)) l.
Proof.
  revert f. induction l as [|p l IH]; intros f; simpl; [done|]. f_equal.
  apply (IH (fun i => f (S i))).
Qed.

Lemma imap_standing_rank (f : nat -> Z) (l : list Player) :
  map st_rank
    (imap (fun idx p => mkStanding (f idx) (id p) (nick p) (avatarSeed p)
                          (totalScore p)) l)
  = map f (seq 0 (length l)).
Proof.
  revert f. induction l as [|p l IH]; intros f; simpl; [done|]. f_equal.
  rewrite <- seq_shift, map_map. apply (IH (fun i => f (S i))).
Qed.

(** X8. The final standings list every player of the room once, ordered
    by total score, highest first; players with equal totals keep their
    seat order; the ranks are 1, 2, ... in list order. *)
Theorem standings_sorted_stable (room : Room) :
  let seats := JsMap.values (players room) in
  sortByTotal seats ≡ₚ seats /\
  StronglySorted (fun a b => totalScore b <= totalScore a) (sortByTotal seats) /\
  (forall t, filter (fun a => totalScore a = t) (sortByTotal seats)
             = filter (fun a => totalScore a = t) seats) /\
  map (fun st => (st_id st, st_nick st, st_avatarSeed st, st_totalScore st))
    (standingsOf room)
  = map (fun p => (id p, nick p, avatarSeed p, totalScore p)) (sortByTotal seats) /\
  map st_rank (standingsOf room)
  = map (fun i => Z.of_nat i + 1) (seq 0 (length seats)).
Proof.
  intros seats.
  assert (sortByTotal seats ≡ₚ seats) as Hperm.
  { induction seats as [|p l IH]; simpl; [done|].
    by rewrite insertByTotal_perm, IH. }
  split; [exact Hperm|]. split.
  { induction seats as [|p l IH]; simpl; [constructor|].
    apply insertByTotal_sorted, IH. clear Hperm IH.
    induction l as [|q l IH]; simpl; [done|]. by rewrite insertByTotal_perm, IH. }
  split.
  { intros t. clear Hperm. induction seats as [|p l IH]; simpl; [done|].
    by rewrite insertByTotal_stable, !filter_cons, IH. }
  unfold standingsOf. fold seats.
  assert (length (sortByTotal seats) = length seats) as Hlen
    by (by rewrite Hperm).
  rewrite <- Hlen. split.
  - apply (imap_standing_fields (fun idx => Z.of_nat idx + 1)).
  - apply (imap_standing_rank (fun idx => Z.of_nat idx + 1)).
Qed.

(** ** The ordered map *)

Lemma JsMap_keys_update {V} k (f : V -> V) (m : list (string * V)) :
  JsMap.keys (JsMap.update k f m) = JsMap.keys m.
Proof.
  unfold JsMap.keys, JsMap.update. rewrite map_map. apply map_ext.
  intros [k' v]. simpl. by destruct (String.eqb k k').
Qed.

Lemma JsMap_keys_forEach {V} (f : V -> V) (m : list (string * V)) :
  JsMap.keys (JsMap.forEach f m) = JsMap.keys m.
Proof. unfold JsMap.keys, JsMap.forEach. by rewrite map_map. Qed.

Lemma JsMap_get_Some_elem {V} k (v : V) m :
  JsMap.get k m = Some v -> (k, v) ∈ m.
Proof.
  induction m as [|[k' v'] m IH]; simpl; [done|].
  destruct (String.eqb k k') eqn:E.
  - apply String.eqb_eq in E. intros [= ->]. subst. apply elem_of_cons. by left.
  - intros H. apply elem_of_cons. right. by apply IH.
Qed.

Lemma JsMap_get_None {V} k (m : list (string * V)) :
  JsMap.get k m = None <-> k ∉ JsMap.keys m.
Proof.
  induction m as [|[k' v'] m IH]; simpl.
  - split; [intros _ H; by apply elem_of_nil in H|done].
  - destruct (String.eqb k k') eqn:E.
    + apply String.eqb_eq in E. subst. split; [done|].
      intros H. destruct H. apply elem_of_cons. by left.
    + apply String.eqb_neq in E. rewrite IH. split.
      * intros H [?|?]%elem_of_cons; [done|by apply H].
      * intros H Hin. apply H. apply elem_of_cons. by right.
Qed.

Lemma JsMap_get_is_Some {V} k (m : list (string * V)) :
  is_Some (JsMap.get k m) <-> k ∈ JsMap.keys m.
Proof.
  destruct (JsMap.get k m) as [v|] eqn:E.
  - split; [|by eexists]. intros _.
    destruct (decide (k ∈ JsMap.keys m)) as [|Hn]; [done|].
    apply JsMap_get_None in Hn. congruence.
  - split; [by intros [? ?]|]. intros Hin. apply JsMap_get_None in E. done.
Qed.

(** [set] then [get]. *)
Lemma JsMap_get_set {V} k k' (v : V) m :
  JsMap.get k' (JsMap.set k v m)
  = if String.eqb k' k then Some v else JsMap.get k' m.
Proof.
  induction m as [|[k0 v0] m IH]; simpl.
  - done.
  - destruct (String.eqb k k0) eqn:E; simpl.
    + apply String.eqb_eq in E. subst k0.
      destruct (String.eqb k' k); done.
    + destruct (String.eqb k' k0) eqn:E'; [|exact IH].
      apply String.eqb_eq in E'. subst k0.
      destruct (String.eqb k' k) eqn:E2; [|done].
      apply String.eqb_eq in E2. subst. rewrite String.eqb_refl in E. done.
Qed.

Lemma JsMap_keys_set {V} k (v : V) m :
  JsMap.keys (JsMap.set k v m)
  = if bool_decide (k ∈ JsMap.keys m) then JsMap.keys m
    else (JsMap.keys m ++ [k])%list.
Proof.
  induction m as [|[k0 v0] m IH]; simpl; [done|].
  destruct (String.eqb k k0) eqn:E; simpl.
  - apply String.eqb_eq in E. subst.
    rewrite bool_decide_eq_true_2; [done|]. apply elem_of_cons. by left.
  - apply String.eqb_neq in E. rewrite IH.
    destruct (decide (k ∈ JsMap.keys m)) as [Hin|Hn].
    + rewrite !bool_decide_eq_true_2; [done| |done]. apply elem_of_cons. by right.
    + rewrite !bool_decide_eq_false_2; [done| |done].
      intros [?|?]%elem_of_cons; done.
Qed.

Lemma JsMap_length_set {V} k (v : V) m :
  length (JsMap.set k v m)
  = if bool_decide (k ∈ JsMap.keys m) then length m else S (length m).
Proof.
  rewrite <- (length_map fst (JsMap.set k v m)).
  change (map fst (JsMap.set k v m)) with (JsMap.keys (JsMap.set k v m)).
  rewrite JsMap_keys_set. case_bool_decide.
  - unfold JsMap.keys. by rewrite length_map.
  - rewrite length_app. unfold JsMap.keys. rewrite length_map. simpl. lia.
Qed.

(** [delete]: with distinct keys the deleted key is gone and the others
    stay. *)
Lemma JsMap_get_delete {V} k k' (m : list (string * V)) :
  NoDup (JsMap.keys m) ->
  JsMap.get k' (JsMap.delete k m)
  = if String.eqb k' k then None else JsMap.get k' m.
Proof.
  induction m as [|[k0 v0] m IH]; simpl; intros Hnd.
  - by destruct (String.eqb k' k).
  - apply NoDup_cons in Hnd as [Hn Hnd].
    destruct (String.eqb k k0) eqn:E.
    + apply String.eqb_eq in E. subst k0.
      destruct (String.eqb k' k) eqn:E'; [|done].
      apply String.eqb_eq in E'. subst. by apply JsMap_get_None.
    + simpl. destruct (String.eqb k' k0) eqn:E'.
      * apply String.eqb_eq in E'. subst k0.
        destruct (String.eqb k' k) eqn:E2; [|done].
        apply String.eqb_eq in E2. subst. by rewrite String.eqb_refl in E.
      * by apply IH.
Qed.

Lemma JsMap_length_delete {V} k (m : list (string * V)) :
  (length (JsMap.delete k m) <= length m)%nat.
Proof.
  induction m as [|[k0 v0] m IH]; simpl; [done|].
  destruct (String.eqb k k0); simpl; lia.
Qed.

Lemma JsMap_elem_keys_delete {V} k k' (m : list (string * V)) :
  NoDup (JsMap.keys m) ->
  k' ∈ JsMap.keys (JsMap.delete k m) <-> k' ∈ JsMap.keys m /\ k' <> k.
Proof.
  intros Hnd. rewrite <- !JsMap_get_is_Some, JsMap_get_delete by done.
  destruct (String.eqb k' k) eqn:E.
  - apply String.eqb_eq in E. split; [by intros [? ?]|]. by intros [_ ?].
  - apply String.eqb_neq in E. tauto.
Qed.

Lemma JsMap_NoDup_delete {V} k (m : list (string * V)) :
  NoDup (JsMap.keys m) -> NoDup (JsMap.keys (JsMap.delete k m)).
Proof.
  induction m as [|[k0 v0] m IH]; simpl; [done|].
  intros [Hn Hnd]%NoDup_cons. destruct (String.eqb k k0) eqn:E; [done|].
  simpl. apply NoDup_cons. split; [|by apply IH].
  intros Hin. apply JsMap_elem_keys_delete in Hin as [? _]; done.
Qed.

Lemma JsMap_NoDup_set {V} k (v : V) (m : list (string * V)) :
  NoDup (JsMap.keys m) -> NoDup (JsMap.keys (JsMap.set k v m)).
Proof.
  intros Hnd. rewrite JsMap_keys_set. case_bool_decide; [done|].
  apply NoDup_app. split; [done|]. split; [|apply NoDup_singleton].
  intros x Hx Hk. apply list_elem_of_singleton in Hk. by subst.
Qed.

(** ** Well-formedness is kept *)

Lemma JsMap_elem_get {V} k (v : V) (m : list (string * V)) :
  NoDup (JsMap.keys m) -> (k, v) ∈ m -> JsMap.get k m = Some v.
Proof.
  induction m as [|[k0 v0] m IH]; simpl; intros Hnd Hin.
  - by apply elem_of_nil in Hin.
  - apply NoDup_cons in Hnd as [Hn Hnd].
    apply elem_of_cons in Hin as [[= <- <-]|Hin].
    + by rewrite String.eqb_refl.
    + destruct (String.eqb k k0) eqn:E; [|by apply IH].
      apply String.eqb_eq in E. subst k0. destruct Hn.
      apply list_elem_of_fmap. by exists (k, v).
Qed.

Lemma playersOK_forEach host (f : Player -> Player) ps :
  (forall p, id (f p) = id p) ->
  playersOK host ps -> playersOK host (JsMap.forEach f ps).
Proof.
  intros Hf (Hid & Hnd & Hlen & Hh). unfold playersOK.
  rewrite JsMap_keys_forEach. unfold JsMap.forEach at 1 2 3.
  rewrite length_map. split; [|split; [done|split; [done|]]].
  - apply Forall_fmap. eapply Forall_impl; [exact Hid|].
    intros [k p]. simpl. intros <-. apply Hf.
  - intros Hne. apply Hh. intros ->. by apply Hne.
Qed.

Lemma playersOK_update host k (f : Player -> Player) ps :
  (forall p, JsMap.get k ps = Some p -> id (f p) = id p) ->
  playersOK host ps -> playersOK host (JsMap.update k f ps).
Proof.
  intros Hf (Hid & Hnd & Hlen & Hh). unfold playersOK.
  rewrite JsMap_keys_update. unfold JsMap.update at 1 2 3.
  rewrite length_map. split; [|split; [done|split; [done|]]].
  - apply Forall_fmap. apply Forall_forall. intros [k' p] Hin. simpl.
    pose proof (proj1 (Forall_forall _ _) Hid _ Hin) as Hp. simpl in Hp.
    destruct (String.eqb k k') eqn:E; simpl; [|done].
    apply String.eqb_eq in E as <-. rewrite Hf; [done|].
    by apply JsMap_elem_get.
  - intros Hne. apply Hh. intros ->. by apply Hne.
Qed.

Lemma playersOK_set host k v ps :
  playersOK host ps -> ps <> [] -> (length ps < 8)%nat -> id v = k ->
  playersOK host (JsMap.set k v ps).
Proof.
  intros (Hid & Hnd & Hlen & Hh) Hne Hlt Hv. unfold playersOK.
  split; [|split; [by apply JsMap_NoDup_set|split]].
  - clear -Hid Hv. induction ps as [|[k0 v0] ps IH]; simpl.
    + by repeat constructor.
    + apply Forall_cons in Hid as [H0 Hid].
      destruct (String.eqb k k0) eqn:E.
      * apply String.eqb_eq in E. subst k0. by constructor.
      * constructor; [done|by apply IH].
  - rewrite JsMap_length_set. case_bool_decide; lia.
  - intros _. rewrite JsMap_keys_set. case_bool_decide; [by apply Hh|].
    apply elem_of_app. left. by apply Hh.
Qed.

Lemma playersOK_delete host k ps :
  playersOK host ps -> k <> host -> playersOK host (JsMap.delete k ps).
Proof.
  intros (Hid & Hnd & Hlen & Hh) Hk. unfold playersOK.
  split; [|split; [by apply JsMap_NoDup_delete|split]].
  - clear -Hid. induction ps as [|[k0 v0] ps IH]; simpl; [done|].
    apply Forall_cons in Hid as [H0 Hid].
    destruct (String.eqb k k0); [done|]. constructor; [done|by apply IH].
  - pose proof (JsMap_length_delete k ps). lia.
  - intros Hne. apply JsMap_elem_keys_delete; [done|]. split; [|done].
    apply Hh. intros ->. by apply Hne.
Qed.

(** Removal of a player followed by host succession. *)
Lemma roomOK_remove pid room room2 msgs :
  roomOK room ->
  promoteFirst pid (set_players (JsMap.delete pid (players room)) room)
  = (room2, msgs) ->
  roomOK room2.
Proof.
  intros [(Hid & Hnd & Hlen & Hh) Hl]. unfold promoteFirst. simpl.
  assert (Forall (fun kv => id (snd kv) = fst kv) (JsMap.delete pid (players room)))
    as Hid'.
  { clear -Hid. induction (players room) as [|[k0 v0] ps IH]; simpl; [done|].
    apply Forall_cons in Hid as [H0 Hid].
    destruct (String.eqb pid k0); [done|]. constructor; [done|by apply IH]. }
  pose proof (JsMap_NoDup_delete pid _ Hnd) as Hnd'.
  pose proof (JsMap_length_delete pid (players room)) as Hlen'.
  assert (JsMap.delete pid (players room) <> [] -> hostId room <> pid ->
          hostId room ∈ JsMap.keys (JsMap.delete pid (players room))) as Hh'.
  { intros Hne Hp. apply JsMap_elem_keys_delete; [done|]. split; [|done].
    apply Hh. intros Hps. rewrite Hps in Hne. done. }
  revert Hid' Hnd' Hlen' Hh'.
  generalize (JsMap.delete pid (players room)). intros ps' Hid' Hnd' Hlen' Hh'.
  destruct (String.eqb (hostId room) pid) eqn:E.
  - destruct ps' as [|[k newHost] rest]; intros [= <- _]; split; simpl; try done.
    + split; [done|]. split; [done|]. split; [simpl in *; lia|done].
    + apply Forall_cons in Hid' as [Hk Hrest]. simpl in Hk.
      split; [by constructor|]. split; [done|]. split; [simpl in *; lia|].
      intros _. rewrite Hk. apply elem_of_cons. by left.
  - apply String.eqb_neq in E. intros [= <- _]. split; [|done]. simpl.
    split; [done|]. split; [done|]. split; [lia|].
    intros Hne. by apply Hh'.
Qed.

Lemma lettersOK_draw r g l g' :
  lettersOK g -> drawLetter r g = Some (l, g') -> lettersOK g'.
Proof.
  intros [Hu Hc]. unfold drawLetter, selectRandomLetter.
  assert (forall x, x ∈ GEORGIAN_ALPHABET -> {[x]} ⊆ alphabetSet) as Hin.
  { intros x Hx. apply singleton_subseteq_l. unfold alphabetSet.
    by apply elem_of_list_to_set. }
  destruct (length (availableLetters g) =? 0)%nat.
  - destruct (randomIndex r (length GEORGIAN_ALPHABET)) as [i|]; [|done].
    destruct (GEORGIAN_ALPHABET !! i) as [l0|] eqn:E; [|done].
    intros [= <- <-]. apply list_elem_of_lookup_2 in E. split; simpl.
    + apply union_subseteq. split; [by apply Hin|apply empty_subseteq].
    + by right.
  - destruct (randomIndex r (length (availableLetters g))) as [i|]; [|done].
    destruct (availableLetters g !! i) as [l0|] eqn:E; [|done].
    intros [= <- <-]. apply list_elem_of_lookup_2 in E.
    apply available_spec in E as [E _]. split; simpl.
    + apply union_subseteq. split; [by apply Hin|done].
    + by right.
Qed.

Lemma remove_code pid room room2 msgs :
  promoteFirst pid (set_players (JsMap.delete pid (players room)) room)
  = (room2, msgs) ->
  code room2 = code room.
Proof.
  unfold promoteFirst. simpl.
  destruct (String.eqb (hostId room) pid); [|by intros [= <- _]].
  destruct (JsMap.delete pid (players room)) as [|[k newHost] rest];
    by intros [= <- _].
Qed.

Lemma wfOn_put h rs ref room room' :
  wfOn h rs -> h !! ref = Some room ->
  code room' = code room ->
  (roomOK room -> roomOK room') ->
  (players room <> [] -> players room' <> []) ->
  wfOn (<[ref := room']> h) rs.
Proof.
  intros (Hr & Hnd & Hreg) Href Hcode Hok Hne.
  split; [|split; [done|]].
  - intros r rm Hl. destruct (decide (r = ref)) as [->|Hd].
    + rewrite list_lookup_insert_eq in Hl by (by eapply lookup_lt_Some).
      injection Hl as <-. apply Hok. by eapply Hr.
    + rewrite list_lookup_insert_ne in Hl by done. by eapply Hr.
  - intros c r Hc. destruct (Hreg c r Hc) as (rm & Hl & Hcd & Hn).
    destruct (decide (r = ref)) as [->|Hd].
    + exists room'. rewrite list_lookup_insert_eq by (by eapply lookup_lt_Some).
      assert (rm = room) as -> by congruence.
      split; [done|]. split; [congruence|]. by apply Hne.
    + exists rm. by rewrite list_lookup_insert_ne.
Qed.

(** An update of a registered room, which is known to have players. *)
Lemma wfOn_put_registered h rs rc ref room room' :
  wfOn h rs -> JsMap.get rc rs = Some ref -> h !! ref = Some room ->
  code room' = code room ->
  (roomOK room -> players room <> [] -> roomOK room' /\ players room' <> []) ->
  wfOn (<[ref := room']> h) rs.
Proof.
  intros Hwf Hc Href Hcode Hstep. pose proof Hwf as (Hr & _ & Hreg).
  destruct (Hreg rc ref Hc) as (rm & Hl & _ & Hn).
  assert (rm = room) as -> by congruence.
  destruct (Hstep (Hr _ _ Href) Hn) as [Hok Hne].
  by eapply wfOn_put.
Qed.

(** An update of a registered room together with its removal from the
    registry. *)
Lemma wfOn_put_unregister h rs rc ref room room' :
  wfOn h rs -> JsMap.get rc rs = Some ref -> h !! ref = Some room ->
  (roomOK room -> roomOK room') ->
  wfOn (<[ref := room']> h) (JsMap.delete rc rs).
Proof.
  intros (Hr & Hnd & Hreg) Hc Href Hok.
  assert (forall c r, JsMap.get c (JsMap.delete rc rs) = Some r ->
            JsMap.get c rs = Some r /\ c <> rc) as Hdel.
  { intros c r. rewrite JsMap_get_delete by done.
    destruct (String.eqb c rc) eqn:E; [done|].
    apply String.eqb_neq in E. done. }
  destruct (Hreg rc ref Hc) as (rm0 & Hl0 & Hcd0 & _).
  split; [|split; [by apply JsMap_NoDup_delete|]].
  - intros r rm Hl. destruct (decide (r = ref)) as [->|Hd].
    + rewrite list_lookup_insert_eq in Hl by (by eapply lookup_lt_Some).
      injection Hl as <-. apply Hok. by eapply Hr.
    + rewrite list_lookup_insert_ne in Hl by done. by eapply Hr.
  - intros c r [Hc' Hne]%Hdel. destruct (Hreg c r Hc') as (rm & Hl & Hcd & Hn).
    destruct (decide (r = ref)) as [->|Hd].
    + destruct Hne. congruence.
    + exists rm. by rewrite list_lookup_insert_ne.
Qed.

Lemma wfOn_create h rs room :
  wfOn h rs -> roomOK room -> players room <> [] ->
  wfOn (h ++ [room]) (JsMap.set (code room) (length h) rs).
Proof.
  intros (Hr & Hnd & Hreg) Hok Hne.
  assert (forall c' r, JsMap.get c' (JsMap.set (code room) (length h) rs) = Some r ->
            (c' = code room /\ r = length h)
            \/ (c' <> code room /\ JsMap.get c' rs = Some r))
    as Hset.
  { intros c' r. rewrite JsMap_get_set.
    destruct (String.eqb c' (code room)) eqn:E.
    - apply String.eqb_eq in E. intros [= <-]. by left.
    - apply String.eqb_neq in E. by right. }
  split; [|split; [by apply JsMap_NoDup_set|]].
  - intros r rm Hl. apply lookup_app_Some in Hl as [Hl|[_ Hl]].
    + by eapply Hr.
    + destruct (r - length h)%nat; simpl in Hl; [|done]. by injection Hl as <-.
  - intros c' r [[-> ->]|[Hn1 H1]]%Hset.
    + exists room. split; [|done]. rewrite lookup_app_r by done.
      by rewrite Nat.sub_diag.
    + destruct (Hreg c' r H1) as (rm & Hl & Hcd & Hn). exists rm.
      split; [|done]. by apply lookup_app_l_Some.
Qed.

Lemma JsMap_update_nonempty {V} k (f : V -> V) (m : list (string * V)) :
  m <> [] -> JsMap.update k f m <> [].
Proof. by destruct m. Qed.

Lemma JsMap_forEach_nonempty {V} (f : V -> V) (m : list (string * V)) :
  m <> [] -> JsMap.forEach f m <> [].
Proof. by destruct m. Qed.

Lemma JsMap_set_nonempty {V} k (v : V) (m : list (string * V)) :
  JsMap.set k v m <> [].
Proof. destruct m as [|[k0 v0] m]; simpl; [done|]. by destruct (String.eqb k k0). Qed.

Lemma JsMap_size_nonempty {V} (m : list (string * V)) :
  (JsMap.size m =? 0)%nat = false -> m <> [].
Proof. by destruct m. Qed.

Lemma playersOK_kick host k ps :
  playersOK host ps -> ps <> [] -> k <> host -> JsMap.delete k ps <> [].
Proof.
  intros (_ & Hnd & _ & Hh) Hne Hk Hd.
  assert (host ∈ JsMap.keys (JsMap.delete k ps)) as Hin.
  { apply JsMap_elem_keys_delete; [done|]. split; [by apply Hh|done]. }
  rewrite Hd in Hin. by apply elem_of_nil in Hin.
Qed.

Section WellFormedness.
Context {engine : Engine}.

Ltac wf_cases H :=
  repeat match type of H with
         | context [match ?x with _ => _ end] =>
             let E := fresh "E" in destruct x eqn:E; try discriminate H
         | context [if ?x then _ else _] =>
             let E := fresh "E" in destruct x eqn:E; try discriminate H
         end;
  simplify_eq.

Ltac wf_facts :=
  repeat match goal with
         | E : getRoom _ _ = Some (_, _) |- _ =>
             apply getRoom_heap in E as [? ?]
         | E : scanRooms _ _ _ _ = Some _ |- _ => apply scanRooms_heap in E
         | E : setTimeout _ _ _ = (_, _) |- _ =>
             unfold setTimeout in E; simplify_eq
         | E : createRoom _ _ _ _ _ _ _ = (_, _) |- _ =>
             unfold createRoom in E; simplify_eq
         | E : handlePlayerDisconnect _ _ _ _ = (_, _) |- _ =>
             unfold handlePlayerDisconnect in E; wf_cases E
         | E : match _ with _ => _ end = _ |- _ => wf_cases E
         | E : negb _ = false |- _ => apply negb_false_iff in E
         | E : bool_decide _ = true |- _ => apply bool_decide_eq_true in E
         | E : String.eqb _ _ = true |- _ => apply String.eqb_eq in E
         | E : String.eqb _ _ = false |- _ => apply String.eqb_neq in E
         | E : (_ <=? _)%nat = false |- _ => apply Nat.leb_gt in E
         end.

Ltac players_tac :=
  repeat first
    [ assumption
    | apply playersOK_forEach; [intros ?; reflexivity |]
    | apply playersOK_update;
        [intros ? ?;
         first [ reflexivity
               | simplify_eq; unfold toggleEntry;
                 match goal with |- context [truthy ?x] => destruct (truthy x) end;
                 reflexivity ] |]
    | apply playersOK_set; [| assumption | assumption | reflexivity]
    | apply playersOK_delete; [| congruence] ].

Ltac letters_tac :=
  first [ assumption
        | eapply lettersOK_draw; eassumption
        | match goal with
          | H : lettersOK _ |- _ =>
              destruct H as [? ?]; split; simpl;
              [first [assumption | apply empty_subseteq] | assumption]
          end ].

Ltac room_tac :=
  first
    [ assumption
    | eapply roomOK_remove; eassumption
    | match goal with
      | H : roomOK _ |- _ =>
          destruct H as [? ?]; split;
          unfold updPlayer, forEachPlayer, upd_gameState, calculateScores,
            resetToLobby; simpl; [players_tac | letters_tac]
      end ].

Ltac nonempty_tac :=
  unfold updPlayer, forEachPlayer, upd_gameState, calculateScores,
    resetToLobby; simpl;
  repeat first
    [ assumption
    | apply JsMap_update_nonempty
    | apply JsMap_forEach_nonempty
    | apply JsMap_set_nonempty
    | by apply JsMap_size_nonempty
    | match goal with
      | H : roomOK _ |- _ =>
          destruct H as [? ?]; eapply playersOK_kick; [eassumption | assumption | congruence]
      end ].

Ltac code_tac :=
  first [ reflexivity | eapply remove_code; eassumption ].

Ltac wf_goal Hwf :=
  unfold wellFormed, setConn, putRoom, clearTimeout in *;
  repeat match goal with
         | |- context [match ?x with _ => _ end] => destruct x eqn:?
         end;
  simpl;
  first
    [ exact Hwf
    | solve [ eapply wfOn_put_unregister;
              [exact Hwf | eassumption | eassumption | intros ?; room_tac] ]
    | solve [ eapply wfOn_put_registered;
              [exact Hwf | eassumption | eassumption | code_tac
              | intros ? ?; split; [room_tac | nonempty_tac] ] ]
    | solve [ eapply wfOn_put;
              [exact Hwf | eassumption | code_tac | intros ?; room_tac
              | intros ?; nonempty_tac] ]
    | idtac ].

Lemma handle_wellFormed sid c e s s' out :
  wellFormed s -> handle sid c e s = Ok s' out -> wellFormed s'.
Proof.
  intros Hwf H.
  destruct e; simpl in H.
  - unfold onSessionRestore, restoreFound in H. wf_cases H; wf_facts; wf_goal Hwf.
  - unfold onRoomCreate in H. wf_cases H; wf_facts; wf_goal Hwf.
    apply (wfOn_create _ _ (mkRoom _ _ _ _ _)); [exact Hwf| |done]. split.
    + split; [by repeat constructor|]. split; [apply NoDup_singleton|].
      split; [simpl; lia|]. intros _. apply elem_of_cons. by left.
    + split; simpl; [apply empty_subseteq|by left].
  - unfold onRoomJoin in H. wf_cases H; wf_facts; wf_goal Hwf.
  - unfold onPlayerReady in H. wf_cases H; wf_facts; wf_goal Hwf.
  - unfold onSettingsUpdate in H. wf_cases H; wf_facts; wf_goal Hwf.
  - unfold onGameStart in H. wf_cases H; wf_facts; wf_goal Hwf.
  - unfold onSticksDraw in H. wf_cases H; wf_facts; wf_goal Hwf.
  - unfold onPlayerTyping in H. wf_cases H; wf_facts; wf_goal Hwf.
  - unfold onAnswersSubmit in H. wf_cases H; wf_facts; wf_goal Hwf.
  - unfold onRoundStop in H. wf_cases H; wf_facts; wf_goal Hwf.
  - unfold onAnswerInvalidate in H. wf_cases H; wf_facts; wf_goal Hwf.
  - unfold onGameNextRound in H. wf_cases H; wf_facts; wf_goal Hwf.
  - unfold onGameReturnToLobby in H. wf_cases H; wf_facts; wf_goal Hwf.
  - unfold onRoomLeave in H. wf_cases H; wf_facts; wf_goal Hwf.
  - unfold onPlayerKick in H. wf_cases H; wf_facts; wf_goal Hwf.
  - unfold onChatMessage in H. wf_cases H; wf_facts; wf_goal Hwf.
  - unfold onDisconnect in H. wf_cases H; wf_facts; wf_goal Hwf.
Qed.

Lemma fire_wellFormed h r tm s s' out :
  wellFormed s -> timers s !! h = Some tm ->
  runCallback (callback tm) r (set_now (due tm) (clearTimeout h s)) = Ok s' out ->
  wellFormed s'.
Proof.
  intros Hwf Hh H.
  destruct (callback tm) eqn:Ecb; simpl in H.
  - wf_cases H; wf_facts; wf_goal Hwf.
  - unfold startRound in H. wf_cases H; wf_facts; wf_goal Hwf.
  - wf_cases H; wf_facts; wf_goal Hwf.
  - unfold endRound in H. wf_cases H; wf_facts; wf_goal Hwf.
  - wf_cases H; wf_facts; wf_goal Hwf.
  - unfold reconnectExpired in H. wf_cases H; wf_facts; wf_goal Hwf.
Qed.

Lemma step_wellFormed s l s' out :
  wellFormed s -> step s l = Ok s' out -> wellFormed s'.
Proof.
  intros Hwf H. destruct l as [t sid|t sid e|h r]; simpl in H.
  - wf_cases H. exact Hwf.
  - destruct (timely t s); [|done].
    destruct (conns s !! sid) as [c|]; [|done].
    destruct (alive c); [|done].
    by apply (handle_wellFormed sid c e (set_now t s) s' out).
  - destruct (timers s !! h) as [tm|] eqn:Hh; [|done].
    destruct (timely (due tm) s && isRandom r); [|done].
    by eapply fire_wellFormed.
Qed.

Lemma reachable_wellFormed s : reachable s -> wellFormed s.
Proof.
  induction 1 as [|s l s' out _ IH Hstep].
  - split; [|split].
    + intros ref room Hr. by destruct ref.
    + apply NoDup_nil_2.
    + intros c ref Hc. done.
  - by eapply step_wellFormed.
Qed.

End WellFormedness.

(** ** What every reachable registry looks like *)

Lemma roomAt_getRoom c s room :
  roomAt c s = Some room <-> exists ref, getRoom c s = Some (ref, room).
Proof.
  unfold roomAt. destruct (getRoom c s) as [[ref rm]|].
  - split; [intros [= ->]; by exists ref|intros (r & [= _ ->]); done].
  - split; [done|intros (r & Hr); done].
Qed.

Lemma roomAt_wellFormed c s room :
  wellFormed s -> roomAt c s = Some room ->
  roomOK room /\ code room = c /\ players room <> [].
Proof.
  intros (Hr & _ & Hreg) (ref & [Hc Hh]%getRoom_heap)%roomAt_getRoom.
  destruct (Hreg c ref Hc) as (rm & Hl & Hcd & Hn).
  assert (rm = room) as -> by congruence.
  split; [by eapply Hr|done].
Qed.

Section ReachableRegistry.
Context {engine : Engine}.

(** X9. In every reachable state the room found under a code carries that
    code and has at least one player: a room is unregistered when its last
    player is removed. *)
Theorem registered_room_code s c room :
  reachable s -> roomAt c s = Some room ->
  code room = c /\ (1 <= JsMap.size (players room))%nat.
Proof.
  intros Hs Hroom.
  destruct (roomAt_wellFormed c s room (reachable_wellFormed s Hs) Hroom)
    as (_ & Hcode & Hne).
  split; [done|]. unfold JsMap.size. destruct (players room); [done|simpl; lia].
Qed.

(** X10. In every reachable state a registered room has at most 8
    players, every player is stored under its own id, no id is seated
    twice, and the host id is the id of a player of the room. *)
Theorem registered_room_seats s c room :
  reachable s -> roomAt c s = Some room ->
  (JsMap.size (players room) <= 8)%nat /\
  NoDup (JsMap.keys (players room)) /\
  (forall k p, JsMap.get k (players room) = Some p -> id p = k) /\
  (exists host, JsMap.get (hostId room) (players room) = Some host /\
                id host = hostId room).
Proof.
  intros Hs Hroom.
  destruct (roomAt_wellFormed c s room (reachable_wellFormed s Hs) Hroom)
    as ([(Hid & Hnd & Hlen & Hh) _] & _ & Hne).
  assert (forall k p, JsMap.get k (players room) = Some p -> id p = k) as Hget.
  { intros k p Hk%JsMap_get_Some_elem.
    exact (proj1 (Forall_forall _ _) Hid _ Hk). }
  split; [done|]. split; [done|]. split; [done|].
  destruct (proj2 (JsMap_get_is_Some (hostId room) (players room)) (Hh Hne))
    as [host Hhost].
  exists host. split; [done|]. by apply Hget.
Qed.

(** X11. In every reachable state the used letters of a registered room
    are letters of the alphabet (so at most 33), and the current letter is
    either unset or a letter of the alphabet. *)
Theorem registered_room_letters s c room :
  reachable s -> roomAt c s = Some room ->
  usedLetters (gameState room) ⊆ alphabetSet /\
  (size (usedLetters (gameState room)) <= 33)%nat /\
  (currentLetter (gameState room) = ""
   \/ currentLetter (gameState room) ∈ GEORGIAN_ALPHABET).
Proof.
  intros Hs Hroom.
  destruct (roomAt_wellFormed c s room (reachable_wellFormed s Hs) Hroom)
    as ([_ [Hu Hc]] & _ & _).
  split; [done|]. split; [|done].
  rewrite <- alphabet_size. by apply subseteq_size.
Qed.

End ReachableRegistry.

(** The results phase of S1: room AAAAA is registered under its own code
    and has its two players. *)
Lemma registered_room_code_witness :
  exists room,
    roomAt "AAAAA" (stateAfter toResults) = Some room /\
    code room = "AAAAA" /\ (1 <= JsMap.size (players room))%nat.
Proof.
  destruct (roomAt "AAAAA" (stateAfter toResults)) as [room|] eqn:E;
    [|vm_compute in E; discriminate].
  exists room. split; [reflexivity|].
  exact (registered_room_code (engine := basicEngine) (stateAfter toResults)
           "AAAAA" room (stateAfter_reachable toResults) E).
Defined.

Lemma registered_room_seats_witness :
  exists room,
    roomAt "AAAAA" (stateAfter toResults) = Some room /\
    (JsMap.size (players room) <= 8)%nat /\
    exists host, JsMap.get (hostId room) (players room) = Some host.
Proof.
  destruct (roomAt "AAAAA" (stateAfter toResults)) as [room|] eqn:E;
    [|vm_compute in E; discriminate].
  destruct (registered_room_seats (engine := basicEngine) (stateAfter toResults)
              "AAAAA" room (stateAfter_reachable toResults) E)
    as (Hlen & _ & _ & host & Hhost & _).
  exists room. split; [reflexivity|]. split; [exact Hlen|]. by exists host.
Defined.

Lemma registered_room_letters_witness :
  exists room,
    roomAt "AAAAA" (stateAfter toResults) = Some room /\
    (size (usedLetters (gameState room)) <= 33)%nat /\
    currentLetter (gameState room) ∈ GEORGIAN_ALPHABET.
Proof.
  destruct (roomAt "AAAAA" (stateAfter toResults)) as [room|] eqn:E;
    [|vm_compute in E; discriminate].
  destruct (registered_room_letters (engine := basicEngine)
              (stateAfter toResults) "AAAAA" room
              (stateAfter_reachable toResults) E)
    as (_ & Hsize & [Hempty|Hin]).
  - exfalso.
    assert (letterAt "AAAAA" (stateAfter toResults) = Some "ა") as H
      by (vm_compute; reflexivity).
    unfold letterAt in H. rewrite E in H. injection H as H.
    rewrite Hempty in H. discriminate H.
  - exists room. split; [reflexivity|]. split; [exact Hsize|exact Hin].
Defined.

(** ** The public listing and [room:join] *)

Lemma listed_entry s pr :
  wellFormed s ->
  pr ∈ listPublicRooms s <->
  exists c room, roomAt c s = Some room /\ isListed room = true /\
                 pr = publicRoom room.
Proof.
  intros Hwf. pose proof Hwf as (_ & Hnd & Hreg).
  unfold listPublicRooms. rewrite list_elem_of_omap. split.
  - intros ([c ref] & Hin & Hf). simpl in Hf.
    destruct (heap s !! ref) as [room|] eqn:Hh; [|done].
    destruct (isListed room) eqn:Hl; [|done]. injection Hf as <-.
    exists c, room. split; [|done].
    apply roomAt_getRoom. exists ref. unfold getRoom.
    by rewrite (JsMap_elem_get _ _ _ Hnd Hin), Hh.
  - intros (c & room & (ref & [Hc Hh]%getRoom_heap)%roomAt_getRoom & Hl & ->).
    exists (c, ref). split; [by apply JsMap_get_Some_elem|].
    simpl. by rewrite Hh, Hl.
Qed.

Section Joining.
Context {engine : Engine}.

Lemma onRoomJoin_accepts sid roomCode pnick avatar sessionId_ uuid s ref room :
  getRoom (toUpperCase roomCode) s = Some (ref, room) ->
  phase (gameState room) = lobby ->
  (JsMap.size (players room) < 8)%nat ->
  let playerId := generatePlayerId uuid in
  let room' :=
    set_players
      (JsMap.set playerId (newPlayer playerId pnick avatar false sid sessionId_)
         (players room)) room in
  onRoomJoin sid roomCode pnick avatar sessionId_ uuid s
  = Ok (setConn sid (mkConn (Some playerId) (Some (toUpperCase roomCode)) true)
          (set_playerSessions
             (<[sessionId_ := mkSession (code room) playerId]> (playerSessions s))
             (putRoom ref room' s)))
      [(ToSocket sid, RoomJoined (code room) playerId (getRoomData room'));
       (ToRoomExcept (Some (code room)) sid, PlayerJoined playerId pnick avatar);
       (ToRoom (Some (code room)), RoomUpdate (getRoomData room'))].
Proof.
  intros Hroom Hphase Hsize. unfold onRoomJoin. rewrite Hroom.
  rewrite bool_decide_eq_true_2 by done. cbn [negb].
  destruct (8 <=? JsMap.size (players room))%nat eqn:E; [|done].
  apply Nat.leb_le in E. lia.
Qed.

(** X12. [GET /api/rooms] in a reachable state lists exactly the
    registered rooms that are in the lobby with fewer than 8 players;
    an entry carries the code its room is registered under, a player
    count between 1 and 7, and 8 as the maximum. *)
Theorem public_rooms_listing s pr :
  reachable s ->
  (pr ∈ listPublicRooms s <->
   exists room,
     roomAt (pr_code pr) s = Some room /\
     phase (gameState room) = lobby /\
     (JsMap.size (players room) < 8)%nat /\
     pr = publicRoom room) /\
  (pr ∈ listPublicRooms s ->
   (1 <= pr_playerCount pr <= 7)%nat /\ pr_maxPlayers pr = 8%nat).
Proof.
  intros Hs. pose proof (reachable_wellFormed s Hs) as Hwf.
  assert (forall room, isListed room = true <->
            phase (gameState room) = lobby
            /\ (JsMap.size (players room) < 8)%nat) as Hl.
  { intros room. unfold isListed. rewrite andb_true_iff, bool_decide_eq_true.
    by rewrite Nat.ltb_lt. }
  assert (pr ∈ listPublicRooms s ->
          exists room,
            roomAt (pr_code pr) s = Some room /\
            phase (gameState room) = lobby /\
            (JsMap.size (players room) < 8)%nat /\
            pr = publicRoom room /\ players room <> []) as Hfwd.
  { intros (c & room & Hroom & [Hph Hsz]%Hl & ->)%listed_entry; [|done].
    destruct (roomAt_wellFormed c s room Hwf Hroom) as (_ & Hcode & Hne).
    exists room. simpl. rewrite Hcode. done. }
  split; [split|].
  - intros (room & H1 & H2 & H3 & H4 & _)%Hfwd. by exists room.
  - intros (room & Hroom & Hph & Hsz & ->). apply listed_entry; [done|].
    exists (code room), room. split; [done|]. split; [|done]. by apply Hl.
  - intros (room & _ & _ & Hsz & -> & Hne)%Hfwd. simpl.
    split; [|done]. split; [|lia].
    unfold JsMap.size. destruct (players room); [done|simpl; lia].
Qed.

(** X13. A room listed by [GET /api/rooms] accepts a [room:join] with the
    listed code (for a code that upper-casing leaves as it is, as the
    generated codes are): the sender gets [room:joined] and is seated in
    the room registered under that code. *)
Theorem listed_room_joinable s pr sid pnick avatar sessionId_ uuid :
  reachable s -> pr ∈ listPublicRooms s ->
  toUpperCase (pr_code pr) = pr_code pr ->
  exists s' room' data rest,
    onRoomJoin sid (pr_code pr) pnick avatar sessionId_ uuid s
    = Ok s' ((ToSocket sid,
              RoomJoined (pr_code pr) (generatePlayerId uuid) data) :: rest) /\
    roomAt (pr_code pr) s' = Some room' /\
    JsMap.get (generatePlayerId uuid) (players room')
    = Some (newPlayer (generatePlayerId uuid) pnick avatar false sid sessionId_).
Proof.
  intros Hs Hin Hup. pose proof (reachable_wellFormed s Hs) as Hwf.
  apply listed_entry in Hin as (c & room & Hroom & Hl & ->); [|done].
  destruct (roomAt_wellFormed c s room Hwf Hroom) as (_ & Hcode & _).
  simpl in *. rewrite Hcode in *.
  apply roomAt_getRoom in Hroom as (ref & Hroom).
  unfold isListed in Hl. apply andb_true_iff in Hl as [Hph Hsz].
  apply bool_decide_eq_true in Hph. apply Nat.ltb_lt in Hsz.
  pose proof (onRoomJoin_accepts sid c pnick avatar sessionId_ uuid s ref room)
    as Hjoin.
  rewrite Hup in Hjoin. specialize (Hjoin Hroom Hph Hsz). simpl in Hjoin.
  rewrite Hcode in Hjoin.
  eexists _, _, _, _. split; [exact Hjoin|]. split.
  - apply roomAt_getRoom. exists ref.
    unfold getRoom, setConn, putRoom. simpl.
    apply getRoom_heap in Hroom as [Hc Hh]. rewrite Hc.
    rewrite list_lookup_insert_eq by (by eapply lookup_lt_Some). done.
  - simpl. rewrite JsMap_get_set. by rewrite String.eqb_refl.
Qed.

(** X14. A [room:join] that names no registered room, or a room that is
    not in the lobby, or a room with 8 players, changes nothing and
    answers the sender alone with one [room:error]. *)
Theorem room_join_refused sid roomCode pnick avatar sessionId_ uuid s :
  (roomAt (toUpperCase roomCode) s = None \/
   exists room, roomAt (toUpperCase roomCode) s = Some room /\
                (phase (gameState room) <> lobby
                 \/ (8 <= JsMap.size (players room))%nat)) ->
  exists msg,
    onRoomJoin sid roomCode pnick avatar sessionId_ uuid s
    = Ok s [(ToSocket sid, RoomError msg)].
Proof.
  unfold roomAt, onRoomJoin.
  destruct (getRoom (toUpperCase roomCode) s) as [[ref room]|].
  - intros [Hn|(rm & [= <-] & Hc)]; [done|].
    destruct (decide (phase (gameState room) = lobby)) as [Hph|Hph].
    + rewrite bool_decide_eq_true_2 by done. cbn [negb].
      destruct Hc as [Hc|Hc]; [done|].
      apply Nat.leb_le in Hc. rewrite Hc. by eexists.
    + rewrite bool_decide_eq_false_2 by done. simpl. by eexists.
  - intros _. by eexists.
Qed.

(** X15. A [room:join] for a registered room in the lobby with fewer than
    8 players seats the new player under the generated id and leaves every
    other seat, the host, the settings and the game state as they were; the
    session token is recorded for that room and player, the connection is
    bound to them, and no timer is touched. *)
Theorem room_join_accepted sid roomCode pnick avatar sessionId_ uuid s room :
  roomAt (toUpperCase roomCode) s = Some room ->
  phase (gameState room) = lobby ->
  (JsMap.size (players room) < 8)%nat ->
  exists s' out room',
    onRoomJoin sid roomCode pnick avatar sessionId_ uuid s = Ok s' out /\
    roomAt (toUpperCase roomCode) s' = Some room' /\
    JsMap.get (generatePlayerId uuid) (players room')
    = Some (newPlayer (generatePlayerId uuid) pnick avatar false sid sessionId_) /\
    (forall k, k <> generatePlayerId uuid ->
       JsMap.get k (players room') = JsMap.get k (players room)) /\
    hostId room' = hostId room /\ settings room' = settings room /\
    gameState room' = gameState room /\ code room' = code room /\
    playerSessions s' !! sessionId_
    = Some (mkSession (code room) (generatePlayerId uuid)) /\
    conns s' !! sid
    = Some (mkConn (Some (generatePlayerId uuid))
              (Some (toUpperCase roomCode)) true) /\
    timers s' = timers s /\ disconnectedPlayers s' = disconnectedPlayers s.
Proof.
  intros (ref & Hroom)%roomAt_getRoom Hph Hsz.
  pose proof (onRoomJoin_accepts sid roomCode pnick avatar sessionId_ uuid s
                ref room Hroom Hph Hsz) as Hjoin. simpl in Hjoin.
  eexists _, _, _. split; [exact Hjoin|].
  apply getRoom_heap in Hroom as [Hc Hh].
  split.
  { apply roomAt_getRoom. exists ref. unfold getRoom, setConn, putRoom. simpl.
    rewrite Hc. rewrite list_lookup_insert_eq by (by eapply lookup_lt_Some).
    done. }
  simpl. split; [by rewrite JsMap_get_set, String.eqb_refl|].
  split.
  { intros k Hk. rewrite JsMap_get_set.
    apply String.eqb_neq in Hk. by rewrite Hk. }
  repeat (split; [done|]).
  split; [by rewrite lookup_insert_eq|].
  split; [by rewrite lookup_insert_eq|]. done.
Qed.

End Joining.

(** ** Disconnection and restoration *)

Lemma JsMap_update_update {V} k (f g : V -> V) (m : list (string * V)) :
  JsMap.update k g (JsMap.update k f m) = JsMap.update k (fun v => g (f v)) m.
Proof.
  unfold JsMap.update. rewrite map_map. apply map_ext. intros [k' v]. simpl.
  destruct (String.eqb k k') eqn:E; simpl; by rewrite E.
Qed.

Section Reconnecting.
Context {engine : Engine}.

(** X16. When the socket a player is connected through drops, the player
    stays seated with all its data and is marked disconnected; an entry
    for the player is recorded with a fresh timer that is due 120 s later
    and names the player and the room; the room is told, and nobody else
    in the room is touched. *)
Theorem disconnect_opens_window sid c s rc pid room p :
  bound c = Some (rc, pid) -> roomAt rc s = Some room ->
  JsMap.get pid (players room) = Some p -> socketId p = Some sid ->
  exists s1 room1,
    onDisconnect sid c s
    = Ok s1 [(ToRoom (Some rc), PlayerDisconnected pid (nick p));
             (ToRoom (Some rc), RoomUpdate (getRoomData room1))] /\
    roomAt rc s1 = Some room1 /\
    room1 = updPlayer pid (set_connection false None) room /\
    JsMap.get pid (players room1) = Some (set_connection false None p) /\
    (forall k, k <> pid ->
       JsMap.get k (players room1) = JsMap.get k (players room)) /\
    disconnectedPlayers s1 !! pid = Some (mkPending rc (nextTimer s)) /\
    timers s1 !! nextTimer s
    = Some (mkTimer (now s + 120000) (ReconnectCb pid rc (nick p))) /\
    alive <$> conns s1 !! sid = Some false /\
    playerSessions s1 = playerSessions s /\ rooms s1 = rooms s.
Proof.
  intros Hb (ref & Hroom)%roomAt_getRoom Hp Hsock.
  unfold onDisconnect, handlePlayerDisconnect. rewrite Hb, Hroom, Hp.
  rewrite bool_decide_eq_true_2 by done. cbn [negb].
  pose proof Hroom as [Hc Hh]%getRoom_heap.
  assert (ref < length (heap s))%nat as Hlt by (by eapply lookup_lt_Some).
  assert (forall t : Server,
            heap t = heap (putRoom ref (updPlayer pid (set_connection false None) room) s) ->
            rooms t = rooms s ->
            roomAt rc t = Some (updPlayer pid (set_connection false None) room))
    as Hat.
  { intros t Ht Hr. unfold roomAt, getRoom. rewrite Hr, Ht. simpl. rewrite Hc.
    by rewrite list_lookup_insert_eq. }
  destruct (disconnectedPlayers _ !! pid) as [old|] eqn:Eold;
    simpl; eexists _, _; (split; [reflexivity|]).
  all: split; [by apply Hat|]; split; [reflexivity|].
  all: split; [simpl; by rewrite JsMap_get_update, Hp|].
  all: split; [intros k Hk; simpl; by apply JsMap_get_update_ne|].
  all: simpl; split; [by rewrite lookup_insert_eq|].
  all: split; [by rewrite lookup_insert_eq|].
  all: split; [by rewrite lookup_insert_eq|done].
Qed.

(** X17. A disconnect followed by a [session:restore] with the player's
    session token from another socket leaves the room as it was, but for
    the socket of that player: the answers, the scores, the flags and the
    seat of the player, the other players, the host, the settings and the
    game state are those before the disconnect. The entry recorded by the
    disconnect is gone and no timer is left that was not pending before. *)
Theorem disconnect_restore_roundtrip sid sid2 c s rc pid sessionId_ room p :
  bound c = Some (rc, pid) -> roomAt rc s = Some room ->
  JsMap.get pid (players room) = Some p -> socketId p = Some sid ->
  playerSessions s !! sessionId_ = Some (mkSession rc pid) ->
  exists s1 out1 s2 out2,
    onDisconnect sid c s = Ok s1 out1 /\
    onSessionRestore sid2 sessionId_ pid s1 = Ok s2 out2 /\
    roomAt rc s2
    = Some (updPlayer pid (set_connection true (Some sid2)) room) /\
    disconnectedPlayers s2 !! pid = None /\
    (forall h tm, timers s2 !! h = Some tm -> timers s !! h = Some tm) /\
    conns s2 !! sid2 = Some (mkConn (Some pid) (Some rc) true).
Proof.
  intros Hb (ref & Hroom)%roomAt_getRoom Hp Hsock Hsess.
  unfold onDisconnect, handlePlayerDisconnect. rewrite Hb, Hroom, Hp.
  rewrite bool_decide_eq_true_2 by done. cbn [negb].
  pose proof (getRoom_putRoom rc s ref room
                (updPlayer pid (set_connection false None) room) Hroom) as Hput.
  pose proof Hroom as [Hc Hh]%getRoom_heap.
  assert (ref < length (heap s))%nat as Hlt by (by eapply lookup_lt_Some).
  assert (forall t : Server,
            heap t = heap (putRoom ref (updPlayer pid (set_connection false None) room) s) ->
            rooms t = rooms s -> playerSessions t = playerSessions s ->
            match playerSessions t !! sessionId_ with
            | Some se =>
                match getRoom (s_roomCode se) t with
                | Some (ref, room) =>
                    match JsMap.get pid (players room) with
                    | Some p0 => Some (se, ref, room, p0)
                    | None => None
                    end
                | None => None
                end
            | None => None
            end
            = Some (mkSession rc pid, ref,
                    updPlayer pid (set_connection false None) room,
                    set_connection false None p)) as Hdirect.
  { intros t Ht Hr Hs. rewrite Hs, Hsess. simpl.
    unfold getRoom in *. rewrite Hr, Ht. simpl. rewrite Hc.
    rewrite list_lookup_insert_eq by done. simpl.
    by rewrite JsMap_get_update, Hp. }
  assert (updPlayer pid (set_connection true (Some sid2))
            (updPlayer pid (set_connection false None) room)
          = updPlayer pid (set_connection true (Some sid2)) room) as Hupd.
  { unfold updPlayer. simpl. by rewrite JsMap_update_update. }
  destruct (disconnectedPlayers _ !! pid) as [old|] eqn:Eold; simpl.
  all: eexists _, _, _, _; split; [reflexivity|].
  all: unfold onSessionRestore; rewrite Hdirect by done.
  all: unfold restoreFound; simpl; rewrite lookup_insert_eq; simpl.
  all: split; [reflexivity|].
  all: split;
    [unfold roomAt, getRoom; simpl; rewrite Hc;
     rewrite list_insert_insert_eq, list_lookup_insert_eq by done;
     by rewrite Hupd|].
  all: split; [simpl; by rewrite lookup_delete_eq|].
  all: split; [|simpl; by rewrite lookup_insert_eq].
  all: intros h tm; simpl; rewrite delete_insert_eq.
  all: intros [_ H]%lookup_delete_Some.
  all: try apply lookup_delete_Some in H as [_ H]; exact H.
Qed.

(** X18. A disconnect of a socket that is not the current socket of its
    player (the session was restored on another socket, or the player or
    the room is gone) only marks the connection closed: no player is
    marked disconnected, no entry or timer is recorded and nothing is
    emitted. *)
Theorem stale_disconnect_ignored sid c s :
  (forall rc pid p, bound c = Some (rc, pid) -> playerAt rc pid s = Some p ->
     socketId p <> Some sid) ->
  onDisconnect sid c s
  = Ok (setConn sid (mkConn (currentPlayerId c) (currentRoomCode c) false) s) [].
Proof.
  intros Hstale. unfold onDisconnect, handlePlayerDisconnect.
  destruct (bound c) as [[rc pid]|]; [|done].
  specialize (Hstale rc pid). unfold playerAt, roomAt in Hstale.
  destruct (getRoom rc s) as [[ref room]|]; [|done].
  destruct (JsMap.get pid (players room)) as [p|]; [|done].
  rewrite bool_decide_eq_false_2; [done|]. by apply Hstale.
Qed.

End Reconnecting.

Lemma scanRooms_None h sessionId_ playerId l :
  (forall c ref room p, (c, ref) ∈ l -> h !! ref = Some room ->
     JsMap.get playerId (players room) = Some p -> sessionId p <> sessionId_) ->
  scanRooms h sessionId_ playerId l = None.
Proof.
  induction l as [|[c ref] l IH]; simpl; intros Hno; [done|].
  assert (scanRooms h sessionId_ playerId l = None) as Hrest.
  { apply IH. intros c' ref' room p Hin. apply (Hno c').
    apply elem_of_cons. by right. }
  destruct (h !! ref) as [room|] eqn:Hh; [|done].
  destruct (JsMap.get playerId (players room)) as [p|] eqn:Hp; [|done].
  destruct (String.eqb (sessionId p) sessionId_) eqn:E; [|done].
  apply String.eqb_eq in E. destruct (Hno c ref room p); try done.
  apply elem_of_cons. by left.
Qed.

Section Restoring.
Context {engine : Engine}.

(** X19. [session:restore] succeeds whenever the token names a recorded
    session whose room is registered and holds a player with the given
    id: the player is marked connected on the sender's socket, the
    connection is bound to the player and the session's room, and the
    sender receives the room and the player's data. Neither the player id
    recorded in the session nor the player's own token is compared. *)
Theorem session_restore_by_room_token sid sessionId_ playerId s se room p :
  playerSessions s !! sessionId_ = Some se ->
  roomAt (s_roomCode se) s = Some room ->
  JsMap.get playerId (players room) = Some p ->
  exists s' data rest,
    onSessionRestore sid sessionId_ playerId s
    = Ok s' ((ToSocket sid,
              SessionRestored playerId (s_roomCode se) data
                (id p) (nick p) (avatarSeed p) (isHost p)) :: rest) /\
    playerAt (s_roomCode se) playerId s'
    = Some (set_connection true (Some sid) p) /\
    conns s' !! sid = Some (mkConn (Some playerId) (Some (s_roomCode se)) true) /\
    playerSessions s' = playerSessions s.
Proof.
  intros Hse (ref & Hroom)%roomAt_getRoom Hp.
  unfold onSessionRestore. rewrite Hse, Hroom, Hp. unfold restoreFound.
  pose proof Hroom as [Hc Hh]%getRoom_heap.
  assert (ref < length (heap s))%nat as Hlt by (by eapply lookup_lt_Some).
  eexists _, _, _. split; [reflexivity|].
  split.
  { unfold playerAt, roomAt, getRoom.
    destruct (disconnectedPlayers s !! playerId); simpl; rewrite Hc;
      rewrite list_lookup_insert_eq by done; simpl;
      by rewrite JsMap_get_update, Hp. }
  split; [simpl; by rewrite lookup_insert_eq|].
  by destruct (disconnectedPlayers s !! playerId).
Qed.

(** X20. In a reachable state, a [session:restore] whose token names no
    session with a registered room holding the player id, and for which
    no registered room holds a player with that id and that token, fails:
    the sender alone is answered, with a failure; the token's session is
    dropped; rooms, timers, pending entries and connections stay as they
    are. *)
Theorem session_restore_fails sid sessionId_ playerId s :
  reachable s ->
  (forall c room p, roomAt c s = Some room ->
     JsMap.get playerId (players room) = Some p ->
     sessionId p <> sessionId_ /\
     s_roomCode <$> playerSessions s !! sessionId_ <> Some c) ->
  exists s',
    onSessionRestore sid sessionId_ playerId s
    = Ok s' [(ToSocket sid, SessionRestoredFail)] /\
    playerSessions s' = delete sessionId_ (playerSessions s) /\
    heap s' = heap s /\ rooms s' = rooms s /\ timers s' = timers s /\
    disconnectedPlayers s' = disconnectedPlayers s /\ conns s' = conns s.
Proof.
  intros Hs Hno. pose proof (reachable_wellFormed s Hs) as (_ & Hnd & _).
  unfold onSessionRestore.
  assert (match playerSessions s !! sessionId_ with
          | Some se =>
              match getRoom (s_roomCode se) s with
              | Some (ref, room) =>
                  match JsMap.get playerId (players room) with
                  | Some p0 => Some (se, ref, room, p0)
                  | None => None
                  end
              | None => None
              end
          | None => None
          end = None) as ->.
  { destruct (playerSessions s !! sessionId_) as [se|] eqn:Hse; [|done].
    destruct (getRoom (s_roomCode se) s) as [[ref room]|] eqn:Hroom; [|done].
    destruct (JsMap.get playerId (players room)) as [p|] eqn:Hp; [|done].
    destruct (Hno (s_roomCode se) room p) as [_ Hc]; try done.
    apply roomAt_getRoom. by exists ref. }
  rewrite scanRooms_None.
  - destruct (playerSessions s !! sessionId_) eqn:Hse; eexists;
      (split; [reflexivity|]); simpl; [done|].
    by rewrite delete_id.
  - intros c ref room p Hin Hh Hp.
    destruct (Hno c room p) as [Hne _]; try done.
    apply roomAt_getRoom. exists ref. unfold getRoom.
    by rewrite (JsMap_elem_get _ _ _ Hnd Hin), Hh.
Qed.

End Restoring.

(** ** Leaving, kicking and the end of the reconnect window *)

(** What a removal with host succession makes of a room. *)
Lemma removal_outcome pid room room2 msgs :
  roomOK room ->
  promoteFirst pid (set_players (JsMap.delete pid (players room)) room)
  = (room2, msgs) ->
  code room2 = code room /\ settings room2 = settings room /\
  gameState room2 = gameState room /\
  match JsMap.delete pid (players room) with
  | [] => players room2 = [] /\ msgs = []
  | (k, first) :: rest =>
      if String.eqb (hostId room) pid
      then hostId room2 = k /\ players room2 = (k, set_isHost true first) :: rest
           /\ msgs = [HostChanged k]
      else hostId room2 = hostId room /\ players room2 = (k, first) :: rest
           /\ msgs = []
  end.
Proof.
  intros [(Hid & _) _]. unfold promoteFirst. simpl.
  assert (Forall (fun kv => id (snd kv) = fst kv) (JsMap.delete pid (players room)))
    as Hid'.
  { clear -Hid. induction (players room) as [|[k0 v0] ps IH]; simpl; [done|].
    apply Forall_cons in Hid as [H0 Hid].
    destruct (String.eqb pid k0); [done|]. constructor; [done|by apply IH]. }
  destruct (JsMap.delete pid (players room)) as [|[k first] rest] eqn:Ed.
  - destruct (String.eqb (hostId room) pid); intros [= <- <-]; done.
  - apply Forall_cons in Hid' as [Hk _]. simpl in Hk.
    destruct (String.eqb (hostId room) pid); intros [= <- <-]; simpl;
      rewrite ?Hk; done.
Qed.

(** A mutation of one registered room, with or without its removal from
    the registry, is not seen under any other code. *)
Lemma roomAt_frame s t rc ref room room' c :
  wellFormed s -> getRoom rc s = Some (ref, room) -> c <> rc ->
  heap t = <[ref := room']> (heap s) ->
  rooms t = rooms s \/ rooms t = JsMap.delete rc (rooms s) ->
  roomAt c t = roomAt c s.
Proof.
  intros (_ & Hnd & Hreg) [Hc Hh]%getRoom_heap Hne Hheap Hrooms.
  assert (JsMap.get c (rooms t) = JsMap.get c (rooms s)) as Hget.
  { destruct Hrooms as [->| ->]; [done|]. rewrite JsMap_get_delete by done.
    apply String.eqb_neq in Hne. by rewrite Hne. }
  unfold roomAt, getRoom. rewrite Hget, Hheap.
  destruct (JsMap.get c (rooms s)) as [r|] eqn:Er; [|done].
  destruct (decide (r = ref)) as [->|Hr].
  - destruct (Hreg c ref Er) as (rm & Hl & Hcd & _).
    destruct (Hreg rc ref Hc) as (rm' & Hl' & Hcd' & _). congruence.
  - by rewrite list_lookup_insert_ne.
Qed.

Lemma roomAt_put s t rc ref room room' :
  getRoom rc s = Some (ref, room) ->
  heap t = <[ref := room']> (heap s) -> rooms t = rooms s ->
  roomAt rc t = Some room'.
Proof.
  intros [Hc Hh]%getRoom_heap Hheap Hrooms.
  unfold roomAt, getRoom. rewrite Hrooms, Hheap, Hc.
  rewrite list_lookup_insert_eq by (by eapply lookup_lt_Some). done.
Qed.

Lemma roomAt_unregistered s t rc :
  wellFormed s -> rooms t = JsMap.delete rc (rooms s) -> roomAt rc t = None.
Proof.
  intros (_ & Hnd & _) Hrooms. unfold roomAt, getRoom.
  rewrite Hrooms, JsMap_get_delete by done. by rewrite String.eqb_refl.
Qed.

Section Removing.
Context {engine : Engine}.

(** X21. [room:leave] in a reachable state, from a connection bound to a
    registered room: the connection is unbound and the player's seat is
    removed. If nobody is left the room is unregistered and only the
    sender is answered. Otherwise the room stays registered with the
    remaining players in their order; if the leaver was the host, the
    first remaining player becomes the host and is flagged as such, and
    the room is told; if not, the host stays. The leaver's session is
    dropped. Settings and game state, every other room, the timers and the
    pending reconnect entries are left as they are. *)
Theorem room_leave_outcome sid c s rc pid room :
  reachable s -> bound c = Some (rc, pid) -> roomAt rc s = Some room ->
  exists s' out,
    onRoomLeave sid c s = Ok s' out /\
    conns s' !! sid = Some (mkConn None None true) /\
    (forall c', c' <> rc -> roomAt c' s' = roomAt c' s) /\
    timers s' = timers s /\ disconnectedPlayers s' = disconnectedPlayers s /\
    (forall p, JsMap.get pid (players room) = Some p ->
       truthy (Some (sessionId p)) = true ->
       playerSessions s' !! sessionId p = None) /\
    match JsMap.delete pid (players room) with
    | [] => roomAt rc s' = None /\ out = [(ToSocket sid, RoomLeft)]
    | (k, first) :: rest =>
        exists room',
          roomAt rc s' = Some room' /\
          settings room' = settings room /\
          gameState room' = gameState room /\
          (if String.eqb (hostId room) pid
           then hostId room' = k /\
                players room' = (k, set_isHost true first) :: rest /\
                (ToRoom (Some rc), HostChanged k) ∈ out
           else hostId room' = hostId room /\
                players room' = (k, first) :: rest) /\
          (ToSocket sid, RoomLeft) ∈ out
    end.
Proof.
  intros Hs Hb (ref & Hroom)%roomAt_getRoom.
  pose proof (reachable_wellFormed s Hs) as Hwf.
  assert (roomOK room) as Hok.
  { destruct Hwf as (Hr & _). apply getRoom_heap in Hroom as [_ Hh].
    by eapply Hr. }
  unfold onRoomLeave. rewrite Hb, Hroom.
  destruct (promoteFirst pid (set_players (JsMap.delete pid (players room)) room))
    as [room2 msgs] eqn:Ep.
  destruct (removal_outcome pid room room2 msgs Hok Ep)
    as (Hcode & Hset & Hgs & Hout).
  set (s1 := match JsMap.get pid (players room) with
             | Some p =>
                 if truthy (Some (sessionId p))
                 then set_playerSessions
                        (delete (sessionId p) (playerSessions s)) s
                 else s
             | None => s
             end).
  assert (heap s1 = heap s /\ rooms s1 = rooms s /\ timers s1 = timers s /\
          disconnectedPlayers s1 = disconnectedPlayers s /\
          (forall p, JsMap.get pid (players room) = Some p ->
             truthy (Some (sessionId p)) = true ->
             playerSessions s1 !! sessionId p = None)) as (H1 & H2 & H3 & H4 & H5).
  { unfold s1. destruct (JsMap.get pid (players room)) as [p|]; [|done].
    destruct (truthy (Some (sessionId p))) eqn:Et;
      (repeat (split; [done|])); intros p' [= <-] Ht'; [|congruence].
    simpl. by rewrite lookup_delete_eq. }
  eexists _, _. split; [reflexivity|].
  split.
  { destruct (JsMap.size (players room2) =? 0)%nat; simpl;
      by rewrite lookup_insert_eq. }
  split.
  { intros c' Hc'. eapply roomAt_frame; [exact Hwf|exact Hroom|exact Hc'|..].
    - destruct (JsMap.size (players room2) =? 0)%nat; simpl; by rewrite H1.
    - destruct (JsMap.size (players room2) =? 0)%nat; simpl; rewrite H2; auto. }
  split; [by destruct (JsMap.size (players room2) =? 0)%nat|].
  split; [by destruct (JsMap.size (players room2) =? 0)%nat|].
  split.
  { intros p Hp Ht.
    destruct (JsMap.size (players room2) =? 0)%nat; simpl; by apply H5. }
  destruct (JsMap.delete pid (players room)) as [|[k first] rest] eqn:Ed.
  - destruct Hout as [-> ->]. simpl. split; [|done].
    eapply roomAt_unregistered; [exact Hwf|]. simpl. by rewrite H2.
  - assert ((JsMap.size (players room2) =? 0)%nat = false) as ->.
    { destruct (String.eqb (hostId room) pid);
        destruct Hout as (_ & -> & _); done. }
    exists room2. split.
    { eapply roomAt_put; [exact Hroom| |]; simpl; by rewrite ?H1, ?H2. }
    split; [done|]. split; [done|]. split.
    + destruct (String.eqb (hostId room) pid).
      * destruct Hout as (-> & -> & ->). split; [done|]. split; [done|].
        simpl. apply elem_of_cons. by left.
      * by destruct Hout as (-> & -> & _).
    + apply elem_of_app. right. apply elem_of_app. right.
      apply elem_of_cons. by left.
Qed.

(** X22. [player:kick] by the host, in a reachable state, of another
    player seated in the room: the target's seat is removed and every
    other seat, the host, the settings and the game state are as before;
    the target's session is dropped; the target's socket, when it has one,
    is told [player:kicked] and the room is told the player left. The
    connections (the target's own binding too), the timers and the pending
    reconnect entries are not touched. *)
Theorem player_kick_outcome sid c s rc pid room target t :
  reachable s -> bound c = Some (rc, pid) -> roomAt rc s = Some room ->
  hostId room = pid -> target <> pid ->
  JsMap.get target (players room) = Some t ->
  exists s' out room',
    onPlayerKick sid c target s = Ok s' out /\
    roomAt rc s' = Some room' /\
    (forall k, JsMap.get k (players room')
               = if String.eqb k target then None
                 else JsMap.get k (players room)) /\
    hostId room' = hostId room /\ settings room' = settings room /\
    gameState room' = gameState room /\
    (truthy (Some (sessionId t)) = true ->
     playerSessions s' !! sessionId t = None) /\
    (forall sock, socketId t = Some sock -> truthy (Some sock) = true ->
       (ToSocket sock, PlayerKicked) ∈ out) /\
    (ToRoom (Some rc), PlayerLeft target (nick t) true) ∈ out /\
    conns s' = conns s /\ timers s' = timers s /\
    disconnectedPlayers s' = disconnectedPlayers s.
Proof.
  intros Hs Hb (ref & Hroom)%roomAt_getRoom Hhost Hne Ht.
  pose proof (reachable_wellFormed s Hs) as Hwf.
  assert (roomOK room) as [(_ & Hnd & _) _].
  { destruct Hwf as (Hr & _). apply getRoom_heap in Hroom as [_ Hh].
    by eapply Hr. }
  unfold onPlayerKick. rewrite Hb, Hroom, Ht.
  rewrite (proj2 (String.eqb_eq _ _) Hhost). cbn [negb].
  rewrite (proj2 (String.eqb_neq _ _) Hne).
  eexists _, _, _. split; [reflexivity|].
  split.
  { eapply roomAt_put; [exact Hroom| |];
      by destruct (truthy (Some (sessionId t))). }
  split; [intros k; simpl; by apply JsMap_get_delete|].
  split; [done|]. split; [done|]. split; [done|].
  split.
  { intros ->. simpl. by rewrite lookup_delete_eq. }
  split.
  { intros sock Hsock Htr. rewrite Hsock, Htr. apply elem_of_app. left.
    apply elem_of_cons. by left. }
  split.
  { apply elem_of_app. right. apply elem_of_cons. right.
    apply elem_of_cons. by left. }
  by destruct (truthy (Some (sessionId t))).
Qed.

(** X23. [player:kick] changes nothing and emits nothing when the sender
    is not the host of a registered room it is bound to, or names itself;
    a [settings:update] from a sender that is not such a host changes
    nothing either. *)
Theorem host_only_events_ignored sid c target s :
  hostRoom c s = None \/ currentPlayerId c = Some target ->
  onPlayerKick sid c target s = Ok s [] /\
  (hostRoom c s = None -> forall p, onSettingsUpdate sid c p s = Ok s []).
Proof.
  intros Hcase. split.
  - unfold onPlayerKick, hostRoom in *.
    destruct (bound c) as [[rc pid]|] eqn:Hb; [|done].
    destruct (getRoom rc s) as [[ref room]|]; [|done].
    destruct (String.eqb (hostId room) pid); [|done]. cbn [negb].
    destruct Hcase as [Hcase|Hcase]; [done|].
    apply bound_truthy in Hb as (_ & Hp & _).
    assert (target = pid) as -> by congruence.
    by rewrite String.eqb_refl.
  - intros Hnone p. unfold onSettingsUpdate, hostRoom in *.
    destruct (bound c) as [[rc pid]|]; [|done].
    destruct (getRoom rc s) as [[ref room]|]; [|done].
    by destruct (String.eqb (hostId room) pid).
Qed.

(** X24. A [round:stop] that passes the phase and timer tests from a
    connection whose player is no longer seated in the room (after a kick
    the connection keeps its binding) throws: the nick of a missing player
    is read. *)
Theorem round_stop_without_seat_throws sid c s rc pid room :
  bound c = Some (rc, pid) -> roomAt rc s = Some room ->
  phase (gameState room) = playing -> timerEnabled (gameState room) = true ->
  JsMap.get pid (players room) = None ->
  onRoundStop sid c s
  = Throws "TypeError: Cannot read properties of undefined".
Proof.
  intros Hb (ref & Hroom)%roomAt_getRoom Hph Ht Hp.
  unfold onRoundStop. rewrite Hb, Hroom, Ht, Hp.
  by rewrite bool_decide_eq_true_2.
Qed.

(** X25. The reconnect window ending for a player who is still seated and
    still disconnected, in a reachable state: the seat, the pending entry
    and the session of the player are removed. If nobody is left the room
    is unregistered and nothing is emitted. Otherwise the room is told the
    player left; if the player was the host, the first remaining player
    becomes the host and is flagged as such. Every other room, the
    settings, the game state, the connections and the timers are left as
    they are. *)
Theorem reconnect_expiry_outcome pid rc pnick s room p :
  reachable s -> roomAt rc s = Some room ->
  JsMap.get pid (players room) = Some p -> isConnected p = false ->
  exists s' out,
    reconnectExpired pid rc pnick s = Ok s' out /\
    disconnectedPlayers s' = delete pid (disconnectedPlayers s) /\
    (truthy (Some (sessionId p)) = true ->
     playerSessions s' !! sessionId p = None) /\
    (forall c', c' <> rc -> roomAt c' s' = roomAt c' s) /\
    conns s' = conns s /\ timers s' = timers s /\
    match JsMap.delete pid (players room) with
    | [] => roomAt rc s' = None /\ out = []
    | (k, first) :: rest =>
        exists room',
          roomAt rc s' = Some room' /\
          settings room' = settings room /\
          gameState room' = gameState room /\
          (if String.eqb (hostId room) pid
           then hostId room' = k /\
                players room' = (k, set_isHost true first) :: rest /\
                (ToRoom (Some rc), HostChanged k) ∈ out
           else hostId room' = hostId room /\
                players room' = (k, first) :: rest) /\
          (ToRoom (Some rc), PlayerLeft pid pnick false) ∈ out
    end.
Proof.
  intros Hs (ref & Hroom)%roomAt_getRoom Hp Hconn.
  pose proof (reachable_wellFormed s Hs) as Hwf.
  assert (roomOK room) as Hok.
  { destruct Hwf as (Hr & _). apply getRoom_heap in Hroom as [_ Hh].
    by eapply Hr. }
  unfold reconnectExpired. rewrite Hroom, Hp, Hconn.
  destruct (promoteFirst pid (set_players (JsMap.delete pid (players room)) room))
    as [room2 msgs] eqn:Ep.
  destruct (removal_outcome pid room room2 msgs Hok Ep)
    as (Hcode & Hset & Hgs & Hout).
  set (s1 := set_disconnectedPlayers (delete pid (disconnectedPlayers s)) s).
  set (s2 := if truthy (Some (sessionId p))
             then set_playerSessions
                    (delete (sessionId p) (playerSessions s1)) s1
             else s1).
  assert (heap s2 = heap s /\ rooms s2 = rooms s /\ timers s2 = timers s /\
          conns s2 = conns s /\
          disconnectedPlayers s2 = delete pid (disconnectedPlayers s) /\
          (truthy (Some (sessionId p)) = true ->
           playerSessions s2 !! sessionId p = None))
    as (H1 & H2 & H3 & H4 & H5 & H6).
  { unfold s2, s1. destruct (truthy (Some (sessionId p)));
      (repeat (split; [done|])); [|done].
    intros _. simpl. by rewrite lookup_delete_eq. }
  destruct (JsMap.delete pid (players room)) as [|[k first] rest] eqn:Ed.
  - destruct Hout as [Hpl ->]. rewrite Hpl. simpl.
    eexists _, _. split; [reflexivity|]. simpl.
    split; [done|]. split; [done|].
    split.
    { intros c' Hc'. eapply roomAt_frame; [exact Hwf|exact Hroom|exact Hc'|..];
        simpl; rewrite ?H1, ?H2; auto. }
    split; [done|]. split; [done|]. split; [|done].
    eapply roomAt_unregistered; [exact Hwf|]. simpl. by rewrite H2.
  - assert ((JsMap.size (players room2) =? 0)%nat = false) as ->.
    { destruct (String.eqb (hostId room) pid);
        destruct Hout as (_ & -> & _); done. }
    eexists _, _. split; [reflexivity|]. simpl.
    split; [done|]. split; [done|].
    split.
    { intros c' Hc'. eapply roomAt_frame; [exact Hwf|exact Hroom|exact Hc'|..];
        simpl; rewrite ?H1, ?H2; auto. }
    split; [done|]. split; [done|].
    exists room2. split.
    { eapply roomAt_put; [exact Hroom| |]; simpl; by rewrite ?H1, ?H2. }
    split; [done|]. split; [done|]. split.
    + destruct (String.eqb (hostId room) pid).
      * destruct Hout as (-> & -> & ->). split; [done|]. split; [done|].
        simpl. apply elem_of_cons. by left.
      * by destruct Hout as (-> & -> & _).
    + apply elem_of_app. right. apply elem_of_cons. right.
      apply elem_of_cons. by left.
Qed.

End Removing.

Section Creating.
Context {engine : Engine}.

(** X26. [room:create] in a reachable state registers, under the code
    generated, a new room in the lobby with the default settings whose
    only player is the sender, seated under the generated id as host and
    ready; the session token is recorded for that room and player, the
    connection is bound to them, and the sender alone is answered. Rooms
    registered under other codes, timers and pending reconnect entries
    are as before. *)
Theorem room_create_outcome sid pnick avatar sessionId_ rnd uuid s :
  reachable s ->
  exists s' room,
    onRoomCreate sid pnick avatar sessionId_ rnd uuid s
    = Ok s' [(ToSocket sid,
              RoomCreated (generateRoomCode rnd) (generatePlayerId uuid)
                (getRoomData room))] /\
    roomAt (generateRoomCode rnd) s' = Some room /\
    code room = generateRoomCode rnd /\
    hostId room = generatePlayerId uuid /\
    players room
    = [(generatePlayerId uuid,
        newPlayer (generatePlayerId uuid) pnick avatar true sid sessionId_)] /\
    settings room = mkSettings 15 5 false (Some DEFAULT_CATEGORIES) /\
    gameState room = mkGameState lobby 0 "" ∅ [] None false false /\
    playerSessions s' !! sessionId_
    = Some (mkSession (generateRoomCode rnd) (generatePlayerId uuid)) /\
    conns s' !! sid
    = Some (mkConn (Some (generatePlayerId uuid))
              (Some (generateRoomCode rnd)) true) /\
    (forall c, c <> generateRoomCode rnd -> roomAt c s' = roomAt c s) /\
    timers s' = timers s /\ disconnectedPlayers s' = disconnectedPlayers s.
Proof.
  intros Hs. pose proof (reachable_wellFormed s Hs) as (_ & _ & Hreg).
  unfold onRoomCreate, createRoom. simpl.
  eexists _, _. split; [reflexivity|].
  split.
  { unfold roomAt, getRoom. simpl. rewrite JsMap_get_set, String.eqb_refl.
    rewrite lookup_app_r by done. by rewrite Nat.sub_diag. }
  do 5 (split; [done|]).
  split; [simpl; by rewrite lookup_insert_eq|].
  split; [simpl; by rewrite lookup_insert_eq|].
  split; [|done].
  intros c Hc. unfold roomAt, getRoom. simpl. rewrite JsMap_get_set.
  apply String.eqb_neq in Hc. rewrite Hc.
  destruct (JsMap.get c (rooms s)) as [ref|] eqn:Eref; [|done].
  destruct (Hreg c ref Eref) as (rm & Hl & _).
  by rewrite (lookup_app_l_Some _ _ _ _ Hl), Hl.
Qed.

End Creating.

(** The first room of a server. *)
Lemma room_create_outcome_witness :
  exists s' room,
    onRoomCreate "s1" "Ana" "seed1" "tok1" zeros
      "11112222-aaaa" initial
    = Ok s' [(ToSocket "s1", RoomCreated "AAAAA" ana (getRoomData room))] /\
    roomAt "AAAAA" s' = Some room /\ hostId room = ana.
Proof.
  destruct (room_create_outcome (engine := basicEngine) "s1" "Ana" "seed1"
              "tok1" zeros "11112222-aaaa" initial reachable_initial)
    as (s' & room & H1 & H2 & _ & H4 & _).
  by exists s', room.
Defined.

(** ** The further properties on sample runs *)

(** Room AAAAA with Ana and Beka in the lobby is listed. *)
Lemma public_rooms_listing_witness :
  mkPublicRoom "AAAAA" "Ana" "seed1" 2 8 5 false
    ∈ listPublicRooms (stateAfter twoInLobby) /\
  exists room,
    roomAt "AAAAA" (stateAfter twoInLobby) = Some room /\
    phase (gameState room) = lobby.
Proof.
  assert (mkPublicRoom "AAAAA" "Ana" "seed1" 2 8 5 false
            ∈ listPublicRooms (stateAfter twoInLobby)) as Hin.
  { assert (listPublicRooms (stateAfter twoInLobby)
            = [mkPublicRoom "AAAAA" "Ana" "seed1" 2 8 5 false]) as ->
      by (vm_compute; reflexivity).
    apply elem_of_cons. by left. }
  split; [exact Hin|].
  destruct (public_rooms_listing (engine := basicEngine)
              (stateAfter twoInLobby)
              (mkPublicRoom "AAAAA" "Ana" "seed1" 2 8 5 false)
              (stateAfter_reachable twoInLobby))
    as [[Hfwd _] _].
  destruct (Hfwd Hin) as (room & Hroom & Hph & _).
  by exists room.
Defined.

(** A third player joins the listed room by its code. *)
Lemma listed_room_joinable_witness :
  exists s' room' data rest,
    onRoomJoin (engine := basicEngine) "s3" "AAAAA" "Gio" "seed3" "tok3"
      "55556666-cccc" (stateAfter twoInLobby)
    = Ok s' ((ToSocket "s3",
              RoomJoined "AAAAA" (generatePlayerId "55556666-cccc") data)
             :: rest) /\
    roomAt "AAAAA" s' = Some room' /\
    JsMap.get (generatePlayerId "55556666-cccc") (players room')
    = Some (newPlayer (generatePlayerId "55556666-cccc") "Gio" "seed3" false
              "s3" "tok3").
Proof.
  apply (listed_room_joinable (engine := basicEngine) (stateAfter twoInLobby)
           (mkPublicRoom "AAAAA" "Ana" "seed1" 2 8 5 false)
           "s3" "Gio" "seed3" "tok3" "55556666-cccc"
           (stateAfter_reachable twoInLobby)).
  - assert (listPublicRooms (stateAfter twoInLobby)
            = [mkPublicRoom "AAAAA" "Ana" "seed1" 2 8 5 false]) as ->
      by (vm_compute; reflexivity).
    apply elem_of_cons. by left.
  - vm_compute. reflexivity.
Defined.

(** A join of room AAAAA while it is in the results phase is refused. *)
Lemma room_join_refused_witness :
  exists msg,
    onRoomJoin (engine := basicEngine) "s3" "aaaaa" "Gio" "seed3" "tok3"
      "55556666-cccc" (stateAfter toResults)
    = Ok (stateAfter toResults) [(ToSocket "s3", RoomError msg)].
Proof.
  apply (room_join_refused (engine := basicEngine)).
  right.
  destruct (roomAt (toUpperCase (Engine := basicEngine) "aaaaa")
              (stateAfter toResults)) as [room|] eqn:E;
    [|vm_compute in E; discriminate].
  exists room. split; [reflexivity|]. left.
  assert (phaseAt "AAAAA" (stateAfter toResults) = Some results) as H
    by (vm_compute; reflexivity).
  unfold phaseAt in H.
  change (toUpperCase (Engine := basicEngine) "aaaaa") with "AAAAA" in E.
  rewrite E in H. injection H as ->. discriminate.
Defined.

(** Beka's join of Ana's room. *)
Lemma room_join_accepted_witness :
  exists s' out room',
    onRoomJoin (engine := basicEngine) "s2" "aaaaa" "Beka" "seed2" "tok2"
      "33334444-bbbb" (stateAfter (firstn 3 twoInLobby)) = Ok s' out /\
    roomAt "AAAAA" s' = Some room' /\
    JsMap.get beka (players room')
    = Some (newPlayer beka "Beka" "seed2" false "s2" "tok2") /\
    hostId room' = ana.
Proof.
  destruct (roomAt "AAAAA" (stateAfter (firstn 3 twoInLobby))) as [room|] eqn:E;
    [|vm_compute in E; discriminate].
  assert (match roomAt "AAAAA" (stateAfter (firstn 3 twoInLobby)) with
          | Some room => phase (gameState room) = lobby
                         /\ (JsMap.size (players room) < 8)%nat
                         /\ hostId room = ana
          | None => False
          end) as H by (vm_compute; split; [reflexivity|split; [lia|reflexivity]]).
  rewrite E in H. destruct H as (Hph & Hsz & Hhost).
  destruct (room_join_accepted (engine := basicEngine) "s2" "aaaaa" "Beka"
              "seed2" "tok2" "33334444-bbbb" (stateAfter (firstn 3 twoInLobby))
              room E Hph Hsz)
    as (s' & out & room' & H1 & H2 & H3 & _ & H4 & _).
  exists s', out, room'. split; [exact H1|]. split; [exact H2|].
  split; [exact H3|]. by rewrite H4.
Defined.

(** Beka's socket drops in the lobby: the entry names the timer armed. *)
Lemma disconnect_opens_window_witness :
  exists s1 out,
    onDisconnect "s2" (connOf "s2" (stateAfter twoInLobby))
      (stateAfter twoInLobby) = Ok s1 out /\
    disconnectedPlayers s1 !! beka
    = Some (mkPending "AAAAA" (nextTimer (stateAfter twoInLobby))) /\
    alive <$> conns s1 !! "s2" = Some false.
Proof.
  destruct (roomAt "AAAAA" (stateAfter twoInLobby)) as [room|] eqn:E;
    [|vm_compute in E; discriminate].
  assert (match playerAt "AAAAA" beka (stateAfter twoInLobby) with
          | Some p => socketId p = Some "s2"
          | None => False
          end) as H by (vm_compute; reflexivity).
  unfold playerAt in H. rewrite E in H.
  destruct (JsMap.get beka (players room)) as [p|] eqn:Ep; [|done].
  destruct (disconnect_opens_window "s2"
              (connOf "s2" (stateAfter twoInLobby)) (stateAfter twoInLobby)
              "AAAAA" beka room p)
    as (s1 & room1 & H1 & _ & _ & _ & _ & H6 & _ & H8 & _);
    [vm_compute; reflexivity|exact E|exact Ep|exact H|].
  by eexists _, _.
Defined.

(** Beka's socket drops and the session is restored from a new socket. *)
Lemma disconnect_restore_roundtrip_witness :
  exists s1 out1 s2 out2,
    onDisconnect "s2" (connOf "s2" (stateAfter twoInLobby))
      (stateAfter twoInLobby) = Ok s1 out1 /\
    onSessionRestore "s3" "tok2" beka s1 = Ok s2 out2 /\
    disconnectedPlayers s2 !! beka = None /\
    conns s2 !! "s3" = Some (mkConn (Some beka) (Some "AAAAA") true).
Proof.
  destruct (roomAt "AAAAA" (stateAfter twoInLobby)) as [room|] eqn:E;
    [|vm_compute in E; discriminate].
  assert (match playerAt "AAAAA" beka (stateAfter twoInLobby) with
          | Some p => socketId p = Some "s2"
          | None => False
          end) as H by (vm_compute; reflexivity).
  unfold playerAt in H. rewrite E in H.
  destruct (JsMap.get beka (players room)) as [p|] eqn:Ep; [|done].
  destruct (disconnect_restore_roundtrip "s2" "s3"
              (connOf "s2" (stateAfter twoInLobby)) (stateAfter twoInLobby)
              "AAAAA" beka "tok2" room p)
    as (s1 & out1 & s2 & out2 & H1 & H2 & _ & H4 & _ & H6);
    [vm_compute; reflexivity|exact E|exact Ep|exact H|vm_compute; reflexivity|].
  by exists s1, out1, s2, out2.
Defined.

(** Beka's first socket drops after the session moved to the second. *)
Lemma stale_disconnect_ignored_witness :
  onDisconnect "s2" (connOf "s2" (stateAfter bekaRestored))
    (stateAfter bekaRestored)
  = Ok (setConn "s2" (mkConn (Some beka) (Some "AAAAA") false)
          (stateAfter bekaRestored)) [] /\
  bound (connOf "s2" (stateAfter bekaRestored)) = Some ("AAAAA", beka) /\
  socketId <$> playerAt "AAAAA" beka (stateAfter bekaRestored)
  = Some (Some "s3").
Proof.
  assert (bound (connOf "s2" (stateAfter bekaRestored)) = Some ("AAAAA", beka))
    as Hb by (vm_compute; reflexivity).
  assert (socketId <$> playerAt "AAAAA" beka (stateAfter bekaRestored)
          = Some (Some "s3")) as Hp by (vm_compute; reflexivity).
  split; [|by split].
  rewrite (stale_disconnect_ignored "s2" (connOf "s2" (stateAfter bekaRestored))
             (stateAfter bekaRestored)).
  - apply bound_truthy in Hb as (-> & -> & _). reflexivity.
  - intros rc pid p Hb' Hp'. rewrite Hb in Hb'. injection Hb' as <- <-.
    rewrite Hp' in Hp. simpl in Hp. injection Hp as ->. discriminate.
Defined.

(** Ana's token with Beka's player id binds the sender to Beka. *)
Lemma session_restore_by_room_token_witness :
  exists s' out,
    onSessionRestore "s3" "tok1" beka (stateAfter twoInLobby) = Ok s' out /\
    s_playerId <$> playerSessions (stateAfter twoInLobby) !! "tok1" = Some ana /\
    conns s' !! "s3" = Some (mkConn (Some beka) (Some "AAAAA") true) /\
    socketId <$> playerAt "AAAAA" beka s' = Some (Some "s3").
Proof.
  destruct (roomAt "AAAAA" (stateAfter twoInLobby)) as [room|] eqn:E;
    [|vm_compute in E; discriminate].
  assert (is_Some (playerAt "AAAAA" beka (stateAfter twoInLobby))) as [p Hp]
    by (vm_compute; eauto).
  unfold playerAt in Hp. rewrite E in Hp.
  destruct (session_restore_by_room_token "s3" "tok1" beka
              (stateAfter twoInLobby) (mkSession "AAAAA" ana) room p)
    as (s' & data & rest & H1 & H2 & H3 & _);
    [vm_compute; reflexivity|exact E|exact Hp|].
  eexists _, _. split; [exact H1|]. split; [vm_compute; reflexivity|].
  split; [exact H3|]. simpl in H2. by rewrite H2.
Defined.

(** A token and a player id nobody holds. *)
Lemma session_restore_fails_witness :
  exists s',
    onSessionRestore "s3" "tok9" "player_99999999" (stateAfter twoInLobby)
    = Ok s' [(ToSocket "s3", SessionRestoredFail)] /\
    rooms s' = [("AAAAA", 0%nat)].
Proof.
  destruct (session_restore_fails (engine := basicEngine) "s3" "tok9"
              "player_99999999" (stateAfter twoInLobby)
              (stateAfter_reachable twoInLobby))
    as (s' & H1 & _ & _ & H4 & _).
  - intros c room p Hroom Hp. exfalso.
    assert (rooms (stateAfter twoInLobby) = [("AAAAA", 0%nat)]) as Hr
      by (vm_compute; reflexivity).
    assert (match heap (stateAfter twoInLobby) !! 0%nat with
            | Some rm => JsMap.get "player_99999999" (players rm) = None
            | None => True
            end) as Hh by (vm_compute; reflexivity).
    unfold roomAt, getRoom in Hroom. rewrite Hr in Hroom. simpl in Hroom.
    destruct (String.eqb c "AAAAA"); [|done].
    destruct (heap (stateAfter twoInLobby) !! 0%nat) as [rm|]; [|done].
    injection Hroom as ->. congruence.
  - exists s'. split; [exact H1|]. rewrite H4. vm_compute. reflexivity.
Defined.

(** Ana, the host, leaves the room of two: Beka becomes the host. *)
Lemma room_leave_outcome_witness :
  exists s' out room',
    onRoomLeave "s1" (connOf "s1" (stateAfter twoInLobby))
      (stateAfter twoInLobby) = Ok s' out /\
    roomAt "AAAAA" s' = Some room' /\
    hostId room' = beka /\ JsMap.keys (players room') = [beka] /\
    conns s' !! "s1" = Some (mkConn None None true).
Proof.
  destruct (roomAt "AAAAA" (stateAfter twoInLobby)) as [room|] eqn:E;
    [|vm_compute in E; discriminate].
  pose proof E as E'. vm_compute in E'. injection E' as <-.
  edestruct (room_leave_outcome (engine := basicEngine) "s1"
               (connOf "s1" (stateAfter twoInLobby)) (stateAfter twoInLobby)
               "AAAAA" ana)
    as (s' & out & H1 & H2 & _ & _ & _ & _ & H7);
    [exact (stateAfter_reachable twoInLobby)|vm_compute; reflexivity|exact E|].
  simpl in H7. destruct H7 as (room' & H71 & _ & _ & (H72 & H73 & _) & _).
  exists s', out, room'. split; [exact H1|]. split; [exact H71|].
  split; [exact H72|]. split; [by rewrite H73|exact H2].
Defined.

(** Ana kicks Beka: the seat and the session go, Beka's connection keeps
    its binding. *)
Lemma player_kick_outcome_witness :
  exists s' out room',
    onPlayerKick "s1" (connOf "s1" (stateAfter twoInLobby)) beka
      (stateAfter twoInLobby) = Ok s' out /\
    roomAt "AAAAA" s' = Some room' /\
    JsMap.get beka (players room') = None /\
    playerSessions s' !! "tok2" = None /\
    conns s' !! "s2" = Some (mkConn (Some beka) (Some "AAAAA") true).
Proof.
  destruct (roomAt "AAAAA" (stateAfter twoInLobby)) as [room|] eqn:E;
    [|vm_compute in E; discriminate].
  pose proof E as E'. vm_compute in E'. injection E' as <-.
  edestruct (player_kick_outcome (engine := basicEngine) "s1"
               (connOf "s1" (stateAfter twoInLobby)) (stateAfter twoInLobby)
               "AAAAA" ana)
    with (target := beka)
    as (s' & out & room' & H1 & H2 & H3 & _ & _ & _ & H7 & _ & _ & H10 & _);
    [exact (stateAfter_reachable twoInLobby)|vm_compute; reflexivity|exact E
    |vm_compute; reflexivity|discriminate|vm_compute; reflexivity|].
  exists s', out, room'. split; [exact H1|]. split; [exact H2|].
  split; [by rewrite H3, String.eqb_refl|].
  split; [by apply H7|]. rewrite H10. vm_compute. reflexivity.
Defined.

(** Beka, who is not the host, tries to kick Ana. *)
Lemma host_only_events_ignored_witness :
  onPlayerKick "s2" (connOf "s2" (stateAfter twoInLobby)) ana
    (stateAfter twoInLobby) = Ok (stateAfter twoInLobby) [] /\
  bound (connOf "s2" (stateAfter twoInLobby)) = Some ("AAAAA", beka).
Proof.
  split; [|vm_compute; reflexivity].
  apply host_only_events_ignored. left. vm_compute. reflexivity.
Defined.

(** Beka, kicked while the round runs, sends [round:stop]. *)
Lemma round_stop_without_seat_throws_witness :
  onRoundStop "s2" (connOf "s2" (stateAfter kickedInRound))
    (stateAfter kickedInRound)
  = Throws "TypeError: Cannot read properties of undefined" /\
  bound (connOf "s2" (stateAfter kickedInRound)) = Some ("AAAAA", beka) /\
  phaseAt "AAAAA" (stateAfter kickedInRound) = Some playing.
Proof.
  split; [|split; vm_compute; reflexivity].
  destruct (roomAt "AAAAA" (stateAfter kickedInRound)) as [room|] eqn:E;
    [|vm_compute in E; discriminate].
  assert (match roomAt "AAAAA" (stateAfter kickedInRound) with
          | Some room =>
              phase (gameState room) = playing /\
              timerEnabled (gameState room) = true /\
              JsMap.get beka (players room) = None
          | None => False
          end) as H by (vm_compute; repeat split).
  rewrite E in H. destruct H as (Hph & Ht & Hp).
  by apply (round_stop_without_seat_throws "s2" _ _ "AAAAA" beka room).
Defined.

(** Beka's reconnect window ends while Beka is still away. *)
Lemma reconnect_expiry_outcome_witness :
  exists s' out,
    reconnectExpired beka "AAAAA" "Beka" (stateAfter bekaDisconnected)
    = Ok s' out /\
    disconnectedPlayers s' !! beka = None /\
    JsMap.keys <$> (players <$> roomAt "AAAAA" s') = Some [ana].
Proof.
  destruct (roomAt "AAAAA" (stateAfter bekaDisconnected)) as [room|] eqn:E;
    [|vm_compute in E; discriminate].
  pose proof E as E'. vm_compute in E'. injection E' as <-.
  edestruct (reconnect_expiry_outcome (engine := basicEngine) beka "AAAAA"
               "Beka" (stateAfter bekaDisconnected))
    as (s' & out & H1 & H2 & _ & _ & _ & _ & H7);
    [exact (stateAfter_reachable bekaDisconnected)|exact E
    |vm_compute; reflexivity|vm_compute; reflexivity|].
  simpl in H7. destruct H7 as (room' & H71 & _ & _ & (_ & H73) & _).
  exists s', out. split; [exact H1|].
  split; [by rewrite H2, lookup_delete_eq|].
  rewrite H71. simpl. by rewrite H73.
Defined.
